(** * Reconciliation core of the GitHub configurator

    A shallow embedding of the label, milestone and secret managers
    (src/github/labels.py, milestones.py, secrets.py), of the configuration
    validation (src/utils/config.py), of the orchestrator
    (src/configurator.py) and of the page loops of the API client
    (src/github/api.py), with the properties of the specification and
    further properties of the code stated over it.

    Python dictionaries are finite maps from strings to scalar values, the
    mutable fields of the managers and the sequence of requests handed to the
    API client are threaded through a state-and-exception monad, and the
    remote server is an arbitrary function from the request history to a
    reply. *)

From Stdlib Require Import ZArith String Ascii List Bool Lia DecimalString.
From stdpp Require Import base option gmap strings list.

Open Scope Z_scope.
Open Scope string_scope.

(** ** Python values *)

Module Py.

(** The scalars that YAML and JSON documents hold in the fields the
    managers read.  Floats and nested containers are left out. *)
Inductive value : Type :=
| VNone
| VBool (b : bool)
| VInt (n : Z)
| VStr (s : string).

#[export] Instance value_eq_dec : EqDecision value.
Proof. solve_decision. Defined.

(** [dict]: a Python [dict] with string keys. *)
Abbreviation dict := (gmap string value).

(** [==]: booleans are integers in Python ([True == 1]). *)
Definition int_of (v : value) : option Z :=
  match v with
  | VBool b => Some (if b then 1 else 0)
  | VInt n => Some n
  | _ => None
  end.

Definition py_eqb (a b : value) : bool :=
  match a, b with
  | VNone, VNone => true
  | VStr s, VStr t => String.eqb s t
  | _, _ =>
      match int_of a, int_of b with
      | Some x, Some y => Z.eqb x y
      | _, _ => false
      end
  end.

(** [x in l] on a list. *)
Definition py_in (x : value) (l : list value) : bool :=
  existsb (py_eqb x) l.

(** Truth value of an object ([if x:], [x and y]). *)
Definition truthy (v : value) : bool :=
  match v with
  | VNone => false
  | VBool b => b
  | VInt n => negb (n =? 0)%Z
  | VStr s => negb (String.eqb s "")
  end.

(** [str(x)], as an f-string formats a field. *)
Definition py_str (v : value) : string :=
  match v with
  | VNone => "None"
  | VBool true => "True"
  | VBool false => "False"
  | VInt n => NilZero.string_of_int (Z.to_int n)
  | VStr s => s
  end.

(** [d.get(k, default)] *)
Definition get (d : dict) (k : string) (default : value) : value :=
  match d !! k with
  | Some v => v
  | None => default
  end.

(** [k in d] *)
Definition contains (d : dict) (k : string) : bool :=
  match d !! k with
  | Some _ => true
  | None => false
  end.

(** [s.lstrip("#")]: every leading occurrence of the character goes. *)
Fixpoint lstrip (c : ascii) (s : string) : string :=
  match s with
  | String a rest => if Ascii.eqb a c then lstrip c rest else s
  | EmptyString => s
  end.

(** [s.lower()] on the ASCII letters; strings are byte strings here, so
    letters outside ASCII are left as they are. *)
Definition lower_ascii (a : ascii) : ascii :=
  let n := nat_of_ascii a in
  if ((65 <=? n)%nat && (n <=? 90)%nat)%bool then ascii_of_nat (n + 32) else a.

Fixpoint lower (s : string) : string :=
  match s with
  | String a rest => String (lower_ascii a) (lower rest)
  | EmptyString => EmptyString
  end.

End Py.

Import Py.

(** ** The API client and the state of a run *)

Module Api.

(** [requests.Response]: only the status code is read. *)
Record Response : Type := { status_code : Z }.

(** [bool(response)]: [requests.Response.__bool__] returns [self.ok], which
    is false exactly when [raise_for_status] would raise, that is for the
    status codes from 400 to 599. *)
Definition Response_bool (r : Response) : bool :=
  negb ((400 <=? status_code r)%Z && (status_code r <? 600)%Z).

(** The exceptions the modelled code raises or handles.  [SystemExit] is not
    an [Exception]. *)
Inductive exn : Type :=
| RequestException (response : option Response)
| ValueError
| KeyError
| AttributeError
| TypeError
| SystemExit (code : Z).

Definition is_Exception (e : exn) : bool :=
  match e with SystemExit _ => false | _ => true end.

Definition is_RequestException (e : exn) : bool :=
  match e with RequestException _ => true | _ => false end.

Definition is_ValueError (e : exn) : bool :=
  match e with ValueError => true | _ => false end.

Inductive result (A : Type) : Type :=
| Ok (a : A)
| Raise (e : exn).
Arguments Ok {A} a.
Arguments Raise {A} e.

(** One call of a method of [GitHubApiClient].  [paginate] and
    [get_repositories] are taken as one listing each: their page loop belongs
    to the client. *)
Inductive request : Type :=
| GET (endpoint : string)
| PAGINATE (endpoint : string) (params : dict)
| LIST_REPOS (organization : option string)
| POST (endpoint : string) (data : dict)
| PATCH (endpoint : string) (data : dict)
| PUT (endpoint : string) (data : dict)
| DELETE (endpoint : string).

Definition is_write (r : request) : bool :=
  match r with
  | POST _ _ | PATCH _ _ | PUT _ _ | DELETE _ => true
  | _ => false
  end.

Definition is_delete (r : request) : bool :=
  match r with DELETE _ => true | _ => false end.

(** What comes back from the remote side: the decoded JSON, or a failure,
    which the client raises as [requests.RequestException] with the given
    [response] attribute ([None] when no response arrived). *)
Inductive reply (A : Type) : Type :=
| Reply (a : A)
| Failure (response : option Response).
Arguments Reply {A} a.
Arguments Failure {A} response.

(** The remote side: each reply may depend on every request made so far.
    [seal] is the sealed-box encryption of secrets.py, with the history as
    its source of randomness; [None] stands for any exception of the
    encryption library. *)
Record server : Type := {
  on_get : list request -> string -> reply dict;
  on_paginate : list request -> string -> dict -> reply (list dict);
  on_list_repos : list request -> option string -> reply (list string);
  on_write : list request -> request -> reply unit;
  seal : list request -> value -> value -> option string;
}.

Definition raise_for_status {A} (r : reply A) : result A :=
  match r with
  | Reply a => Ok a
  | Failure response => Raise (RequestException response)
  end.

(** [self.stats] of a manager. *)
Record Stats : Type := {
  created : nat;
  updated : nat;
  removed : nat;
  failed : nat;
  skipped : nat;
}.

Record manager : Type := {
  stats : Stats;
  success_count : nat;
  error_count : nat;
}.

Definition new_manager : manager :=
  {| stats := {| created := 0; updated := 0; removed := 0; failed := 0; skipped := 0 |};
     success_count := 0; error_count := 0 |}.

(** What a run changes: the requests made, oldest first, the two managers
    that keep counters, and the totals and the set of repositories that
    [GitHubConfigurator] keeps for the summary. *)
Record world : Type := {
  calls : list request;
  label_manager : manager;
  milestone_manager : manager;
  total_success_count : nat;
  total_error_count : nat;
  processed_repos : gset string;
}.

Definition new_world : world :=
  {| calls := []; label_manager := new_manager; milestone_manager := new_manager;
     total_success_count := 0; total_error_count := 0; processed_repos := ∅ |}.

Definition set_calls (c : list request) (w : world) : world :=
  {| calls := c; label_manager := label_manager w;
     milestone_manager := milestone_manager w;
     total_success_count := total_success_count w;
     total_error_count := total_error_count w;
     processed_repos := processed_repos w |}.

Definition set_label_manager (m : manager) (w : world) : world :=
  {| calls := calls w; label_manager := m;
     milestone_manager := milestone_manager w;
     total_success_count := total_success_count w;
     total_error_count := total_error_count w;
     processed_repos := processed_repos w |}.

Definition set_milestone_manager (m : manager) (w : world) : world :=
  {| calls := calls w; label_manager := label_manager w;
     milestone_manager := m;
     total_success_count := total_success_count w;
     total_error_count := total_error_count w;
     processed_repos := processed_repos w |}.

Definition M (A : Type) : Type := world -> result A * world.

Definition ret {A} (a : A) : M A := fun w => (Ok a, w).

Definition raise {A} (e : exn) : M A := fun w => (Raise e, w).

Definition bind {A B} (m : M A) (k : A -> M B) : M B :=
  fun w =>
    match m w with
    | (Ok a, w') => k a w'
    | (Raise e, w') => (Raise e, w')
    end.

(** [try: body except <class> as e: handler e] *)
Definition try_except {A} (body : M A) (class : exn -> bool) (handler : exn -> M A) : M A :=
  fun w =>
    match body w with
    | (Ok a, w') => (Ok a, w')
    | (Raise e, w') => if class e then handler e w' else (Raise e, w')
    end.

Definition lift {A} (r : result A) : M A := fun w => (r, w).

Definition modify (f : world -> world) : M unit := fun w => (Ok tt, f w).

(** [d[k]] *)
Definition getitem (d : dict) (k : string) : result value :=
  match d !! k with
  | Some v => Ok v
  | None => Raise KeyError
  end.

(** [self.stats["created"] += 1] and the like. *)
Definition inc_created (m : manager) : manager :=
  {| stats := {| created := S (created (stats m)); updated := updated (stats m);
                 removed := removed (stats m); failed := failed (stats m);
                 skipped := skipped (stats m) |};
     success_count := success_count m; error_count := error_count m |}.

Definition inc_updated (m : manager) : manager :=
  {| stats := {| created := created (stats m); updated := S (updated (stats m));
                 removed := removed (stats m); failed := failed (stats m);
                 skipped := skipped (stats m) |};
     success_count := success_count m; error_count := error_count m |}.

Definition inc_removed (m : manager) : manager :=
  {| stats := {| created := created (stats m); updated := updated (stats m);
                 removed := S (removed (stats m)); failed := failed (stats m);
                 skipped := skipped (stats m) |};
     success_count := success_count m; error_count := error_count m |}.

Definition inc_failed (m : manager) : manager :=
  {| stats := {| created := created (stats m); updated := updated (stats m);
                 removed := removed (stats m); failed := S (failed (stats m));
                 skipped := skipped (stats m) |};
     success_count := success_count m; error_count := error_count m |}.

Definition inc_skipped (m : manager) : manager :=
  {| stats := {| created := created (stats m); updated := updated (stats m);
                 removed := removed (stats m); failed := failed (stats m);
                 skipped := S (skipped (stats m)) |};
     success_count := success_count m; error_count := error_count m |}.

(** [self.success_count += 1], [self.error_count += 1] *)
Definition inc_success_count (m : manager) : manager :=
  {| stats := stats m; success_count := S (success_count m); error_count := error_count m |}.

Definition inc_error_count (m : manager) : manager :=
  {| stats := stats m; success_count := success_count m; error_count := S (error_count m) |}.

End Api.

Import Api.

Notation "'do' x <- m ; k" := (bind m (fun x => k))
  (at level 10, x name, m at level 100, k at level 200).

Module Client.
Section WithServer.
Variable srv : server.

Definition record (r : request) (w : world) : world :=
  set_calls (calls w ++ [r]) w.

(** [GitHubApiClient.get] *)
Definition get (endpoint : string) : M dict :=
  fun w => (raise_for_status (on_get srv (calls w) endpoint), record (GET endpoint) w).

(** [GitHubApiClient.paginate] *)
Definition paginate (endpoint : string) (params : dict) : M (list dict) :=
  fun w => (raise_for_status (on_paginate srv (calls w) endpoint params),
            record (PAGINATE endpoint params) w).

Definition write (r : request) : M unit :=
  fun w => (raise_for_status (on_write srv (calls w) r), record r w).

(** [GitHubApiClient.post], [patch], [put], [delete]; the JSON they return
    is only logged by the callers. *)
Definition post (endpoint : string) (data : dict) : M unit := write (POST endpoint data).
Definition patch (endpoint : string) (data : dict) : M unit := write (PATCH endpoint data).
Definition put (endpoint : string) (data : dict) : M unit := write (PUT endpoint data).
Definition delete (endpoint : string) : M unit := write (DELETE endpoint).

(** [GitHubApiClient.get_repositories]: a failed listing ends the process
    with [sys.exit(1)]. *)
Definition get_repositories (organization : option string) : M (list string) :=
  fun w =>
    (match raise_for_status (on_list_repos srv (calls w) organization) with
     | Ok repos => Ok repos
     | Raise _ => Raise (SystemExit 1)
     end, record (LIST_REPOS organization) w).

End WithServer.
End Client.

(** ** src/github/labels.py *)

Module Labels.
Section LabelManager.
Variable api : server.
Variable dry_run : bool.

Definition self_update (f : manager -> manager) : M unit :=
  modify (fun w => set_label_manager (f (label_manager w)) w).

(** [v.lower()], an [AttributeError] on what is not a string. *)
Definition str_lower (v : value) : result string :=
  match v with
  | VStr s => Ok (lower s)
  | _ => Raise AttributeError
  end.

(** [v.lstrip("#")] *)
Definition str_lstrip (v : value) : result value :=
  match v with
  | VStr s => Ok (VStr (lstrip "#"%char s))
  | _ => Raise AttributeError
  end.

(** [hasattr(e, "response") and e.response and e.response.status_code == 422] *)
Definition is_422 (e : exn) : bool :=
  match e with
  | RequestException (Some r) => Response_bool r && (status_code r =? 422)%Z
  | _ => false
  end.

(** The comparison of lines 64-70; the right operand of [or] is evaluated
    only when the colours are equal. *)
Definition needs_update (existing_label label_data : dict) : result bool :=
  match str_lstrip (get label_data "color" (VStr "")) with
  | Ok declared_color =>
      Ok (negb (py_eqb (get existing_label "color" (VStr "")) declared_color)
          || negb (py_eqb (get existing_label "description" (VStr ""))
                          (get label_data "description" (VStr ""))))
  | Raise e => Raise e
  end.

(** The loop of lines 133-149 over the listed labels.  [Some b]: the
    function returned [b]; [None]: the loop ended without a match. *)
Fixpoint rename_matching (repo : string) (label_name : value) (label_data : dict)
    (all_labels : list dict) : M (option bool) :=
  match all_labels with
  | [] => ret None
  | existing :: rest =>
      do existing_name <- lift (getitem existing "name");
      do a <- lift (str_lower existing_name);
      do b <- lift (str_lower label_name);
      if String.eqb a b then
        do _ <- Client.patch api ("/repos/" +:+ repo +:+ "/labels/" +:+ py_str existing_name)
                  label_data;
        do _ <- self_update inc_success_count;
        do _ <- self_update inc_updated;
        ret (Some true)
      else rename_matching repo label_name label_data rest
  end.

(** Lines 59-102: the inner [try].  [inl b]: the function returned [b];
    [inr label_exists]: control goes on after the [try] statement. *)
Definition check_existing (repo : string) (label_name : value) (label_data : dict)
    : M (bool + bool) :=
  try_except
    (do existing_label <- Client.get api ("/repos/" +:+ repo +:+ "/labels/" +:+ py_str label_name);
     do needs <- lift (needs_update existing_label label_data);
     if needs then
       if dry_run then ret (inl true)
       else
         do _ <- Client.patch api ("/repos/" +:+ repo +:+ "/labels/" +:+ py_str label_name)
                   label_data;
         do _ <- self_update inc_success_count;
         do _ <- self_update inc_updated;
         ret (inl true)
     else
       do _ <- self_update inc_skipped;
       ret (inl true))
    is_RequestException
    (fun _ => ret (inr false)).

(** Lines 114-156: the creation and its handler. *)
Definition create_new (repo : string) (label_name : value) (label_data : dict) : M bool :=
  try_except
    (do _ <- Client.post api ("/repos/" +:+ repo +:+ "/labels") label_data;
     do _ <- self_update inc_success_count;
     do _ <- self_update inc_created;
     ret true)
    is_RequestException
    (fun e =>
       do returned <-
         (if is_422 e then
            do all_labels <- Client.paginate api ("/repos/" +:+ repo +:+ "/labels") ∅;
            rename_matching repo label_name label_data all_labels
          else ret None);
       match returned with
       | Some b => ret b
       | None =>
           do _ <- self_update inc_error_count;
           do _ <- self_update inc_failed;
           ret false
       end).

(** [LabelManager.create_label].  Falling off the end of the function
    (line 108 with [label_exists] true) returns [None], which the caller
    tests as false. *)
Definition create_label (repo : string) (label_data : dict) : M bool :=
  let label_name := get label_data "name" (VStr "Unknown") in
  try_except
    (do found <- check_existing repo label_name label_data;
     match found with
     | inl b => ret b
     | inr label_exists =>
         if dry_run then ret true
         else if negb label_exists then create_new repo label_name label_data
         else ret false
     end)
    is_Exception
    (fun _ =>
       do _ <- self_update inc_error_count;
       do _ <- self_update inc_failed;
       ret false).

(** The loop of lines 185-206, with the local [success]. *)
Fixpoint remove_unconfigured (repo : string) (configured_labels : list value)
    (all_labels : list dict) (success : bool) : M bool :=
  match all_labels with
  | [] => ret success
  | label :: rest =>
      let label_name := get label "name" (VStr "") in
      if negb (py_in label_name configured_labels) then
        if dry_run then remove_unconfigured repo configured_labels rest success
        else
          do success' <-
            try_except
              (do _ <- Client.delete api ("/repos/" +:+ repo +:+ "/labels/" +:+ py_str label_name);
               do _ <- self_update inc_removed;
               ret success)
              is_RequestException
              (fun _ =>
                 do _ <- self_update inc_error_count;
                 ret false);
          remove_unconfigured repo configured_labels rest success'
      else remove_unconfigured repo configured_labels rest success
  end.

(** [LabelManager.sync_repository_labels] *)
Definition sync_repository_labels (repo : string) (configured_labels : list value) : M bool :=
  try_except
    (do all_labels <- Client.paginate api ("/repos/" +:+ repo +:+ "/labels") ∅;
     remove_unconfigured repo configured_labels all_labels true)
    is_Exception
    (fun _ =>
       do _ <- self_update inc_error_count;
       ret false).

End LabelManager.
End Labels.

(** ** [datetime.strptime] and [strftime], as far as milestones.py uses them *)

Module Datetime.

Record date : Type := { year : Z; month : Z; day : Z }.

Definition is_leap (y : Z) : bool :=
  ((y mod 4 =? 0)%Z && negb (y mod 100 =? 0)%Z) || (y mod 400 =? 0)%Z.

Definition days_in_month (y m : Z) : Z :=
  if (m =? 2)%Z then (if is_leap y then 29 else 28)
  else if ((m =? 4) || (m =? 6) || (m =? 9) || (m =? 11))%Z then 30
  else 31.

(** The check of the [date] constructor: [MINYEAR] is 1, [MAXYEAR] 9999. *)
Definition valid_date (y m d : Z) : bool :=
  ((1 <=? y) && (y <=? 9999) && (1 <=? m) && (m <=? 12)
   && (1 <=? d) && (d <=? days_in_month y m))%Z.

(** A character class of the regular expressions of [_strptime.TimeRE]. *)
Inductive cls : Type :=
| Range (lo hi : ascii)
| Char (c : ascii).

(** The expressions are compiled with [re.IGNORECASE]. *)
Definition cls_matches (k : cls) (a : ascii) : bool :=
  match k with
  | Range lo hi =>
      ((nat_of_ascii lo <=? nat_of_ascii a) && (nat_of_ascii a <=? nat_of_ascii hi))%nat
  | Char c => Ascii.eqb (lower_ascii a) (lower_ascii c)
  end.

(** One piece of a compiled format: a named group with its alternatives in
    order, [\s+], or a literal character. *)
Inductive item : Type :=
| Group (directive : ascii) (alts : list (list cls))
| Spaces
| Literal (c : ascii).

Definition digit : cls := Range "0" "9".

Definition chars (s : string) : list cls := map Char (list_ascii_of_string s).

(** [calendar.month_abbr] and [calendar.month_name] of the C locale, in
    lower case, as [LocaleTime] keeps them. *)
Definition a_month : list string :=
  [""; "jan"; "feb"; "mar"; "apr"; "may"; "jun"; "jul"; "aug"; "sep"; "oct"; "nov"; "dec"].

Definition f_month : list string :=
  [""; "january"; "february"; "march"; "april"; "may"; "june"; "july"; "august";
   "september"; "october"; "november"; "december"].

(** [sorted(to_convert, key=len, reverse=True)]: a stable insertion sort. *)
Fixpoint insert_by_len (x : string) (l : list string) : list string :=
  match l with
  | [] => [x]
  | y :: l' =>
      if (String.length y <? String.length x)%nat then x :: l
      else y :: insert_by_len x l'
  end.

Definition sorted_by_len (l : list string) : list string :=
  foldr insert_by_len [] l.

(** [TimeRE.__seqToRE] *)
Definition seqToRE (to_convert : list string) (directive : ascii) : item :=
  Group directive (map chars (sorted_by_len to_convert)).

(** The entries of [TimeRE] for the directives the formats use. *)
Definition directive_re (c : ascii) : option item :=
  if Ascii.eqb c "d" then
    Some (Group "d" [[Char "3"; Range "0" "1"]; [Range "1" "2"; digit];
                     [Char "0"; Range "1" "9"]; [Range "1" "9"];
                     [Char " "; Range "1" "9"]])
  else if Ascii.eqb c "m" then
    Some (Group "m" [[Char "1"; Range "0" "2"]; [Char "0"; Range "1" "9"]; [Range "1" "9"]])
  else if Ascii.eqb c "Y" then
    Some (Group "Y" [[digit; digit; digit; digit]])
  else if Ascii.eqb c "B" then Some (seqToRE (tl f_month) "B")
  else if Ascii.eqb c "b" then Some (seqToRE (tl a_month) "b")
  else None.

(** [\s] on ASCII. *)
Definition is_space (a : ascii) : bool :=
  let n := nat_of_ascii a in
  (((9 <=? n) && (n <=? 13)) || ((28 <=? n) && (n <=? 32)))%nat.

(** [TimeRE.pattern]: a run of white space becomes [\s+], [%x] the
    expression of the directive, any other character itself.  [None] for a
    directive outside [directive_re]. *)
Fixpoint pattern (format : string) (after_space : bool) : option (list item) :=
  match format with
  | EmptyString => Some []
  | String c rest =>
      if is_space c then
        match pattern rest true with
        | Some re => Some (if after_space then re else Spaces :: re)
        | None => None
        end
      else if Ascii.eqb c "%" then
        match rest with
        | String d rest' =>
            match directive_re d, pattern rest' false with
            | Some g, Some re => Some (g :: re)
            | _, _ => None
            end
        | EmptyString => None
        end
      else
        match pattern rest false with
        | Some re => Some (Literal c :: re)
        | None => None
        end
  end.

(** One alternative against the start of the text: the text matched and
    what follows. *)
Fixpoint match_seq (alt : list cls) (s : string) : option (string * string) :=
  match alt with
  | [] => Some (EmptyString, s)
  | k :: alt' =>
      match s with
      | String a s' =>
          if cls_matches k a then
            match match_seq alt' s' with
            | Some (m, r) => Some (String a m, r)
            | None => None
            end
          else None
      | EmptyString => None
      end
  end.

(** What may follow a match of the greedy [\s+], the longest match first. *)
Fixpoint after_spaces (s : string) : list string :=
  match s with
  | String a s' => if is_space a then after_spaces s' ++ [s'] else []
  | EmptyString => []
  end.

(** The groups matched so far: [found.groupdict()]. *)
Abbreviation groupdict := (list (ascii * string)).

(** Every way the expression matches a prefix of the text, in the order a
    backtracking matcher tries them; [re.match] returns the first. *)
Fixpoint matches (re : list item) (s : string) (found : groupdict)
    : list (groupdict * string) :=
  match re with
  | [] => [(found, s)]
  | Group d alts :: re' =>
      flat_map (fun alt =>
                  match match_seq alt s with
                  | Some (m, r) => matches re' r ((d, m) :: found)
                  | None => []
                  end) alts
  | Spaces :: re' => flat_map (fun r => matches re' r found) (after_spaces s)
  | Literal c :: re' =>
      match s with
      | String a r =>
          if Ascii.eqb (lower_ascii a) (lower_ascii c) then matches re' r found else []
      | EmptyString => []
      end
  end.

(** [int(s)] on the text of a numeric group: white space around the digits
    is dropped. *)
Fixpoint int_digits (s : string) (acc : Z) : Z :=
  match s with
  | String a s' =>
      if cls_matches digit a
      then int_digits s' (10 * acc + Z.of_nat (nat_of_ascii a - 48))
      else int_digits s' acc
  | EmptyString => acc
  end.

Definition int (s : string) : Z := int_digits s 0.

(** [l.index(x)] *)
Fixpoint index (x : string) (l : list string) : option Z :=
  match l with
  | [] => None
  | y :: l' =>
      if String.eqb x y then Some 0
      else match index x l' with Some i => Some (i + 1) | None => None end
  end.

(** The loop of [_strptime] over the groups found; the defaults are
    year 1900, month 1, day 1. *)
Fixpoint fields (found : groupdict) : option (Z * Z * Z) :=
  match found with
  | [] => Some (1900, 1, 1)
  | (k, text) :: found' =>
      match fields found' with
      | Some (y, m, d) =>
          if Ascii.eqb k "Y" then Some (int text, m, d)
          else if Ascii.eqb k "m" then Some (y, int text, d)
          else if Ascii.eqb k "d" then Some (y, m, int text)
          else if Ascii.eqb k "B" then
            match index (lower text) f_month with Some i => Some (y, i, d) | None => None end
          else if Ascii.eqb k "b" then
            match index (lower text) a_month with Some i => Some (y, i, d) | None => None end
          else Some (y, m, d)
      | None => None
      end
  end.

(** [datetime.strptime(data_string, format)] for a string: every failure is
    a [ValueError], here [None]. *)
Definition strptime_str (data_string format : string) : option date :=
  match pattern format false with
  | Some re =>
      match matches re data_string [] with
      | (found, rest) :: _ =>
          if String.eqb rest "" then
            match fields found with
            | Some (y, m, d) =>
                if valid_date y m d then Some {| year := y; month := m; day := d |}
                else None
            | None => None
            end
          else None
      | [] => None
      end
  | None => None
  end.

(** [datetime.strptime]: a [TypeError] for what is not a string. *)
Definition strptime (data_string : value) (format : string) : result date :=
  match data_string with
  | VStr s =>
      match strptime_str s format with
      | Some d => Ok d
      | None => Raise ValueError
      end
  | _ => Raise TypeError
  end.

Definition digit_char (n : Z) : ascii := ascii_of_nat (48 + Z.to_nat n).

(** A number on [width] digits, padded with zeros. *)
Fixpoint zero_padded (width : nat) (n : Z) : string :=
  match width with
  | O => EmptyString
  | S w => zero_padded w (n / 10) +:+ String (digit_char (n mod 10)) EmptyString
  end.

(** [date.strftime(format)] for [%Y], [%m], [%d] and literal text, each
    number padded as the library documents it (four and two digits). *)
Fixpoint strftime (d : date) (format : string) : string :=
  match format with
  | String "%" (String c rest) =>
      (if Ascii.eqb c "Y" then zero_padded 4 (year d)
       else if Ascii.eqb c "m" then zero_padded 2 (month d)
       else if Ascii.eqb c "d" then zero_padded 2 (day d)
       else String "%" (String c EmptyString)) +:+ strftime d rest
  | String c rest => String c (strftime d rest)
  | EmptyString => EmptyString
  end.

End Datetime.

(** ** src/github/milestones.py *)

Module Milestones.
Import Datetime.

(** Lines 55-64. *)
Definition date_formats : list string :=
  ["%Y-%m-%d"; "%Y/%m/%d"; "%d-%m-%Y"; "%d/%m/%Y";
   "%b %d, %Y"; "%B %d, %Y"; "%d %b %Y"; "%d %B %Y"].

(** The loop of lines 66-71: a [ValueError] moves on to the next format,
    any other exception leaves the function. *)
Fixpoint try_formats (due_date_str : value) (formats : list string) : result value :=
  match formats with
  | [] => Raise ValueError
  | date_format :: rest =>
      match strptime due_date_str date_format with
      | Ok date_obj => Ok (VStr (strftime date_obj "%Y-%m-%dT23:59:59Z"))
      | Raise ValueError => try_formats due_date_str rest
      | Raise e => Raise e
      end
  end.

(** [MilestoneManager._format_due_date] *)
Definition _format_due_date (due_date_str : value) : result value :=
  if negb (truthy due_date_str) then Ok VNone
  else try_formats due_date_str date_formats.

Section MilestoneManager.
Variable api : server.
Variable dry_run : bool.

Definition self_update (f : manager -> manager) : M unit :=
  modify (fun w => set_milestone_manager (f (milestone_manager w)) w).

Definition is_422 (e : exn) : bool :=
  match e with
  | RequestException (Some r) => Response_bool r && (status_code r =? 422)%Z
  | _ => false
  end.

(** Lines 94-106: the conversion of [due_on].  When [_format_due_date]
    raises [ValueError] the assignment of line 98 does not take place. *)
Definition convert_due_on (milestone_data_copy : dict) : result dict :=
  if contains milestone_data_copy "due_on"
     && truthy (get milestone_data_copy "due_on" VNone)
  then
    match _format_due_date (get milestone_data_copy "due_on" VNone) with
    | Ok formatted => Ok (<["due_on" := formatted]> milestone_data_copy)
    | Raise ValueError => Ok milestone_data_copy
    | Raise e => Raise e
    end
  else Ok milestone_data_copy.

(** ["due_on" in d and d["due_on"] is None] *)
Definition due_on_is_None (d : dict) : bool :=
  match d !! "due_on" with
  | Some VNone => true
  | _ => false
  end.

(** Lines 127-164: what is done with the first listed milestone of the
    declared title. *)
Definition update_existing (repo : string) (existing_id : value)
    (milestone_data_copy : dict) : M bool :=
  if negb dry_run then
    try_except
      (let payload :=
         if due_on_is_None milestone_data_copy
         then delete "due_on" milestone_data_copy
         else milestone_data_copy in
       do _ <- Client.patch api ("/repos/" +:+ repo +:+ "/milestones/" +:+ py_str existing_id)
                 payload;
       do _ <- self_update inc_success_count;
       do _ <- self_update inc_updated;
       ret true)
      is_RequestException
      (fun _ =>
         do _ <- self_update inc_error_count;
         do _ <- self_update inc_failed;
         ret false)
  else ret true.

(** The loop of lines 119-164.  [Some b]: the function returned [b]. *)
Fixpoint find_existing (repo : string) (milestone_title : value)
    (milestone_data_copy : dict) (existing_milestones : list dict) : M (option bool) :=
  match existing_milestones with
  | [] => ret None
  | existing :: rest =>
      do title <- lift (getitem existing "title");
      if py_eqb title milestone_title then
        do existing_id <- lift (getitem existing "number");
        do b <- update_existing repo existing_id milestone_data_copy;
        ret (Some b)
      else find_existing repo milestone_title milestone_data_copy rest
  end.

(** Lines 189-218. *)
Definition create_new (repo : string) (milestone_data_copy : dict) : M bool :=
  try_except
    (do _ <- Client.post api ("/repos/" +:+ repo +:+ "/milestones") milestone_data_copy;
     do _ <- self_update inc_success_count;
     do _ <- self_update inc_created;
     ret true)
    is_RequestException
    (fun e =>
       if is_422 e then
         do _ <- self_update inc_skipped;
         ret true
       else
         do _ <- self_update inc_error_count;
         do _ <- self_update inc_failed;
         ret false).

(** [MilestoneManager.create_milestone] *)
Definition create_milestone (repo : string) (milestone_data : dict) : M bool :=
  let milestone_title := get milestone_data "title" (VStr "Unknown") in
  try_except
    (do milestone_data_copy <- lift (convert_due_on milestone_data);
     do returned <-
       try_except
         (do existing_milestones <-
            Client.paginate api ("/repos/" +:+ repo +:+ "/milestones") {["state" := VStr "all"]};
          find_existing repo milestone_title milestone_data_copy existing_milestones)
         is_RequestException
         (fun _ => ret None);
     match returned with
     | Some b => ret b
     | None =>
         if dry_run then ret true
         else if due_on_is_None milestone_data_copy then
           do _ <- self_update inc_skipped;
           ret false
         else create_new repo milestone_data_copy
     end)
    is_Exception
    (fun _ =>
       do _ <- self_update inc_error_count;
       do _ <- self_update inc_failed;
       ret false).

(** The loop of lines 249-275. *)
Fixpoint remove_unconfigured (repo : string) (configured_milestones : list value)
    (all_milestones : list dict) (success : bool) : M bool :=
  match all_milestones with
  | [] => ret success
  | milestone :: rest =>
      let milestone_title := get milestone "title" (VStr "") in
      let milestone_number := get milestone "number" VNone in
      if negb (py_in milestone_title configured_milestones) then
        if dry_run then remove_unconfigured repo configured_milestones rest success
        else
          do success' <-
            try_except
              (do _ <- Client.delete api
                         ("/repos/" +:+ repo +:+ "/milestones/" +:+ py_str milestone_number);
               do _ <- self_update inc_removed;
               ret success)
              is_RequestException
              (fun _ =>
                 do _ <- self_update inc_error_count;
                 ret false);
          remove_unconfigured repo configured_milestones rest success'
      else remove_unconfigured repo configured_milestones rest success
  end.

(** [MilestoneManager.sync_repository_milestones] *)
Definition sync_repository_milestones (repo : string) (configured_milestones : list value)
    : M bool :=
  try_except
    (do all_milestones <-
       Client.paginate api ("/repos/" +:+ repo +:+ "/milestones") {["state" := VStr "all"]};
     remove_unconfigured repo configured_milestones all_milestones true)
    is_Exception
    (fun _ =>
       do _ <- self_update inc_error_count;
       ret false).

End MilestoneManager.
End Milestones.

(** ** src/github/secrets.py *)

Module Secrets.
Section SecretManager.
Variable api : server.

(** [SecretManager.create_or_update_secret].  The manager takes no
    [dry_run] argument. *)
Definition create_or_update_secret (repo : string) (secret : dict) : M bool :=
  try_except
    (do secret_name <- lift (getitem secret "name");
     do secret_value <- lift (getitem secret "value");
     do response <- Client.get api ("/repos/" +:+ repo +:+ "/actions/secrets/public-key");
     do public_key <- lift (getitem response "key");
     do key_id <- lift (getitem response "key_id");
     do encrypted_value <-
       (fun w => (match seal api (calls w) public_key secret_value with
                  | Some sealed => Ok sealed
                  | None => Raise TypeError
                  end, w));
     do _ <- Client.put api ("/repos/" +:+ repo +:+ "/actions/secrets/" +:+ py_str secret_name)
               (<["encrypted_value" := VStr encrypted_value]> {["key_id" := key_id]});
     ret true)
    is_Exception
    (fun _ => ret false).

End SecretManager.
End Secrets.

(** ** src/utils/config.py *)

Module Config.

(** The parsed YAML document: each top-level key may be absent. *)
Record config : Type := {
  repositories : option (list string);
  milestones : option (list dict);
  labels : option (list dict);
  secrets : option (list dict);
}.

(** ["milestones" in config] and the like. *)
Definition declared {A : Type} (section : option A) : bool :=
  match section with
  | Some _ => true
  | None => false
  end.

(** Lines 58-62. *)
Fixpoint validate_milestones (l : list dict) : result unit :=
  match l with
  | [] => Ok tt
  | milestone :: rest =>
      if negb (contains milestone "title") then Raise ValueError
      else validate_milestones rest
  end.

(** Lines 66-72. *)
Fixpoint validate_labels (l : list dict) : result unit :=
  match l with
  | [] => Ok tt
  | label :: rest =>
      if negb (contains label "name") then Raise ValueError
      else if negb (contains label "color") then Raise ValueError
      else validate_labels rest
  end.

(** [validate_config]: milestones, then labels; nothing else is looked at. *)
Definition validate_config (config : config) : result unit :=
  match
    match milestones config with
    | Some l => validate_milestones l
    | None => Ok tt
    end
  with
  | Ok _ =>
      match labels config with
      | Some l => validate_labels l
      | None => Ok tt
      end
  | Raise e => Raise e
  end.

(** [load_config], from the document [yaml.safe_load] returned: any
    exception becomes [sys.exit(1)]. *)
Definition load_config (parsed : config) : result config :=
  match validate_config parsed with
  | Ok _ => Ok parsed
  | Raise _ => Raise (SystemExit 1)
  end.

End Config.

(** ** src/configurator.py *)

Module Configurator.
Import Config.

(** The fields [GitHubConfigurator.__init__] sets from its arguments. *)
Record GitHubConfigurator : Type := {
  organization : option string;
  dry_run : bool;
  sync_labels : bool;
  sync_milestones : bool;
}.

(** [GitHubConfigurator(token, organization, dry_run, sync_labels,
    sync_milestones, sync_all)] *)
Definition init (organization : option string)
    (dry_run sync_labels sync_milestones sync_all : bool) : GitHubConfigurator :=
  {| organization := organization;
     dry_run := dry_run;
     sync_labels := sync_labels || sync_all;
     sync_milestones := sync_milestones || sync_all |}.

(** A [for] loop that carries local variables. *)
Fixpoint for_each {A S : Type} (l : list A) (s : S) (body : A -> S -> M S) : M S :=
  match l with
  | [] => ret s
  | x :: rest => do s' <- body x s; for_each rest s' body
  end.

(** ["/" in repo] *)
Fixpoint has_slash (repo : string) : bool :=
  match repo with
  | String a rest => Ascii.eqb a "/" || has_slash rest
  | EmptyString => false
  end.

(** [self.processed_repos.add(repo)] *)
Definition add_processed_repo (repo : string) (w : world) : world :=
  {| calls := calls w; label_manager := label_manager w;
     milestone_manager := milestone_manager w;
     total_success_count := total_success_count w;
     total_error_count := total_error_count w;
     processed_repos := {[repo]} ∪ processed_repos w |}.

(** Lines 176-181 of [apply_config]. *)
Definition update_totals (w : world) : world :=
  {| calls := calls w; label_manager := label_manager w;
     milestone_manager := milestone_manager w;
     total_success_count :=
       success_count (label_manager w) + success_count (milestone_manager w);
     total_error_count :=
       error_count (label_manager w) + error_count (milestone_manager w);
     processed_repos := processed_repos w |}.

Section Run.
Variable api : server.
Variable self : GitHubConfigurator.

(** [GitHubConfigurator.get_repositories] *)
Definition get_repositories (config : config) : M (list string) :=
  match repositories config with
  | Some ((_ :: _) as repos) =>
      match organization self with
      | Some ((String _ _) as org) =>
          ret (map (fun repo => if negb (has_slash repo) then org +:+ "/" +:+ repo else repo)
                   repos)
      | _ => ret repos
      end
  | _ => Client.get_repositories api (organization self)
  end.

(** Lines 110-134 of [apply_config_to_repository]: every declared
    milestone, label and secret is applied; the value is [success] with the
    two lists of configured keys. *)
Definition apply_items (repo : string) (config : config)
    : M (bool * list value * list value) :=
  do applied_milestones <-
    match milestones config with
    | Some l =>
        for_each l (true, [])
          (fun milestone '(success, configured_milestone_titles) =>
             do ok <- Milestones.create_milestone api (dry_run self) repo milestone;
             ret (if negb ok then false else success,
                  (configured_milestone_titles ++ [get milestone "title" (VStr "")])%list))
    | None => ret (true, [])
    end;
  let '(success, configured_milestone_titles) := applied_milestones in
  do applied_labels <-
    match labels config with
    | Some l =>
        for_each l (success, [])
          (fun label '(success, configured_label_names) =>
             do ok <- Labels.create_label api (dry_run self) repo label;
             ret (if negb ok then false else success,
                  (configured_label_names ++ [get label "name" (VStr "")])%list))
    | None => ret (success, [])
    end;
  let '(success, configured_label_names) := applied_labels in
  do success <-
    match secrets config with
    | Some l =>
        for_each l success
          (fun secret success =>
             do ok <- Secrets.create_or_update_secret api repo secret;
             ret (if negb ok then false else success))
    | None => ret success
    end;
  ret (success, configured_milestone_titles, configured_label_names).

(** Lines 136-147: the sync operations. *)
Definition sync_items (repo : string) (config : config) (success : bool)
    (configured_milestone_titles configured_label_names : list value) : M bool :=
  do success <-
    (if sync_milestones self && declared (milestones config) then
       do ok <- Milestones.sync_repository_milestones api (dry_run self) repo
                  configured_milestone_titles;
       ret (if negb ok then false else success)
     else ret success);
  do success <-
    (if sync_labels self && declared (labels config) then
       do ok <- Labels.sync_repository_labels api (dry_run self) repo configured_label_names;
       ret (if negb ok then false else success)
     else ret success);
  ret success.

(** [GitHubConfigurator.apply_config_to_repository] *)
Definition apply_config_to_repository (repo : string) (config : config) : M bool :=
  do applied <- apply_items repo config;
  let '(success, configured_milestone_titles, configured_label_names) := applied in
  sync_items repo config success configured_milestone_titles configured_label_names.

(** [GitHubConfigurator.apply_config] *)
Definition apply_config (config : config) : M Z :=
  do repositories <- get_repositories config;
  do success <-
    for_each repositories true
      (fun repo success =>
         do _ <- modify (add_processed_repo repo);
         do ok <- apply_config_to_repository repo config;
         ret (if negb ok then false else success));
  do _ <- modify update_totals;
  ret (if success then 0 else 1).

(** [main] of github_config.py from the parsed document on: the
    configuration is loaded and validated, then applied.  Parsing of the
    command line, logging and the rate-limit probe of the client are left
    out. *)
Definition main (parsed : config) : M Z :=
  do config <- lift (load_config parsed);
  apply_config config.

End Run.


End Configurator.

(** ** src/github/api.py: the page loops *)

Module Pages.

(** One [requests.get] of the client: the URL behind [API_URL] and the
    query parameters. *)
Record http_get : Type := { url : string; params : dict }.

(** The remote side at this level: the decoded JSON array of each reply, or
    a failure, given the requests made before. *)
Definition http_server : Type := list http_get -> http_get -> reply (list dict).

Section WithServer.
Variable srv : http_server.

(** The loop of [GitHubApiClient.paginate], lines 287-300.  The dictionary
    [params] is the one object that every turn updates.  [while True] has no
    bound of its own: [None] when [fuel] turns were not enough. *)
Fixpoint paginate_loop (fuel : nat) (endpoint : string) (params : dict) (page : Z)
    (results : list dict) (h : list http_get)
    : option (result (list dict)) * list http_get :=
  match fuel with
  | O => (None, h)
  | S fuel' =>
      let params := <["per_page" := VInt 100]> (<["page" := VInt page]> params) in
      let request := {| url := endpoint; params := params |} in
      match srv h request with
      | Failure response => (Some (Raise (RequestException response)), (h ++ [request])%list)
      | Reply batch =>
          match batch with
          | [] => (Some (Ok results), (h ++ [request])%list)
          | _ :: _ =>
              paginate_loop fuel' endpoint params (page + 1) (results ++ batch)%list
                (h ++ [request])%list
          end
      end
  end.

(** [GitHubApiClient.paginate] *)
Definition paginate (fuel : nat) (endpoint : string) (params : option dict)
    (h : list http_get) : option (result (list dict)) * list http_get :=
  let params := match params with Some p => p | None => ∅ end in
  paginate_loop fuel endpoint params 1 [] h.

(** The loop of lines 137-142 of [get_repositories] over one batch. *)
Fixpoint full_names (batch : list dict) (repos : list value) : result (list value) :=
  match batch with
  | [] => Ok repos
  | repo :: rest =>
      match getitem repo "full_name" with
      | Ok repo_full_name => full_names rest (repos ++ [repo_full_name])%list
      | Raise e => Raise e
      end
  end.

(** The loop of [GitHubApiClient.get_repositories], lines 113-144, inside
    its [try]. *)
Fixpoint list_loop (fuel : nat) (url : string) (page : Z) (repos : list value)
    (h : list http_get) : option (result (list value)) * list http_get :=
  match fuel with
  | O => (None, h)
  | S fuel' =>
      let request :=
        {| url := url +:+ "?per_page=100&page=" +:+ py_str (VInt page); params := ∅ |} in
      match srv h request with
      | Failure response => (Some (Raise (RequestException response)), (h ++ [request])%list)
      | Reply batch =>
          match batch with
          | [] => (Some (Ok repos), (h ++ [request])%list)
          | _ :: _ =>
              match full_names batch repos with
              | Ok repos => list_loop fuel' url (page + 1) repos (h ++ [request])%list
              | Raise e => (Some (Raise e), (h ++ [request])%list)
              end
          end
      end
  end.

(** [GitHubApiClient.get_repositories]: a [RequestException] ends the
    process with [sys.exit(1)], any other exception goes on to the
    caller. *)
Definition get_repositories (fuel : nat) (organization : option string)
    (h : list http_get) : option (result (list value)) * list http_get :=
  let url :=
    match organization with
    | Some ((String _ _) as org) => "/orgs/" +:+ org +:+ "/repos"
    | _ => "/user/repos"
    end in
  match list_loop fuel url 1 [] h with
  | (Some (Raise (RequestException _)), h') => (Some (Raise (SystemExit 1)), h')
  | r => r
  end.

End WithServer.

(** The request of the page [page] of a listing. *)
Definition page_request (endpoint : string) (params : dict) (page : Z) : http_get :=
  {| url := endpoint;
     params := <["per_page" := VInt 100]> (<["page" := VInt page]> params) |}.

(** The requests of the [n] pages behind the page [k]. *)
Definition page_requests (endpoint : string) (params : dict) (k n : nat) : list http_get :=
  map (fun i => page_request endpoint params (Z.of_nat (S i))) (seq k n).

(** The request of the page [page] of the repositories. *)
Definition list_request (url : string) (page : Z) : http_get :=
  {| url := url +:+ "?per_page=100&page=" +:+ py_str (VInt page); params := ∅ |}.

Definition list_requests (url : string) (k n : nat) : list http_get :=
  map (fun i => list_request url (Z.of_nat (S i))) (seq k n).

(** What a loop makes of its last reply, an empty page or a failure. *)
Definition outcome {A B} (last : reply A) (results : B) : result B :=
  match last with
  | Reply _ => Ok results
  | Failure response => Raise (RequestException response)
  end.

Definition ends_a_listing {A} (last : reply (list A)) : Prop :=
  forall batch, last = Reply batch -> batch = [].

(** A server of a listing of [batches]: the page [i] holds the batch [i],
    the pages behind the last one are empty. *)
Definition serving (batches : list (list dict)) : http_server :=
  fun _ request =>
    match params request !! "page" with
    | Some (VInt page) =>
        Reply (match batches !! Z.to_nat (page - 1) with Some b => b | None => [] end)
    | _ => Failure None
    end.

(** The repositories of an organization, by the URL of the page. *)
Definition serving_urls (pages : list (string * list dict)) : http_server :=
  fun _ request =>
    match List.find (fun p => String.eqb (fst p) (url request)) pages with
    | Some p => Reply (snd p)
    | None => Reply []
    end.

End Pages.

(** ** Concrete servers and configurations *)

Module Demo.
Import Config Configurator.

Definition not_found {A : Type} : reply A := Failure (Some {| status_code := 404 |}).

Definition unprocessable {A : Type} : reply A := Failure (Some {| status_code := 422 |}).

(** A server whose replies do not depend on the history. *)
Definition answering (gets : string -> reply dict) (lists : string -> reply (list dict))
    (writes : request -> reply unit) : server :=
  {| on_get := fun _ endpoint => gets endpoint;
     on_paginate := fun _ endpoint _ => lists endpoint;
     on_list_repos := fun _ _ => Reply [];
     on_write := fun _ r => writes r;
     seal := fun _ _ _ => Some "c2VhbGVk" |}.

(** A repository without labels and milestones that accepts every write. *)
Definition empty_repository : server :=
  answering (fun _ => not_found) (fun _ => Reply []) (fun _ => Reply tt).

Definition bug : dict := {["name" := VStr "bug"; "color" := VStr "d73a4a"]}.

Definition remote_bug : dict :=
  {["name" := VStr "bug"; "color" := VStr "d73a4a"; "description" := VStr ""]}.

Definition remote_wontfix : dict :=
  {["name" := VStr "wontfix"; "color" := VStr "ffffff"; "description" := VStr ""]}.

(** A repository with the labels [bug] and [wontfix]. *)
Definition two_labels : server :=
  answering
    (fun endpoint =>
       if String.eqb endpoint "/repos/octo/demo/labels/bug" then Reply remote_bug
       else if String.eqb endpoint "/repos/octo/demo/labels/wontfix" then Reply remote_wontfix
       else not_found)
    (fun endpoint =>
       if String.eqb endpoint "/repos/octo/demo/labels" then Reply [remote_bug; remote_wontfix]
       else Reply [])
    (fun _ => Reply tt).

(** The same repository when the configuration writes the colour of [bug]
    in capitals. *)
Definition bug_in_capitals : dict := {["name" := VStr "bug"; "color" := VStr "D73A4A"]}.

(** A declared colour that is not the remote one. *)
Definition red_bug : dict := {["name" := VStr "bug"; "color" := VStr "#ff0000"]}.

(** A repository whose label [Bug] differs from the declared [bug] by its
    capital only: the GET by the declared name finds nothing and the POST is
    refused as a duplicate. *)
Definition remote_Bug : dict :=
  {["name" := VStr "Bug"; "color" := VStr "d73a4a"; "description" := VStr ""]}.

Definition case_variant : server :=
  answering
    (fun _ => not_found)
    (fun endpoint =>
       if String.eqb endpoint "/repos/octo/demo/labels" then Reply [remote_Bug] else Reply [])
    (fun r => match r with POST _ _ => unprocessable | _ => Reply tt end).

(** A milestone, and the repository that already has it as declared. *)
Definition v1 : dict :=
  {["title" := VStr "v1"; "description" := VStr "First release";
    "due_on" := VStr "2025/05/04"]}.

Definition remote_v1 : dict :=
  {["title" := VStr "v1"; "description" := VStr "First release";
    "due_on" := VStr "2025-05-04T23:59:59Z"; "number" := VInt 1;
    "state" := VStr "open"]}.

Definition converged : server :=
  answering
    (fun endpoint =>
       if String.eqb endpoint "/repos/octo/demo/labels/bug" then Reply remote_bug
       else not_found)
    (fun endpoint =>
       if String.eqb endpoint "/repos/octo/demo/milestones" then Reply [remote_v1]
       else if String.eqb endpoint "/repos/octo/demo/labels" then Reply [remote_bug]
       else Reply [])
    (fun _ => Reply tt).

(** A milestone whose due date no format reads, and a repository in which
    the milestone appears once a first request has been made. *)
Definition someday : dict := {["title" := VStr "v2"; "due_on" := VStr "next spring"]}.

Definition remote_v2 : dict :=
  {["title" := VStr "v2"; "number" := VInt 2; "state" := VStr "open"]}.

Definition appearing : server :=
  {| on_get := fun _ _ => not_found;
     on_paginate := fun h _ _ => match h with [] => Reply [] | _ => Reply [remote_v2] end;
     on_list_repos := fun _ _ => Reply [];
     on_write := fun _ _ => Reply tt;
     seal := fun _ _ _ => Some "c2VhbGVk" |}.

Definition after_one_request : world :=
  {| calls := [GET "/rate_limit"]; label_manager := new_manager;
     milestone_manager := new_manager; total_success_count := 0;
     total_error_count := 0; processed_repos := ∅ |}.

(** A secret, and a repository that hands out its public key. *)
Definition token : dict := {["name" := VStr "TOKEN"; "value" := VStr "s3cret"]}.

Definition public_key : dict :=
  {["key" := VStr "2Sg8iYjAxxmI2LvUXpJjkYrMxURPc8r+dB7TJyvvcCU="; "key_id" := VStr "568250167242549743"]}.

Definition with_key : server :=
  answering
    (fun endpoint =>
       if String.eqb endpoint "/repos/octo/demo/actions/secrets/public-key"
       then Reply public_key else not_found)
    (fun _ => Reply [])
    (fun _ => Reply tt).



(** Configurators: dry-run with both syncs, and the two without dry-run. *)
Definition dry_run_sync_all : GitHubConfigurator := init None true false false true.

Definition sync_labels_only : GitHubConfigurator := init None false true false false.

Definition dry_run_only : GitHubConfigurator := init None true false false false.

Definition only_labels (l : list dict) : config :=
  {| repositories := Some ["octo/demo"]; milestones := None; labels := Some l;
     secrets := None |}.

Definition only_milestones (l : list dict) : config :=
  {| repositories := Some ["octo/demo"]; milestones := Some l; labels := None;
     secrets := None |}.

Definition only_secrets (l : list dict) : config :=
  {| repositories := Some ["octo/demo"]; milestones := None; labels := None;
     secrets := Some l |}.

End Demo.

(** ** More servers and configurations *)

Module Cases.
Import Config Configurator Demo.

(** No connection: every request fails without a response. *)
Definition unreachable : server :=
  {| on_get := fun _ _ => Failure None;
     on_paginate := fun _ _ _ => Failure None;
     on_list_repos := fun _ _ => Failure None;
     on_write := fun _ _ => Failure None;
     seal := fun _ _ _ => None |}.

(** A repository that can be read and refuses every write. *)
Definition read_only : server :=
  answering
    (fun endpoint =>
       if String.eqb endpoint "/repos/octo/demo/labels/bug" then Reply remote_bug
       else not_found)
    (fun endpoint =>
       if String.eqb endpoint "/repos/octo/demo/labels" then Reply [remote_bug; remote_wontfix]
       else if String.eqb endpoint "/repos/octo/demo/milestones" then Reply [remote_v2]
       else Reply [])
    (fun _ => Failure (Some {| status_code := 403 |})).

(** A repository whose listing of milestones fails, and one whose listing
    holds an entry without a title. *)
Definition no_listing : server :=
  answering (fun _ => not_found) (fun _ => Failure (Some {| status_code := 500 |}))
    (fun _ => Reply tt).

Definition untitled : dict := {["number" := VInt 7]}.

Definition with_untitled : server :=
  answering (fun _ => not_found) (fun _ => Reply [untitled; remote_v1]) (fun _ => Reply tt).

(** A milestone whose due date is written as null. *)
Definition undated : dict := {["title" := VStr "v2"; "due_on" := VNone]}.

(** A configurator with an organization, and a list of repositories with
    and without an owner. *)
Definition for_octo : GitHubConfigurator := init (Some "octo") false false false false.

Definition mixed_names : config :=
  {| repositories := Some ["demo"; "other/tools"]; milestones := None; labels := None;
     secrets := None |}.

End Cases.

(** * The vocabulary of the properties *)

Section RunVocabulary.
Import Config Configurator.

(** ** Properties of a computation *)

(** Three properties, each closed under the operations of the monad: the
    requests the computation makes all satisfy [P]; it keeps an invariant of
    the state; it hands back a value rather than an exception. *)

Definition emits {A} (P : request -> Prop) (m : M A) : Prop :=
  forall w, exists new, calls (snd (m w)) = (calls w ++ new)%list /\ Forall P new.

Definition preserves {A} (I : world -> Prop) (m : M A) : Prop :=
  forall w, I w -> I (snd (m w)).

Definition returns {A} (m : M A) : Prop :=
  forall w, exists a, fst (m w) = Ok a.

(** No [SystemExit] comes out of the computation. *)
Definition no_exit {A} (m : M A) : Prop :=
  forall w e, fst (m w) = Raise e -> is_Exception e = true.

(** An invariant that does not read the request history. *)
Definition ignores_calls (I : world -> Prop) : Prop :=
  forall c w, I w -> I (set_calls c w).

Definition not_write (r : request) : Prop := is_write r = false.
Definition not_delete (r : request) : Prop := is_delete r = false.

(** The counters of a manager that report a change of the remote state. *)
Definition change_counters (m : manager) : nat * nat * nat :=
  (created (stats m), updated (stats m), removed (stats m)).

Definition frozen (l m : nat * nat * nat) (w : world) : Prop :=
  change_counters (label_manager w) = l /\ change_counters (milestone_manager w) = m.

(** ** Declared keys and the requests of a sync pass *)

(** The keys the configuration declares, as [apply_config_to_repository]
    collects them. *)
Definition declared_milestone_titles (config : config) : list value :=
  match milestones config with
  | Some l => map (fun milestone => get milestone "title" (VStr "")) l
  | None => []
  end.

Definition declared_label_names (config : config) : list value :=
  match labels config with
  | Some l => map (fun label => get label "name" (VStr "")) l
  | None => []
  end.


(** The listed items whose key is not among the configured ones. *)
Definition undeclared_labels (configured : list value) (all_labels : list dict) : list dict :=
  List.filter (fun label => negb (py_in (get label "name" (VStr "")) configured)) all_labels.

Definition undeclared_milestones (configured : list value) (all_milestones : list dict)
    : list dict :=
  List.filter (fun milestone => negb (py_in (get milestone "title" (VStr "")) configured))
    all_milestones.

Definition delete_label (repo : string) (label : dict) : request :=
  DELETE ("/repos/" +:+ repo +:+ "/labels/" +:+ py_str (get label "name" (VStr ""))).

Definition delete_milestone (repo : string) (milestone : dict) : request :=
  DELETE ("/repos/" +:+ repo +:+ "/milestones/" +:+ py_str (get milestone "number" VNone)).

(** The requests of [sync_repository_labels] without dry-run, from the
    history [h] on: the listing, then one DELETE for each listed label that
    is not configured, in the order of the listing. *)
Definition label_sync_requests (api : server) (repo : string) (configured : list value)
    (h : list request) : list request :=
  PAGINATE ("/repos/" +:+ repo +:+ "/labels") ∅
  :: match on_paginate api h ("/repos/" +:+ repo +:+ "/labels") ∅ with
     | Reply all_labels => map (delete_label repo) (undeclared_labels configured all_labels)
     | Failure _ => []
     end.

Definition milestone_sync_requests (api : server) (repo : string) (configured : list value)
    (h : list request) : list request :=
  PAGINATE ("/repos/" +:+ repo +:+ "/milestones") {["state" := VStr "all"]}
  :: match on_paginate api h ("/repos/" +:+ repo +:+ "/milestones")
             {["state" := VStr "all"]} with
     | Reply all_milestones =>
         map (delete_milestone repo) (undeclared_milestones configured all_milestones)
     | Failure _ => []
     end.

(** The requests of the sync operations of one pass without dry-run. *)
Definition sync_requests (api : server) (self : GitHubConfigurator) (repo : string) (config : config)
    (h : list request) : list request :=
  let for_milestones :=
    if sync_milestones self && declared (milestones config)
    then milestone_sync_requests api repo (declared_milestone_titles config) h
    else [] in
  let for_labels :=
    if sync_labels self && declared (labels config)
    then label_sync_requests api repo (declared_label_names config) (h ++ for_milestones)%list
    else [] in
  (for_milestones ++ for_labels)%list.

(** ** Milestones found, or not, by title *)

(** The listed milestone has a title, and it is not the declared one. *)
Definition other_title (milestone_title : value) (existing : dict) : Prop :=
  exists title, existing !! "title" = Some title /\ py_eqb title milestone_title = false.

(** The listed milestone carries the declared title and a number. *)
Definition same_title (milestone_title number : value) (existing : dict) : Prop :=
  (exists title, existing !! "title" = Some title /\ py_eqb title milestone_title = true)
  /\ existing !! "number" = Some number.

(** The body of the PATCH: lines 134-141 drop a [due_on] that is [None]. *)
Definition update_payload (milestone_data_copy : dict) : dict :=
  if Milestones.due_on_is_None milestone_data_copy
  then delete "due_on" milestone_data_copy
  else milestone_data_copy.

(** ** Validation *)


End RunVocabulary.

(** ** The shape of a date text *)

Section TextVocabulary.
Import Datetime Milestones.

(** Every character. *)
Definition all_ascii : list ascii := map ascii_of_nat (seq 0 256).

Definition forall_ascii (P : ascii -> bool) : bool := forallb P all_ascii.

Definition is_digit (a : ascii) : bool := cls_matches digit a.
















Definition full_names : list string := sorted_by_len (tl f_month).

End TextVocabulary.

(** ** The counters of a manager *)

Section CounterVocabulary.
Import Config Configurator.


(** What the managers count as gone wrong. *)
Definition errors (w : world) : nat :=
  (error_count (label_manager w) + failed (stats (label_manager w))
   + error_count (milestone_manager w) + failed (stats (milestone_manager w)))%nat.

(** [success_count] counts the creations and the updates; every failed item
    is an error. *)
Definition consistent (m : manager) : Prop :=
  success_count m = (created (stats m) + updated (stats m))%nat
  /\ (failed (stats m) <= error_count m)%nat.

(** What applying one item does to the counters of its manager, with the
    value the manager returns. *)
Definition item_effect (dry_run : bool) (m : manager) (ok : bool) (m' : manager) : Prop :=
  (dry_run = true /\ ok = true /\ m' = m)
  \/ m' = inc_skipped m
  \/ (dry_run = false /\ ok = true /\ m' = inc_updated (inc_success_count m))
  \/ (dry_run = false /\ ok = true /\ m' = inc_created (inc_success_count m))
  \/ (ok = false /\ m' = inc_failed (inc_error_count m)).

(** A manager after a sync pass with that many removals and failures. *)
Definition after_sync (removals failures : nat) (m : manager) : manager :=
  {| stats := {| created := created (stats m); updated := updated (stats m);
                 removed := removals + removed (stats m); failed := failed (stats m);
                 skipped := skipped (stats m) |};
     success_count := success_count m;
     error_count := failures + error_count m |}.


(** A computation that returns and never lowers [errors]; when its value is
    good, [errors] is as it was and [before] holds. *)
Definition scores {A} (m : M A) (good : A -> Prop) (before : Prop) : Prop :=
  forall w, exists a w',
    m w = (Ok a, w')
    /\ (errors w <= errors w')%nat
    /\ (good a -> before /\ errors w' = errors w).

(** Both managers are consistent, and so are the totals of the summary. *)
Definition consistent_managers (w : world) : Prop :=
  consistent (label_manager w) /\ consistent (milestone_manager w).


(** The only writes are those of the secret manager. *)
Definition no_write_but_put (r : request) : Prop :=
  match r with
  | POST _ _ | PATCH _ _ | DELETE _ => False
  | _ => True
  end.

End CounterVocabulary.

Section EndVocabulary.
Import Datetime Milestones.






End EndVocabulary.

(** * Reasoning about runs *)

Section Combinators.
Context {A B : Type}.
Variable P : request -> Prop.
Variable I : world -> Prop.

Lemma emits_ret (a : A) : emits P (ret a).
Proof. intros w. exists []. simpl. rewrite app_nil_r. auto. Qed.

Lemma emits_raise (e : exn) : emits P (@raise A e).
Proof. intros w. exists []. simpl. rewrite app_nil_r. auto. Qed.

Lemma emits_lift (r : result A) : emits P (lift r).
Proof. intros w. exists []. simpl. rewrite app_nil_r. auto. Qed.

Lemma emits_modify (f : world -> world) :
  (forall w, calls (f w) = calls w) -> emits P (modify f).
Proof. intros Hf w. exists []. simpl. rewrite Hf, app_nil_r. auto. Qed.

Lemma emits_bind (m : M A) (k : A -> M B) :
  emits P m -> (forall a, emits P (k a)) -> emits P (bind m k).
Proof.
  intros Hm Hk w. unfold bind.
  destruct (Hm w) as (n1 & E1 & F1).
  destruct (m w) as [[a|e] w1]; simpl in *.
  - destruct (Hk a w1) as (n2 & E2 & F2).
    exists (n1 ++ n2)%list. rewrite E2, E1, app_assoc. split; [reflexivity|].
    apply Forall_app; auto.
  - exists n1. auto.
Qed.

Lemma emits_try_except (body : M A) (class : exn -> bool) (handler : exn -> M A) :
  emits P body -> (forall e, emits P (handler e)) -> emits P (try_except body class handler).
Proof.
  intros Hm Hk w. unfold try_except.
  destruct (Hm w) as (n1 & E1 & F1).
  destruct (body w) as [[a|e] w1]; simpl in *.
  - exists n1. auto.
  - destruct (class e); simpl.
    + destruct (Hk e w1) as (n2 & E2 & F2).
      exists (n1 ++ n2)%list. rewrite E2, E1, app_assoc. split; [reflexivity|].
      apply Forall_app; auto.
    + exists n1. auto.
Qed.

Lemma bind_run (m : M A) (k : A -> M B) (w : world) (a : A) (w1 : world) :
  m w = (Ok a, w1) -> bind m k w = k a w1.
Proof. intros H. unfold bind. rewrite H. reflexivity. Qed.


Lemma emits_weaken (Q : request -> Prop) (m : M A) :
  (forall r, Q r -> P r) -> emits Q m -> emits P m.
Proof.
  intros HQ Hm w. destruct (Hm w) as (n & E & F). exists n. split; [exact E|].
  eapply Forall_impl; [exact F | exact HQ].
Qed.

Lemma preserves_ret (a : A) : preserves I (ret a).
Proof. intros w H. exact H. Qed.

Lemma preserves_raise (e : exn) : preserves I (@raise A e).
Proof. intros w H. exact H. Qed.

Lemma preserves_lift (r : result A) : preserves I (lift r).
Proof. intros w H. exact H. Qed.

Lemma preserves_modify (f : world -> world) :
  (forall w, I w -> I (f w)) -> preserves I (modify f).
Proof. intros Hf w H. simpl. auto. Qed.

Lemma preserves_bind (m : M A) (k : A -> M B) :
  preserves I m -> (forall a, preserves I (k a)) -> preserves I (bind m k).
Proof.
  intros Hm Hk w H. unfold bind. specialize (Hm w H).
  destruct (m w) as [[a|e] w1]; simpl in *; [apply Hk|]; assumption.
Qed.

Lemma preserves_try_except (body : M A) (class : exn -> bool) (handler : exn -> M A) :
  preserves I body -> (forall e, preserves I (handler e)) ->
  preserves I (try_except body class handler).
Proof.
  intros Hm Hk w H. unfold try_except. specialize (Hm w H).
  destruct (body w) as [[a|e] w1]; simpl in *; [assumption|].
  destruct (class e); simpl; [apply Hk|]; assumption.
Qed.

Lemma returns_ret (a : A) : returns (ret a).
Proof. intros w. exists a. reflexivity. Qed.

Lemma returns_bind (m : M A) (k : A -> M B) :
  returns m -> (forall a, returns (k a)) -> returns (bind m k).
Proof.
  intros Hm Hk w. unfold bind. destruct (Hm w) as (a & Ha).
  destruct (m w) as [[a'|e] w1]; simpl in *; [apply Hk | discriminate].
Qed.

Lemma no_exit_ret (a : A) : no_exit (ret a).
Proof. intros w e H. discriminate. Qed.

Lemma no_exit_lift (r : result A) :
  (forall e, r = Raise e -> is_Exception e = true) -> no_exit (lift r).
Proof. intros Hr w e H. apply Hr. exact H. Qed.

Lemma no_exit_bind (m : M A) (k : A -> M B) :
  no_exit m -> (forall a, no_exit (k a)) -> no_exit (bind m k).
Proof.
  intros Hm Hk w e. unfold bind. specialize (Hm w).
  destruct (m w) as [[a|e'] w1]; simpl in *; [apply Hk|].
  intros [= <-]. apply Hm. reflexivity.
Qed.

Lemma no_exit_try_except (body : M A) (class : exn -> bool) (handler : exn -> M A) :
  no_exit body -> (forall e, no_exit (handler e)) -> no_exit (try_except body class handler).
Proof.
  intros Hm Hk w e. unfold try_except. specialize (Hm w).
  destruct (body w) as [[a|e'] w1]; simpl in *; [discriminate|].
  destruct (class e'); simpl; [apply Hk | apply Hm].
Qed.

(** [try: ... except Exception: ...] hands back a value when its body lets
    no [SystemExit] out and its handler returns. *)
Lemma returns_try_except_Exception (body : M A) (handler : exn -> M A) :
  no_exit body -> (forall e, returns (handler e)) ->
  returns (try_except body is_Exception handler).
Proof.
  intros Hm Hk w. unfold try_except. specialize (Hm w).
  destruct (body w) as [[a|e] w1]; simpl in *.
  - exists a. reflexivity.
  - rewrite (Hm e eq_refl). apply Hk.
Qed.

Lemma returns_modify (f : world -> world) : returns (modify f).
Proof. intros w. exists tt. reflexivity. Qed.

Lemma no_exit_modify (f : world -> world) : no_exit (modify f).
Proof. intros w e H. discriminate. Qed.

Lemma returns_no_exit (m : M A) : returns m -> no_exit m.
Proof. intros Hm w e H. destruct (Hm w) as (a & Ha). congruence. Qed.

End Combinators.

(** The calls of the API client. *)
Section ClientFacts.
Variable api : server.
Variable P : request -> Prop.
Variable I : world -> Prop.

Lemma emits_get endpoint : P (GET endpoint) -> emits P (Client.get api endpoint).
Proof. intros H w. exists [GET endpoint]. simpl. auto. Qed.

Lemma emits_paginate endpoint params :
  P (PAGINATE endpoint params) -> emits P (Client.paginate api endpoint params).
Proof. intros H w. exists [PAGINATE endpoint params]. simpl. auto. Qed.

Lemma emits_write r : P r -> emits P (Client.write api r).
Proof. intros H w. exists [r]. simpl. auto. Qed.

Lemma emits_get_repositories org :
  P (LIST_REPOS org) -> emits P (Client.get_repositories api org).
Proof. intros H w. exists [LIST_REPOS org]. simpl. auto. Qed.

Lemma preserves_get endpoint : ignores_calls I -> preserves I (Client.get api endpoint).
Proof. intros HI w H. apply HI, H. Qed.

Lemma preserves_paginate endpoint params :
  ignores_calls I -> preserves I (Client.paginate api endpoint params).
Proof. intros HI w H. apply HI, H. Qed.

Lemma preserves_write r : ignores_calls I -> preserves I (Client.write api r).
Proof. intros HI w H. apply HI, H. Qed.

Lemma preserves_get_repositories org :
  ignores_calls I -> preserves I (Client.get_repositories api org).
Proof. intros HI w H. apply HI, H. Qed.

Lemma no_exit_raise_for_status {A} (r : reply A) e :
  raise_for_status r = Raise e -> is_Exception e = true.
Proof. destruct r; simpl; [discriminate|]. intros [= <-]. reflexivity. Qed.

Lemma no_exit_get endpoint : no_exit (Client.get api endpoint).
Proof. intros w e E. eapply no_exit_raise_for_status, E. Qed.

Lemma no_exit_paginate endpoint params : no_exit (Client.paginate api endpoint params).
Proof. intros w e E. eapply no_exit_raise_for_status, E. Qed.

Lemma no_exit_write r : no_exit (Client.write api r).
Proof. intros w e E. eapply no_exit_raise_for_status, E. Qed.

End ClientFacts.

(** Routine goals: walk down the structure of the computation. *)
Ltac emits_step :=
  first
    [ apply emits_ret | apply emits_raise | apply emits_lift
    | apply emits_bind; [| intros ?]
    | apply emits_try_except; [| intros ?]
    | apply emits_modify; intros ?; reflexivity
    | apply emits_get | apply emits_paginate | apply emits_write
    | apply emits_get_repositories
    | match goal with
      | |- emits _ (if ?b then _ else _) => destruct b
      | |- emits _ (match ?x with _ => _ end) => destruct x
      end ].

Ltac preserves_step :=
  first
    [ apply preserves_ret | apply preserves_raise | apply preserves_lift
    | apply preserves_bind; [| intros ?]
    | apply preserves_try_except; [| intros ?]
    | apply preserves_modify; intros ? ?; assumption
    | apply preserves_get | apply preserves_paginate | apply preserves_write
    | apply preserves_get_repositories
    | match goal with
      | |- preserves _ (if ?b then _ else _) => destruct b
      | |- preserves _ (match ?x with _ => _ end) => destruct x
      end ].

Ltac no_exit_step :=
  first
    [ apply no_exit_ret
    | apply no_exit_bind; [| intros ?]
    | apply no_exit_try_except; [| intros ?]
    | apply no_exit_get | apply no_exit_paginate | apply no_exit_write
    | apply no_exit_modify
    | match goal with
      | |- no_exit (if ?b then _ else _) => destruct b
      | |- no_exit (match ?x with _ => _ end) => destruct x
      end ].

Ltac returns_step :=
  first
    [ apply returns_ret | apply returns_modify
    | apply returns_bind; [| intros ?]
    | match goal with
      | |- returns (if ?b then _ else _) => destruct b
      | |- returns (match ?x with _ => _ end) => destruct x
      end ].

(** Unfolds the operations of the monad and of the client, so that a
    computation reduces as far as the replies of the server are known. *)
Ltac run_monad :=
  cbv [bind try_except ret raise lift modify raise_for_status
       Labels.self_update Milestones.self_update
       Client.get Client.paginate Client.write Client.post Client.patch Client.put
       Client.delete Client.get_repositories
       is_RequestException is_Exception].

Lemma frozen_ignores_calls l m : ignores_calls (frozen l m).
Proof. intros c w H. exact H. Qed.

Section ManagerFacts.
Variable api : server.

Lemma getitem_no_exit d k e : getitem d k = Raise e -> is_Exception e = true.
Proof. unfold getitem. destruct (d !! k); [discriminate|]. intros [= <-]. reflexivity. Qed.

Lemma str_lower_no_exit v e : Labels.str_lower v = Raise e -> is_Exception e = true.
Proof. destruct v; simpl; try discriminate; intros [= <-]; reflexivity. Qed.

Lemma needs_update_no_exit a b e :
  Labels.needs_update a b = Raise e -> is_Exception e = true.
Proof.
  unfold Labels.needs_update.
  destruct (get b "color" (VStr "")); simpl; try discriminate; intros [= <-]; reflexivity.
Qed.

(** *** Labels *)

Lemma rename_matching_no_exit repo name data l :
  no_exit (Labels.rename_matching api repo name data l).
Proof.
  induction l as [|existing rest IH]; simpl.
  - apply no_exit_ret.
  - apply no_exit_bind; [apply no_exit_lift, getitem_no_exit | intros ?].
    apply no_exit_bind; [apply no_exit_lift, str_lower_no_exit | intros ?].
    apply no_exit_bind; [apply no_exit_lift, str_lower_no_exit | intros ?].
    destruct (String.eqb _ _); [|exact IH].
    repeat no_exit_step.
Qed.

Lemma create_label_returns dry_run repo label_data :
  returns (Labels.create_label api dry_run repo label_data).
Proof.
  unfold Labels.create_label.
  apply returns_try_except_Exception.
  - unfold Labels.check_existing, Labels.create_new.
    repeat first
      [ apply no_exit_lift, needs_update_no_exit
      | apply rename_matching_no_exit
      | no_exit_step ].
  - intros e. repeat returns_step.
Qed.

Lemma label_remove_unconfigured_emits P dry_run repo configured l success :
  (forall label_name,
     py_in label_name configured = false -> dry_run = false ->
     P (DELETE ("/repos/" +:+ repo +:+ "/labels/" +:+ py_str label_name))) ->
  emits P (Labels.remove_unconfigured api dry_run repo configured l success).
Proof.
  intros HP. revert success.
  induction l as [|label rest IH]; intros success; simpl.
  - apply emits_ret.
  - destruct (py_in _ _) eqn:E; simpl; [apply IH|].
    destruct dry_run; [apply IH|].
    apply emits_bind; [|intros ?; apply IH].
    repeat emits_step. apply HP; [exact E | reflexivity].
Qed.

Lemma label_rename_matching_emits P repo name data l :
  (forall e d, P (PATCH e d)) ->
  emits P (Labels.rename_matching api repo name data l).
Proof.
  intros HP. induction l as [|existing rest IH]; simpl.
  - apply emits_ret.
  - repeat (apply emits_bind; [apply emits_lift | intros ?]).
    destruct (String.eqb _ _); [|exact IH].
    repeat emits_step. apply HP.
Qed.

(** Under dry-run the label manager makes no write. *)
Lemma create_label_dry_run_emits repo label_data :
  emits not_write (Labels.create_label api true repo label_data).
Proof.
  unfold Labels.create_label, Labels.check_existing.
  repeat emits_step; reflexivity.
Qed.

Lemma sync_labels_dry_run_emits repo configured :
  emits not_write (Labels.sync_repository_labels api true repo configured).
Proof.
  unfold Labels.sync_repository_labels.
  repeat first
    [ apply label_remove_unconfigured_emits; intros; discriminate
    | emits_step ]; reflexivity.
Qed.

(** Applying a label never deletes. *)
Lemma create_label_emits_no_delete dry_run repo label_data :
  emits not_delete (Labels.create_label api dry_run repo label_data).
Proof.
  unfold Labels.create_label, Labels.check_existing, Labels.create_new.
  repeat first
    [ apply label_rename_matching_emits; intros; reflexivity
    | emits_step ]; reflexivity.
Qed.

Lemma create_label_dry_run_frozen l m repo label_data :
  preserves (frozen l m) (Labels.create_label api true repo label_data).
Proof.
  pose proof (frozen_ignores_calls l m).
  unfold Labels.create_label, Labels.check_existing.
  repeat preserves_step; assumption.
Qed.

Lemma label_remove_unconfigured_dry_run_frozen l m repo configured items success :
  preserves (frozen l m) (Labels.remove_unconfigured api true repo configured items success).
Proof.
  induction items as [|label rest IH]; simpl.
  - apply preserves_ret.
  - destruct (negb _); exact IH.
Qed.

Lemma sync_labels_dry_run_frozen l m repo configured :
  preserves (frozen l m) (Labels.sync_repository_labels api true repo configured).
Proof.
  pose proof (frozen_ignores_calls l m).
  unfold Labels.sync_repository_labels.
  repeat first [apply label_remove_unconfigured_dry_run_frozen | preserves_step];
    assumption.
Qed.

(** *** Milestones *)

Lemma convert_due_on_no_exit d e :
  Milestones.convert_due_on d = Raise e -> is_Exception e = true.
Proof.
  unfold Milestones.convert_due_on.
  destruct (_ && _); [|discriminate].
  destruct (Milestones._format_due_date _) as [v|[]] eqn:E;
    try discriminate; intros [= <-]; try reflexivity.
  exfalso. revert E. unfold Milestones._format_due_date.
  destruct (negb _); [discriminate|].
  induction Milestones.date_formats as [|f fs IH]; simpl; [discriminate|].
  unfold Datetime.strptime.
  destruct (get d "due_on" VNone); try discriminate.
  destruct (Datetime.strptime_str s f); [discriminate|exact IH].
Qed.

Lemma update_existing_no_exit dry_run repo id d :
  no_exit (Milestones.update_existing api dry_run repo id d).
Proof. unfold Milestones.update_existing. repeat no_exit_step. Qed.

Lemma find_existing_no_exit dry_run repo title d l :
  no_exit (Milestones.find_existing api dry_run repo title d l).
Proof.
  induction l as [|existing rest IH]; simpl.
  - apply no_exit_ret.
  - apply no_exit_bind; [apply no_exit_lift, getitem_no_exit | intros ?].
    destruct (py_eqb _ _); [|exact IH].
    apply no_exit_bind; [apply no_exit_lift, getitem_no_exit | intros ?].
    apply no_exit_bind; [apply update_existing_no_exit | intros ?].
    apply no_exit_ret.
Qed.

Lemma create_milestone_returns dry_run repo milestone_data :
  returns (Milestones.create_milestone api dry_run repo milestone_data).
Proof.
  unfold Milestones.create_milestone.
  apply returns_try_except_Exception.
  - unfold Milestones.create_new.
    repeat first
      [ apply no_exit_lift, convert_due_on_no_exit
      | apply find_existing_no_exit
      | no_exit_step ].
  - intros e. repeat returns_step.
Qed.

Lemma find_existing_emits P dry_run repo title d l :
  (forall e p, dry_run = false -> P (PATCH e p)) ->
  emits P (Milestones.find_existing api dry_run repo title d l).
Proof.
  intros HP. induction l as [|existing rest IH]; simpl.
  - apply emits_ret.
  - apply emits_bind; [apply emits_lift | intros ?].
    destruct (py_eqb _ _); [|exact IH].
    apply emits_bind; [apply emits_lift | intros ?].
    unfold Milestones.update_existing.
    destruct dry_run; simpl; repeat emits_step; apply HP; reflexivity.
Qed.

Lemma milestone_remove_unconfigured_emits P dry_run repo configured l success :
  (forall milestone : dict,
     py_in (get milestone "title" (VStr "")) configured = false -> dry_run = false ->
     P (DELETE ("/repos/" +:+ repo +:+ "/milestones/"
                +:+ py_str (get milestone "number" VNone)))) ->
  emits P (Milestones.remove_unconfigured api dry_run repo configured l success).
Proof.
  intros HP. revert success.
  induction l as [|milestone rest IH]; intros success; simpl.
  - apply emits_ret.
  - destruct (py_in _ _) eqn:E; simpl; [apply IH|].
    destruct dry_run; [apply IH|].
    apply emits_bind; [|intros ?; apply IH].
    repeat emits_step. apply HP; [exact E | reflexivity].
Qed.

(** Under dry-run the milestone manager makes no write. *)
Lemma create_milestone_dry_run_emits repo milestone_data :
  emits not_write (Milestones.create_milestone api true repo milestone_data).
Proof.
  unfold Milestones.create_milestone.
  repeat first
    [ apply find_existing_emits; intros; discriminate
    | emits_step ]; reflexivity.
Qed.

Lemma sync_milestones_dry_run_emits repo configured :
  emits not_write (Milestones.sync_repository_milestones api true repo configured).
Proof.
  unfold Milestones.sync_repository_milestones.
  repeat first
    [ apply milestone_remove_unconfigured_emits; intros; discriminate
    | emits_step ]; reflexivity.
Qed.

(** Applying a milestone never deletes. *)
Lemma create_milestone_emits_no_delete dry_run repo milestone_data :
  emits not_delete (Milestones.create_milestone api dry_run repo milestone_data).
Proof.
  unfold Milestones.create_milestone, Milestones.create_new.
  repeat first
    [ apply find_existing_emits; intros; reflexivity
    | emits_step ]; reflexivity.
Qed.

Lemma find_existing_dry_run_frozen l m repo title d items :
  preserves (frozen l m) (Milestones.find_existing api true repo title d items).
Proof.
  induction items as [|existing rest IH]; simpl.
  - apply preserves_ret.
  - apply preserves_bind; [apply preserves_lift | intros ?].
    destruct (py_eqb _ _); [|exact IH].
    repeat preserves_step.
Qed.

Lemma create_milestone_dry_run_frozen l m repo milestone_data :
  preserves (frozen l m) (Milestones.create_milestone api true repo milestone_data).
Proof.
  pose proof (frozen_ignores_calls l m).
  unfold Milestones.create_milestone.
  repeat first [apply find_existing_dry_run_frozen | preserves_step]; assumption.
Qed.

Lemma milestone_remove_unconfigured_dry_run_frozen l m repo configured items success :
  preserves (frozen l m)
    (Milestones.remove_unconfigured api true repo configured items success).
Proof.
  induction items as [|milestone rest IH]; simpl.
  - apply preserves_ret.
  - destruct (negb _); exact IH.
Qed.

Lemma sync_milestones_dry_run_frozen l m repo configured :
  preserves (frozen l m) (Milestones.sync_repository_milestones api true repo configured).
Proof.
  pose proof (frozen_ignores_calls l m).
  unfold Milestones.sync_repository_milestones.
  repeat first [apply milestone_remove_unconfigured_dry_run_frozen | preserves_step];
    assumption.
Qed.

(** *** Secrets *)

Lemma create_or_update_secret_returns repo secret :
  returns (Secrets.create_or_update_secret api repo secret).
Proof.
  unfold Secrets.create_or_update_secret.
  apply returns_try_except_Exception.
  - repeat first [apply no_exit_lift, getitem_no_exit | no_exit_step].
    intros w e. simpl. destruct (seal _ _ _ _); [discriminate|].
    intros [= <-]. reflexivity.
  - intros e. apply returns_ret.
Qed.

Lemma create_or_update_secret_emits_no_delete repo secret :
  emits not_delete (Secrets.create_or_update_secret api repo secret).
Proof.
  unfold Secrets.create_or_update_secret.
  repeat emits_step; reflexivity.
Qed.

Lemma create_or_update_secret_frozen l m repo secret :
  preserves (frozen l m) (Secrets.create_or_update_secret api repo secret).
Proof.
  pose proof (frozen_ignores_calls l m).
  unfold Secrets.create_or_update_secret.
  repeat preserves_step; assumption.
Qed.

End ManagerFacts.

(** ** The orchestrator *)

Section ConfiguratorFacts.
Import Config Configurator.
Variable api : server.

Lemma emits_for_each {A S} P (l : list A) (s : S) (body : A -> S -> M S) :
  (forall x s, emits P (body x s)) -> emits P (for_each l s body).
Proof.
  intros Hb. revert s. induction l as [|x rest IH]; intros s; simpl.
  - apply emits_ret.
  - apply emits_bind; [apply Hb | intros ?; apply IH].
Qed.

Lemma preserves_for_each {A S} I (l : list A) (s : S) (body : A -> S -> M S) :
  (forall x s, preserves I (body x s)) -> preserves I (for_each l s body).
Proof.
  intros Hb. revert s. induction l as [|x rest IH]; intros s; simpl.
  - apply preserves_ret.
  - apply preserves_bind; [apply Hb | intros ?; apply IH].
Qed.

Lemma returns_for_each {A S} (l : list A) (s : S) (body : A -> S -> M S) :
  (forall x s, returns (body x s)) -> returns (for_each l s body).
Proof.
  intros Hb. revert s. induction l as [|x rest IH]; intros s; simpl.
  - apply returns_ret.
  - apply returns_bind; [apply Hb | intros ?; apply IH].
Qed.

(** A loop that applies [f] to every item and appends its key, whatever
    [f] answered. *)
Lemma for_each_collect {A} (f : A -> M bool) (key : A -> value) (l : list A)
    (success : bool) (configured : list value) (w : world) :
  (forall x, returns (f x)) ->
  exists success',
    fst (for_each l (success, configured)
           (fun x '(success, configured) =>
              do ok <- f x;
              ret (if negb ok then false else success, (configured ++ [key x])%list)) w)
    = Ok (success', (configured ++ map key l)%list).
Proof.
  intros Hf. revert success configured w.
  induction l as [|x rest IH]; intros success configured w; simpl.
  - exists success. rewrite app_nil_r. reflexivity.
  - unfold bind at 1. unfold bind at 1.
    destruct (Hf x w) as (ok & Hok).
    destruct (f x w) as [r w1]. simpl in Hok. subst r. simpl.
    destruct (IH (if negb ok then false else success) (configured ++ [key x])%list w1)
      as (s' & Hs').
    exists s'. rewrite Hs'. rewrite <- app_assoc. reflexivity.
Qed.

Lemma apply_items_result self repo config w :
  exists success,
    fst (apply_items api self repo config w)
    = Ok (success, declared_milestone_titles config, declared_label_names config).
Proof.
  unfold apply_items, declared_milestone_titles, declared_label_names.
  unfold bind at 1.
  assert (H1 : exists s1,
             fst (match milestones config with
                  | Some l =>
                      for_each l (true, [])
                        (fun milestone '(success, configured_milestone_titles) =>
                           do ok <- Milestones.create_milestone api (dry_run self) repo milestone;
                           ret (if negb ok then false else success,
                                (configured_milestone_titles
                                   ++ [get milestone "title" (VStr "")])%list))
                  | None => ret (true, [])
                  end w)
             = Ok (s1, match milestones config with
                       | Some l => map (fun milestone => get milestone "title" (VStr "")) l
                       | None => []
                       end)).
  { destruct (milestones config) as [l|]; simpl; [|eauto].
    apply (for_each_collect (Milestones.create_milestone api (dry_run self) repo)
             (fun milestone => get milestone "title" (VStr "")) l true [] w).
    intros x. apply create_milestone_returns. }
  destruct H1 as (s1 & H1).
  match goal with |- context [match ?c w with _ => _ end] => destruct (c w) as [r1 w1] end.
  simpl in H1. subst r1. unfold bind at 1.
  assert (H2 : exists s2,
             fst (match labels config with
                  | Some l =>
                      for_each l (s1, [])
                        (fun label '(success, configured_label_names) =>
                           do ok <- Labels.create_label api (dry_run self) repo label;
                           ret (if negb ok then false else success,
                                (configured_label_names
                                   ++ [get label "name" (VStr "")])%list))
                  | None => ret (s1, [])
                  end w1)
             = Ok (s2, match labels config with
                       | Some l => map (fun label => get label "name" (VStr "")) l
                       | None => []
                       end)).
  { destruct (labels config) as [l|]; simpl; [|eauto].
    apply (for_each_collect (Labels.create_label api (dry_run self) repo)
             (fun label => get label "name" (VStr "")) l s1 [] w1).
    intros x. apply create_label_returns. }
  destruct H2 as (s2 & H2).
  match goal with |- context [match ?c w1 with _ => _ end] => destruct (c w1) as [r2 w2] end.
  simpl in H2. subst r2. unfold bind at 1.
  assert (H3 : returns
                 (match secrets config with
                  | Some l =>
                      for_each l s2
                        (fun secret success =>
                           do ok <- Secrets.create_or_update_secret api repo secret;
                           ret (if negb ok then false else success))
                  | None => ret s2
                  end)).
  { destruct (secrets config) as [l|]; [|apply returns_ret].
    apply returns_for_each. intros x s.
    apply returns_bind; [apply create_or_update_secret_returns | intros ?; apply returns_ret]. }
  destruct (H3 w2) as (s3 & Hs3).
  match goal with |- context [match ?c w2 with _ => _ end] => destruct (c w2) as [r3 w3] end.
  simpl in Hs3. subst r3. simpl. eauto.
Qed.

Lemma apply_items_emits_no_delete self repo config :
  emits not_delete (apply_items api self repo config).
Proof.
  unfold apply_items.
  repeat first
    [ apply emits_for_each; intros ? ?
    | apply create_milestone_emits_no_delete
    | apply create_label_emits_no_delete
    | apply create_or_update_secret_emits_no_delete
    | emits_step ].
Qed.

Lemma apply_config_to_repository_dry_run_frozen l m self repo config :
  dry_run self = true ->
  preserves (frozen l m) (apply_config_to_repository api self repo config).
Proof.
  intros Hdry. destruct self as [org dry sl sm]. simpl in Hdry. subst dry.
  unfold apply_config_to_repository, apply_items, sync_items. simpl.
  repeat first
    [ apply preserves_for_each; intros ? ?
    | apply create_milestone_dry_run_frozen
    | apply create_label_dry_run_frozen
    | apply create_or_update_secret_frozen
    | apply sync_milestones_dry_run_frozen
    | apply sync_labels_dry_run_frozen
    | preserves_step ].
Qed.

Lemma main_dry_run_frozen l m self parsed :
  dry_run self = true -> preserves (frozen l m) (main api self parsed).
Proof.
  intros Hdry. pose proof (frozen_ignores_calls l m).
  unfold main, apply_config, get_repositories.
  repeat first
    [ apply preserves_for_each; intros ? ?
    | apply apply_config_to_repository_dry_run_frozen
    | preserves_step ]; assumption.
Qed.


End ConfiguratorFacts.

(** ** A creation that fails *)

(** The test of lines 122-126 and 202-206 never holds: a response whose
    status is 422 is false as a truth value. *)
Lemma label_is_422_false (e : exn) : Labels.is_422 e = false.
Proof.
  destruct e as [[[status]|]| | | | |]; try reflexivity.
  unfold Labels.is_422, Response_bool. simpl.
  destruct (Z.eqb_spec status 422) as [->|]; [reflexivity|].
  apply andb_false_r.
Qed.

Lemma milestone_is_422_false (e : exn) : Milestones.is_422 e = false.
Proof. exact (label_is_422_false e). Qed.

(** What the creation of a label comes to, then. *)
Lemma label_create_new_run (api : server) (repo : string) (label_name : value)
    (label_data : dict) (w : world) :
  Labels.create_new api repo label_name label_data w
  = match on_write api (calls w) (POST ("/repos/" +:+ repo +:+ "/labels") label_data) with
    | Reply _ =>
        (Ok true,
         set_label_manager
           (inc_created (inc_success_count (label_manager w)))
           (Client.record (POST ("/repos/" +:+ repo +:+ "/labels") label_data) w))
    | Failure _ =>
        (Ok false,
         set_label_manager
           (inc_failed (inc_error_count (label_manager w)))
           (Client.record (POST ("/repos/" +:+ repo +:+ "/labels") label_data) w))
    end.
Proof.
  unfold Labels.create_new, try_except, bind at 1, Client.post, Client.write.
  destruct (on_write api (calls w) _) as [[]|response]; [reflexivity|].
  unfold raise_for_status. cbv iota beta.
  unfold is_RequestException, bind at 1. rewrite label_is_422_false. reflexivity.
Qed.

Section MilestoneRuns.
Variable api : server.

Lemma find_existing_other dry_run repo title copy before rest w :
  Forall (other_title title) before ->
  Milestones.find_existing api dry_run repo title copy (before ++ rest) w
  = Milestones.find_existing api dry_run repo title copy rest w.
Proof.
  induction 1 as [|existing before (t & Ht & Hne) _ IH]; [reflexivity|].
  simpl. unfold bind at 1, lift, getitem. rewrite Ht, Hne. exact IH.
Qed.

Lemma find_existing_none dry_run repo title copy items w :
  Forall (other_title title) items ->
  Milestones.find_existing api dry_run repo title copy items w = (Ok None, w).
Proof.
  intros H. rewrite <- (app_nil_r items). rewrite find_existing_other by exact H.
  reflexivity.
Qed.

Lemma find_existing_same dry_run repo title number copy before existing after w :
  Forall (other_title title) before ->
  same_title title number existing ->
  Milestones.find_existing api dry_run repo title copy (before ++ existing :: after) w
  = (do b <- Milestones.update_existing api dry_run repo number copy; ret (Some b)) w.
Proof.
  intros Hb [(t & Ht & He) Hn]. rewrite find_existing_other by exact Hb.
  simpl. unfold bind at 1, lift, getitem. rewrite Ht, He.
  unfold bind at 1. rewrite Hn. reflexivity.
Qed.

Lemma milestone_create_new_run (repo : string) (copy : dict) (w : world) :
  Milestones.create_new api repo copy w
  = match on_write api (calls w) (POST ("/repos/" +:+ repo +:+ "/milestones") copy) with
    | Reply _ =>
        (Ok true,
         set_milestone_manager
           (inc_created (inc_success_count (milestone_manager w)))
           (Client.record (POST ("/repos/" +:+ repo +:+ "/milestones") copy) w))
    | Failure _ =>
        (Ok false,
         set_milestone_manager
           (inc_failed (inc_error_count (milestone_manager w)))
           (Client.record (POST ("/repos/" +:+ repo +:+ "/milestones") copy) w))
    end.
Proof.
  unfold Milestones.create_new, try_except, bind at 1, Client.post, Client.write.
  destruct (on_write api (calls w) _) as [[]|response]; [reflexivity|].
  unfold raise_for_status. cbv iota beta.
  unfold is_RequestException. rewrite milestone_is_422_false. reflexivity.
Qed.

(** A milestone found by title, without dry-run: the PATCH, and the
    counters that follow its reply. *)
Lemma create_milestone_found_run repo milestone_data copy before existing after number w :
  let listing := PAGINATE ("/repos/" +:+ repo +:+ "/milestones") {["state" := VStr "all"]} in
  let update :=
    PATCH ("/repos/" +:+ repo +:+ "/milestones/" +:+ py_str number) (update_payload copy) in
  Milestones.convert_due_on milestone_data = Ok copy ->
  on_paginate api (calls w) ("/repos/" +:+ repo +:+ "/milestones") {["state" := VStr "all"]}
  = Reply (before ++ existing :: after)%list ->
  Forall (other_title (get milestone_data "title" (VStr "Unknown"))) before ->
  same_title (get milestone_data "title" (VStr "Unknown")) number existing ->
  Milestones.create_milestone api false repo milestone_data w
  = match on_write api (calls w ++ [listing]) update with
    | Reply _ =>
        (Ok true,
         set_milestone_manager
           (inc_updated (inc_success_count (milestone_manager w)))
           (Client.record update (Client.record listing w)))
    | Failure _ =>
        (Ok false,
         set_milestone_manager
           (inc_failed (inc_error_count (milestone_manager w)))
           (Client.record update (Client.record listing w)))
    end.
Proof.
  intros listing update Hcopy Hlist Hbefore Hsame.
  unfold Milestones.create_milestone.
  unfold try_except at 1, bind at 1, lift. rewrite Hcopy.
  unfold bind at 1, try_except at 1, bind at 1, Client.paginate.
  rewrite Hlist. unfold raise_for_status at 1. cbv iota beta.
  rewrite (find_existing_same _ _ _ _ _ _ _ _ _ Hbefore Hsame).
  unfold Milestones.update_existing, update_payload, negb, bind at 1, try_except.
  unfold bind at 1, Client.patch, Client.write.
  subst listing update. unfold update_payload. cbn [calls Client.record set_calls].
  destruct (on_write api _ _) as [[]|response]; reflexivity.
Qed.

(** A milestone whose title is not listed, without dry-run: it is created
    unless its [due_on] is [None]. *)
Lemma create_milestone_absent_run repo milestone_data copy items w :
  let listing := PAGINATE ("/repos/" +:+ repo +:+ "/milestones") {["state" := VStr "all"]} in
  Milestones.convert_due_on milestone_data = Ok copy ->
  on_paginate api (calls w) ("/repos/" +:+ repo +:+ "/milestones") {["state" := VStr "all"]}
  = Reply items ->
  Forall (other_title (get milestone_data "title" (VStr "Unknown"))) items ->
  Milestones.create_milestone api false repo milestone_data w
  = if Milestones.due_on_is_None copy
    then (Ok false,
          set_milestone_manager (inc_skipped (milestone_manager w)) (Client.record listing w))
    else
      match on_write api (calls w ++ [listing])
              (POST ("/repos/" +:+ repo +:+ "/milestones") copy) with
      | Reply _ =>
          (Ok true,
           set_milestone_manager
             (inc_created (inc_success_count (milestone_manager w)))
             (Client.record (POST ("/repos/" +:+ repo +:+ "/milestones") copy)
                (Client.record listing w)))
      | Failure _ =>
          (Ok false,
           set_milestone_manager
             (inc_failed (inc_error_count (milestone_manager w)))
             (Client.record (POST ("/repos/" +:+ repo +:+ "/milestones") copy)
                (Client.record listing w)))
      end.
Proof.
  intros listing Hcopy Hlist Hitems.
  unfold Milestones.create_milestone.
  unfold try_except at 1, bind at 1, lift. rewrite Hcopy.
  unfold bind at 1, try_except at 1, bind at 1, Client.paginate.
  rewrite Hlist. unfold raise_for_status at 1. cbv iota beta.
  rewrite (find_existing_none _ _ _ _ _ _ Hitems).
  destruct (Milestones.due_on_is_None copy); [reflexivity|].
  rewrite milestone_create_new_run.
  subst listing. cbn [calls Client.record set_calls].
  destruct (on_write api _ _) as [[]|response]; reflexivity.
Qed.

(** A date text that no format parses stays in the copy as it is. *)
Lemma format_due_date_unparseable (s : string) :
  s <> "" ->
  Forall (fun date_format => Datetime.strptime_str s date_format = None)
    Milestones.date_formats ->
  Milestones._format_due_date (VStr s) = Raise ValueError.
Proof.
  intros Hs Hall. unfold Milestones._format_due_date. simpl truthy.
  destruct (String.eqb_spec s "") as [->|_]; [contradiction|]. simpl negb. cbv iota.
  induction Hall as [|f fs Hf _ IH]; [reflexivity|].
  simpl. rewrite Hf. exact IH.
Qed.

Lemma convert_due_on_unparseable (milestone_data : dict) (s : string) :
  milestone_data !! "due_on" = Some (VStr s) ->
  s <> "" ->
  Forall (fun date_format => Datetime.strptime_str s date_format = None)
    Milestones.date_formats ->
  Milestones.convert_due_on milestone_data = Ok milestone_data.
Proof.
  intros Hd Hs Hall. unfold Milestones.convert_due_on, contains, get. rewrite Hd.
  rewrite (format_due_date_unparseable s Hs Hall).
  destruct (true && truthy (VStr s)); reflexivity.
Qed.

End MilestoneRuns.

(** ** Secrets *)

Section SecretRuns.
Variable api : server.

Lemma create_or_update_secret_run repo secret secret_name secret_value response
    public_key key_id sealed w :
  let key_endpoint := "/repos/" +:+ repo +:+ "/actions/secrets/public-key" in
  let upsert :=
    PUT ("/repos/" +:+ repo +:+ "/actions/secrets/" +:+ py_str secret_name)
      (<["encrypted_value" := VStr sealed]> {["key_id" := key_id]}) in
  secret !! "name" = Some secret_name ->
  secret !! "value" = Some secret_value ->
  on_get api (calls w) key_endpoint = Reply response ->
  response !! "key" = Some public_key ->
  response !! "key_id" = Some key_id ->
  seal api (calls w ++ [GET key_endpoint]) public_key secret_value = Some sealed ->
  Secrets.create_or_update_secret api repo secret w
  = (Ok match on_write api (calls w ++ [GET key_endpoint]) upsert with
        | Reply _ => true
        | Failure _ => false
        end,
     Client.record upsert (Client.record (GET key_endpoint) w)).
Proof.
  intros key_endpoint upsert Hname Hvalue Hget Hkey Hid Hseal.
  unfold Secrets.create_or_update_secret. run_monad. unfold getitem.
  rewrite Hname, Hvalue. fold key_endpoint. rewrite Hget. cbv iota beta.
  rewrite Hkey, Hid. cbn [calls Client.record set_calls]. rewrite Hseal.
  fold upsert. destruct (on_write api _ upsert) as [[]|response']; reflexivity.
Qed.


End SecretRuns.

Section SyncFacts.
Import Config Configurator.
Variable api : server.

Lemma label_delete_step (repo : string) (label_name : value) (success : bool) (w : world) :
  exists b w1,
    try_except
      (do _ <- Client.delete api ("/repos/" +:+ repo +:+ "/labels/" +:+ py_str label_name);
       do _ <- Labels.self_update inc_removed;
       ret success)
      is_RequestException
      (fun _ => do _ <- Labels.self_update inc_error_count; ret false) w
    = (Ok b, w1)
    /\ calls w1
       = (calls w ++ [DELETE ("/repos/" +:+ repo +:+ "/labels/" +:+ py_str label_name)])%list.
Proof.
  unfold try_except, bind, Client.delete, Client.write. simpl.
  destruct (on_write api (calls w) _) as [[]|response]; simpl; eauto.
Qed.

Lemma label_remove_unconfigured_calls repo configured l success w :
  exists b w',
    Labels.remove_unconfigured api false repo configured l success w = (Ok b, w')
    /\ calls w' = (calls w ++ map (delete_label repo) (undeclared_labels configured l))%list.
Proof.
  revert success w. induction l as [|label rest IH]; intros success w; simpl.
  - exists success, w. rewrite app_nil_r. auto.
  - destruct (py_in _ _); simpl; [apply IH|].
    destruct (label_delete_step repo (get label "name" (VStr "")) success w)
      as (b1 & w1 & H1 & C1).
    rewrite (bind_run _ _ _ _ _ H1).
    destruct (IH b1 w1) as (b & w' & H & C).
    exists b, w'. split; [exact H|].
    rewrite C, C1, <- app_assoc. reflexivity.
Qed.

Lemma sync_repository_labels_calls repo configured w :
  exists b w',
    Labels.sync_repository_labels api false repo configured w = (Ok b, w')
    /\ calls w' = (calls w ++ label_sync_requests api repo configured (calls w))%list.
Proof.
  unfold Labels.sync_repository_labels, label_sync_requests, try_except, bind,
    Client.paginate.
  destruct (on_paginate api (calls w) _ _) as [all_labels|response]; simpl.
  - destruct (label_remove_unconfigured_calls repo configured all_labels true
                (Client.record (PAGINATE ("/repos/" +:+ repo +:+ "/labels") ∅) w))
      as (b & w' & H & C).
    rewrite H. exists b, w'. split; [reflexivity|].
    rewrite C. simpl. rewrite <- app_assoc. reflexivity.
  - eauto.
Qed.

Lemma milestone_delete_step (repo : string) (number : value) (success : bool) (w : world) :
  exists b w1,
    try_except
      (do _ <- Client.delete api ("/repos/" +:+ repo +:+ "/milestones/" +:+ py_str number);
       do _ <- Milestones.self_update inc_removed;
       ret success)
      is_RequestException
      (fun _ => do _ <- Milestones.self_update inc_error_count; ret false) w
    = (Ok b, w1)
    /\ calls w1
       = (calls w ++ [DELETE ("/repos/" +:+ repo +:+ "/milestones/" +:+ py_str number)])%list.
Proof.
  unfold try_except, bind, Client.delete, Client.write. simpl.
  destruct (on_write api (calls w) _) as [[]|response]; simpl; eauto.
Qed.

Lemma milestone_remove_unconfigured_calls repo configured l success w :
  exists b w',
    Milestones.remove_unconfigured api false repo configured l success w = (Ok b, w')
    /\ calls w'
       = (calls w ++ map (delete_milestone repo) (undeclared_milestones configured l))%list.
Proof.
  revert success w. induction l as [|milestone rest IH]; intros success w; simpl.
  - exists success, w. rewrite app_nil_r. auto.
  - destruct (py_in _ _); simpl; [apply IH|].
    destruct (milestone_delete_step repo (get milestone "number" VNone) success w)
      as (b1 & w1 & H1 & C1).
    rewrite (bind_run _ _ _ _ _ H1).
    destruct (IH b1 w1) as (b & w' & H & C).
    exists b, w'. split; [exact H|].
    rewrite C, C1, <- app_assoc. reflexivity.
Qed.

Lemma sync_repository_milestones_calls repo configured w :
  exists b w',
    Milestones.sync_repository_milestones api false repo configured w = (Ok b, w')
    /\ calls w' = (calls w ++ milestone_sync_requests api repo configured (calls w))%list.
Proof.
  unfold Milestones.sync_repository_milestones, milestone_sync_requests, try_except, bind,
    Client.paginate.
  destruct (on_paginate api (calls w) _ _) as [all_milestones|response]; simpl.
  - destruct (milestone_remove_unconfigured_calls repo configured all_milestones true
                (Client.record (PAGINATE ("/repos/" +:+ repo +:+ "/milestones")
                                  {["state" := VStr "all"]}) w))
      as (b & w' & H & C).
    rewrite H. exists b, w'. split; [reflexivity|].
    rewrite C. simpl. rewrite <- app_assoc. reflexivity.
  - eauto.
Qed.

Lemma sync_items_calls self repo config success w :
  dry_run self = false ->
  exists b w',
    sync_items api self repo config success
      (declared_milestone_titles config) (declared_label_names config) w = (Ok b, w')
    /\ calls w' = (calls w ++ sync_requests api self repo config (calls w))%list.
Proof.
  intros Hdry. unfold sync_items, sync_requests. rewrite Hdry.
  destruct (sync_milestones self && declared (milestones config)).
  - destruct (sync_repository_milestones_calls repo (declared_milestone_titles config) w)
      as (b1 & w1 & H1 & C1).
    rewrite (bind_run _ _ _ _ _ (bind_run _ _ _ _ _ H1)). unfold ret at 1.
    destruct (sync_labels self && declared (labels config)).
    + destruct (sync_repository_labels_calls repo (declared_label_names config) w1)
        as (b2 & w2 & H2 & C2).
      rewrite (bind_run _ _ _ _ _ (bind_run _ _ _ _ _ H2)). unfold ret.
      eexists _, _. split; [reflexivity|].
      rewrite C2, C1, <- app_assoc. reflexivity.
    + unfold bind, ret. eexists _, _. split; [reflexivity|].
      rewrite C1, app_nil_r. reflexivity.
  - unfold bind at 1, ret at 1.
    destruct (sync_labels self && declared (labels config)).
    + destruct (sync_repository_labels_calls repo (declared_label_names config) w)
        as (b2 & w2 & H2 & C2).
      rewrite (bind_run _ _ _ _ _ (bind_run _ _ _ _ _ H2)). unfold ret.
      eexists _, _. split; [reflexivity|].
      rewrite C2, app_nil_r. reflexivity.
    + unfold bind, ret. eexists _, _. split; [reflexivity|].
      simpl. rewrite app_nil_r. reflexivity.
Qed.

End SyncFacts.





(** * Reading dates *)

Section DateFacts.
Import Datetime Milestones.

Lemma forall_ascii_spec (P : ascii -> bool) :
  forall_ascii P = true -> forall c, P c = true.
Proof.
  unfold forall_ascii. rewrite forallb_forall. intros H c. apply H.
  unfold all_ascii. rewrite <- (ascii_nat_embedding c).
  apply in_map, in_seq. pose proof (nat_ascii_bounded c). lia.
Qed.

Ltac by_all_ascii := apply forall_ascii_spec; vm_compute; reflexivity.

Lemma space_not_digit c : is_space c && is_digit c = false.
Proof. 
  apply negb_true_iff. revert c. by_all_ascii.
Qed.

(** *** The matcher *)








(** *** The first match, token by token *)




(** *** Kinds of characters *)








(** *** The family of each format *)












(** *** Formats that can accept the same text *)















End DateFacts.

(** * The properties of the specification *)

Section Properties.
Import Config Configurator.

(** C10.  Under dry-run, whatever the server answers and whatever the
    configuration holds, the counters [created], [updated] and [removed] of
    the label manager and of the milestone manager are still zero at the end
    of the run: only [skipped], [failed] and the success and error counts
    can have moved. *)
Theorem dry_run_counters_remain_zero (api : server) (self : GitHubConfigurator)
    (parsed : config) :
  dry_run self = true ->
  let w := snd (main api self parsed new_world) in
  created (stats (label_manager w)) = 0%nat
  /\ updated (stats (label_manager w)) = 0%nat
  /\ removed (stats (label_manager w)) = 0%nat
  /\ created (stats (milestone_manager w)) = 0%nat
  /\ updated (stats (milestone_manager w)) = 0%nat
  /\ removed (stats (milestone_manager w)) = 0%nat.
Proof.
  intros Hdry w.
  assert (H : frozen (0, 0, 0)%nat (0, 0, 0)%nat w).
  { apply main_dry_run_frozen; [exact Hdry | split; reflexivity]. }
  destruct H as [Hl Hm]. unfold change_counters in Hl, Hm.
  injection Hl as -> -> ->. injection Hm as -> -> ->. repeat split.
Qed.


(** C8, as the code has it.  Without dry-run, a pass over a repository
    first applies the declared items, which deletes nothing, and then makes
    exactly the requests of [sync_requests]: for each kind whose sync is
    enabled and which the configuration declares, the listing followed by
    one DELETE for each listed item whose key is not declared, and nothing
    for a kind whose sync is disabled. *)
Theorem sync_deletes_each_undeclared_once (api : server) (self : GitHubConfigurator)
    (repo : string) (config : config) (w : world) :
  dry_run self = false ->
  exists applied w1 success w2 before,
    apply_items api self repo config w = (Ok applied, w1)
    /\ calls w1 = (calls w ++ before)%list
    /\ Forall not_delete before
    /\ apply_config_to_repository api self repo config w = (Ok success, w2)
    /\ calls w2 = (calls w1 ++ sync_requests api self repo config (calls w1))%list.
Proof.
  intros Hdry.
  destruct (apply_items_result api self repo config w) as (s & Hs).
  destruct (apply_items_emits_no_delete api self repo config w) as (before & Hc & Hb).
  unfold apply_config_to_repository.
  destruct (apply_items api self repo config w) as [r w1] eqn:E.
  simpl in Hs, Hc. subst r.
  destruct (sync_items_calls api self repo config s w1 Hdry) as (b & w2 & H2 & C2).
  exists (s, declared_milestone_titles config, declared_label_names config), w1, b, w2, before.
  repeat split; try assumption.
  rewrite (bind_run _ _ _ _ _ E). exact H2.
Qed.

(** C2, as the code has it.  For a declared label that the GET by name
    finds, the remote colour is compared with the declared colour once its
    leading [#] characters are stripped, and the descriptions are compared,
    both by equality of the values (letter case matters).  When either
    differs: under dry-run nothing is written and no counter moves; otherwise
    a PATCH with the declared data follows the GET and, when it succeeds, the
    label counts as updated.  When both are equal the label counts as
    skipped and the GET is the only request. *)
Theorem found_label_is_compared_exactly (api : server) (dry_run : bool) (repo : string)
    (label_data existing : dict) (declared_color : value) (w : world) :
  let endpoint :=
    "/repos/" +:+ repo +:+ "/labels/" +:+ py_str (get label_data "name" (VStr "Unknown")) in
  on_get api (calls w) endpoint = Reply existing ->
  Labels.str_lstrip (get label_data "color" (VStr "")) = Ok declared_color ->
  let differs :=
    negb (py_eqb (get existing "color" (VStr "")) declared_color)
    || negb (py_eqb (get existing "description" (VStr ""))
                    (get label_data "description" (VStr ""))) in
  let outcome := Labels.create_label api dry_run repo label_data w in
  if differs then
    if dry_run then outcome = (Ok true, Client.record (GET endpoint) w)
    else
      (exists rest,
          calls (snd outcome)
          = (calls w ++ GET endpoint :: PATCH endpoint label_data :: rest)%list)
      /\ (on_write api (calls w ++ [GET endpoint]) (PATCH endpoint label_data) = Reply tt ->
          outcome
          = (Ok true,
             set_label_manager (inc_updated (inc_success_count (label_manager w)))
               (Client.record (PATCH endpoint label_data) (Client.record (GET endpoint) w))))
  else
    outcome
    = (Ok true, set_label_manager (inc_skipped (label_manager w)) (Client.record (GET endpoint) w)).
Proof.
  intros endpoint Hget Hcolor differs outcome.
  subst outcome. unfold Labels.create_label, Labels.check_existing.
  fold endpoint. run_monad. unfold Labels.needs_update.
  rewrite Hget, Hcolor. run_monad. fold differs.
  destruct differs.
  - destruct dry_run; [reflexivity|].
    change (calls (Client.record (GET endpoint) w)) with (calls w ++ [GET endpoint])%list.
    destruct (on_write api (calls w ++ [GET endpoint])%list (PATCH endpoint label_data))
      as [[]|response]; run_monad.
    + split; [|reflexivity]. exists []. simpl. rewrite <- app_assoc. reflexivity.
    + split; [|discriminate].
      cbv [negb]. rewrite label_create_new_run.
      destruct (on_write api _ (POST _ _)) as [[]|r2]; simpl;
        eexists; rewrite <- !app_assoc; reflexivity.
  - reflexivity.
Qed.

(** C7, as the code behaves.  When the GET by name fails and the POST
    fails, with status 422 or any other failure, the label counts as failed:
    the two requests are the only ones, so the labels are not listed again
    and no label is renamed. *)
Theorem failed_creation_is_never_recovered (api : server) (repo : string)
    (label_data : dict) (w : world) (lookup creation : option Response) :
  let endpoint :=
    "/repos/" +:+ repo +:+ "/labels/" +:+ py_str (get label_data "name" (VStr "Unknown")) in
  let create := POST ("/repos/" +:+ repo +:+ "/labels") label_data in
  on_get api (calls w) endpoint = Failure lookup ->
  on_write api (calls w ++ [GET endpoint]) create = Failure creation ->
  Labels.create_label api false repo label_data w
  = (Ok false,
     set_label_manager (inc_failed (inc_error_count (label_manager w)))
       (Client.record create (Client.record (GET endpoint) w))).
Proof.
  intros endpoint create Hget Hpost.
  unfold Labels.create_label, Labels.check_existing.
  fold endpoint. run_monad. rewrite Hget. cbv iota beta. cbv [negb].
  rewrite label_create_new_run. fold create.
  cbn [calls Client.record set_calls]. rewrite Hpost. reflexivity.
Qed.

(** C1, as the code has it.  On a pass over a repository that already
    matches: a declared label whose remote colour and description need no
    update counts as skipped, with the GET as the only request, under
    dry-run or not; a declared milestone whose title is listed is sent again
    as a PATCH and counts as updated when the PATCH succeeds. *)
Theorem second_pass_skips_labels_and_updates_milestones (api : server) (dry_run : bool)
    (repo : string) (label_data existing_label : dict)
    (milestone_data copy existing : dict) (before after : list dict) (number : value)
    (w : world) :
  let endpoint :=
    "/repos/" +:+ repo +:+ "/labels/" +:+ py_str (get label_data "name" (VStr "Unknown")) in
  let listing := PAGINATE ("/repos/" +:+ repo +:+ "/milestones") {["state" := VStr "all"]} in
  let update :=
    PATCH ("/repos/" +:+ repo +:+ "/milestones/" +:+ py_str number) (update_payload copy) in
  on_get api (calls w) endpoint = Reply existing_label ->
  Labels.needs_update existing_label label_data = Ok false ->
  Milestones.convert_due_on milestone_data = Ok copy ->
  on_paginate api (calls w) ("/repos/" +:+ repo +:+ "/milestones") {["state" := VStr "all"]}
  = Reply (before ++ existing :: after)%list ->
  Forall (other_title (get milestone_data "title" (VStr "Unknown"))) before ->
  same_title (get milestone_data "title" (VStr "Unknown")) number existing ->
  on_write api (calls w ++ [listing]) update = Reply tt ->
  Labels.create_label api dry_run repo label_data w
  = (Ok true,
     set_label_manager (inc_skipped (label_manager w)) (Client.record (GET endpoint) w))
  /\ Milestones.create_milestone api false repo milestone_data w
     = (Ok true,
        set_milestone_manager (inc_updated (inc_success_count (milestone_manager w)))
          (Client.record update (Client.record listing w))).
Proof.
  intros endpoint listing update Hget Hneeds Hcopy Hlist Hbefore Hsame Hpatch. split.
  - unfold Labels.create_label, Labels.check_existing.
    fold endpoint. run_monad. rewrite Hget. cbv iota beta. rewrite Hneeds. reflexivity.
  - rewrite (create_milestone_found_run api repo milestone_data copy before existing after
               number w Hcopy Hlist Hbefore Hsame).
    fold listing update. rewrite Hpatch. reflexivity.
Qed.

(** C3, as the code behaves.  A declared due date that no format parses
    stays in the data as it was written.  Without dry-run, when no listed
    milestone has the declared title the milestone is created all the same,
    with that text as [due_on]; when one has, the PATCH carries that text as
    [due_on] too. *)
Theorem unparseable_due_on_is_sent_as_written (api : server) (repo : string)
    (milestone_data : dict) (s : string) (items : list dict) (w : world)
    (before after : list dict) (existing : dict) (number : value) (w' : world) :
  let milestone_title := get milestone_data "title" (VStr "Unknown") in
  let listing := PAGINATE ("/repos/" +:+ repo +:+ "/milestones") {["state" := VStr "all"]} in
  let create := POST ("/repos/" +:+ repo +:+ "/milestones") milestone_data in
  let update :=
    PATCH ("/repos/" +:+ repo +:+ "/milestones/" +:+ py_str number) milestone_data in
  milestone_data !! "due_on" = Some (VStr s) ->
  s <> "" ->
  Forall (fun date_format => Datetime.strptime_str s date_format = None)
    Milestones.date_formats ->
  on_paginate api (calls w) ("/repos/" +:+ repo +:+ "/milestones") {["state" := VStr "all"]}
  = Reply items ->
  Forall (other_title milestone_title) items ->
  on_write api (calls w ++ [listing]) create = Reply tt ->
  on_paginate api (calls w') ("/repos/" +:+ repo +:+ "/milestones") {["state" := VStr "all"]}
  = Reply (before ++ existing :: after)%list ->
  Forall (other_title milestone_title) before ->
  same_title milestone_title number existing ->
  Milestones.create_milestone api false repo milestone_data w
  = (Ok true,
     set_milestone_manager (inc_created (inc_success_count (milestone_manager w)))
       (Client.record create (Client.record listing w)))
  /\ calls (snd (Milestones.create_milestone api false repo milestone_data w'))
     = (calls w' ++ [listing; update])%list.
Proof.
  intros milestone_title listing create update Hdue Hs Hall
    Hlist Hitems Hpost Hlist' Hbefore Hsame.
  pose proof (convert_due_on_unparseable milestone_data s Hdue Hs Hall) as Hcopy.
  assert (Hnone : Milestones.due_on_is_None milestone_data = false).
  { unfold Milestones.due_on_is_None. rewrite Hdue. reflexivity. }
  split.
  - rewrite (create_milestone_absent_run api repo milestone_data milestone_data items w
               Hcopy Hlist Hitems).
    rewrite Hnone. fold listing create. rewrite Hpost. reflexivity.
  - rewrite (create_milestone_found_run api repo milestone_data milestone_data before
               existing after number w' Hcopy Hlist' Hbefore Hsame).
    unfold update_payload. rewrite Hnone.
    match goal with
    | |- context [match ?reply with Reply _ => _ | Failure _ => _ end] => destruct reply
    end;
      cbn [snd calls Client.record set_calls set_milestone_manager];
      rewrite <- app_assoc; reflexivity.
Qed.

(** C4, as the code behaves.  Under dry-run a declared secret is still
    written: once the public key is fetched and the value sealed, the pass
    makes the PUT of the encrypted value. *)
Theorem dry_run_still_writes_secrets (api : server) (self : GitHubConfigurator)
    (repo : string) (secret response : dict) (secret_name secret_value public_key key_id : value)
    (sealed : string) (w : world) :
  let key_endpoint := "/repos/" +:+ repo +:+ "/actions/secrets/public-key" in
  let upsert :=
    PUT ("/repos/" +:+ repo +:+ "/actions/secrets/" +:+ py_str secret_name)
      (<["encrypted_value" := VStr sealed]> {["key_id" := key_id]}) in
  let config :=
    {| repositories := None; milestones := None; labels := None; secrets := Some [secret] |} in
  dry_run self = true ->
  secret !! "name" = Some secret_name ->
  secret !! "value" = Some secret_value ->
  on_get api (calls w) key_endpoint = Reply response ->
  response !! "key" = Some public_key ->
  response !! "key_id" = Some key_id ->
  seal api (calls w ++ [GET key_endpoint]) public_key secret_value = Some sealed ->
  calls (snd (apply_config_to_repository api self repo config w))
  = (calls w ++ [GET key_endpoint; upsert])%list
  /\ is_write upsert = true.
Proof.
  intros key_endpoint upsert config Hdry Hname Hvalue Hget Hkey Hid Hseal.
  split; [|reflexivity].
  unfold apply_config_to_repository, apply_items, sync_items.
  cbn [milestones labels secrets for_each declared config].
  run_monad.
  rewrite (create_or_update_secret_run api repo secret secret_name secret_value response
             public_key key_id sealed w Hname Hvalue Hget Hkey Hid Hseal).
  rewrite !andb_false_r. simpl. rewrite <- app_assoc. reflexivity.
Qed.



End Properties.


(** * The properties at concrete repositories *)

Section Instances.
Import Py Api Config Configurator Demo.

(** Closed facts, one conjunct at a time. *)
Ltac by_computation :=
  intros;
  lazymatch goal with
  | |- _ /\ _ => split; [reflexivity | by_computation]
  | |- _ => reflexivity
  end.

(** C10 at a dry run with both syncs over the repository with two labels. *)
Lemma dry_run_counters_remain_zero_witness :
  dry_run dry_run_sync_all = true
  /\ (let w := snd (main two_labels dry_run_sync_all (only_labels [bug]) new_world) in
      created (stats (label_manager w)) = 0%nat
      /\ updated (stats (label_manager w)) = 0%nat
      /\ removed (stats (label_manager w)) = 0%nat
      /\ created (stats (milestone_manager w)) = 0%nat
      /\ updated (stats (milestone_manager w)) = 0%nat
      /\ removed (stats (milestone_manager w)) = 0%nat).
Proof.
  split; [reflexivity|].
  apply (dry_run_counters_remain_zero two_labels dry_run_sync_all (only_labels [bug])).
  reflexivity.
Defined.

Lemma sync_under_dry_run_deletes_nothing :
  sync_labels dry_run_sync_all = true
  /\ declared (labels (only_labels [bug])) = true
  /\ on_paginate two_labels [GET "/repos/octo/demo/labels/bug"] "/repos/octo/demo/labels" ∅
     = Reply [remote_bug; remote_wontfix]
  /\ py_in (VStr "wontfix") (declared_label_names (only_labels [bug])) = false
  /\ calls (snd (apply_config_to_repository two_labels dry_run_sync_all "octo/demo"
                   (only_labels [bug]) new_world))
     = [GET "/repos/octo/demo/labels/bug"; PAGINATE "/repos/octo/demo/labels" ∅].
Proof. by_computation. Qed.

Lemma sync_deletes_each_undeclared_once_witness :
  dry_run sync_labels_only = false
  /\ exists applied w1 success w2 before,
      apply_items two_labels sync_labels_only "octo/demo" (only_labels [bug]) new_world
      = (Ok applied, w1)
      /\ calls w1 = (calls new_world ++ before)%list
      /\ Forall not_delete before
      /\ apply_config_to_repository two_labels sync_labels_only "octo/demo"
           (only_labels [bug]) new_world = (Ok success, w2)
      /\ calls w2
         = (calls w1
            ++ sync_requests two_labels sync_labels_only "octo/demo" (only_labels [bug])
                 (calls w1))%list.
Proof.
  split; [reflexivity|].
  apply (sync_deletes_each_undeclared_once two_labels sync_labels_only "octo/demo"
           (only_labels [bug]) new_world).
  reflexivity.
Defined.

Example sync_removes_wontfix :
  let w := snd (apply_config_to_repository two_labels sync_labels_only "octo/demo"
                  (only_labels [bug]) new_world) in
  calls w = [GET "/repos/octo/demo/labels/bug"; PAGINATE "/repos/octo/demo/labels" ∅;
             DELETE "/repos/octo/demo/labels/wontfix"]
  /\ stats (label_manager w)
     = {| created := 0; updated := 0; removed := 1; failed := 0; skipped := 1 |}.
Proof. by_computation. Qed.

(** C2 at the declared colour [#ff0000] against the remote [d73a4a]. *)
Lemma found_label_is_compared_exactly_witness :
  let endpoint := "/repos/octo/demo/labels/bug" in
  let outcome := Labels.create_label two_labels false "octo/demo" red_bug new_world in
  on_get two_labels (calls new_world) endpoint = Reply remote_bug
  /\ Labels.str_lstrip (get red_bug "color" (VStr "")) = Ok (VStr "ff0000")
  /\ (exists rest,
         calls (snd outcome)
         = (calls new_world ++ GET endpoint :: PATCH endpoint red_bug :: rest)%list)
  /\ (on_write two_labels (calls new_world ++ [GET endpoint]) (PATCH endpoint red_bug)
      = Reply tt ->
      outcome
      = (Ok true,
         set_label_manager (inc_updated (inc_success_count (label_manager new_world)))
           (Client.record (PATCH endpoint red_bug)
              (Client.record (GET endpoint) new_world)))).
Proof.
  intros endpoint outcome. split; [reflexivity|]. split; [reflexivity|].
  apply (found_label_is_compared_exactly two_labels false "octo/demo" red_bug remote_bug
           (VStr "ff0000") new_world); reflexivity.
Defined.

(** The colours [D73A4A] and [d73a4a] are the same hexadecimal number and
    the descriptions are the same, yet the label is sent again and counts as
    updated, not as skipped. *)
Lemma same_colour_in_capitals_is_updated :
  let w := snd (Labels.create_label two_labels false "octo/demo" bug_in_capitals new_world) in
  on_get two_labels [] "/repos/octo/demo/labels/bug" = Reply remote_bug
  /\ lower "D73A4A" = lower "d73a4a"
  /\ get remote_bug "description" (VStr "") = get bug_in_capitals "description" (VStr "")
  /\ calls w = [GET "/repos/octo/demo/labels/bug";
                PATCH "/repos/octo/demo/labels/bug" bug_in_capitals]
  /\ updated (stats (label_manager w)) = 1%nat
  /\ skipped (stats (label_manager w)) = 0%nat.
Proof. by_computation. Qed.

(** C1 at the repository that already has [bug] and [v1] as declared. *)
Lemma second_pass_skips_labels_and_updates_milestones_witness :
  let endpoint := "/repos/octo/demo/labels/bug" in
  let listing := PAGINATE "/repos/octo/demo/milestones" {["state" := VStr "all"]} in
  let copy := <["due_on" := VStr "2025-05-04T23:59:59Z"]> v1 in
  let update := PATCH "/repos/octo/demo/milestones/1" copy in
  on_get converged (calls new_world) endpoint = Reply remote_bug
  /\ Labels.needs_update remote_bug bug = Ok false
  /\ Milestones.convert_due_on v1 = Ok copy
  /\ on_paginate converged (calls new_world) "/repos/octo/demo/milestones"
       {["state" := VStr "all"]} = Reply ([] ++ remote_v1 :: [])%list
  /\ Forall (other_title (get v1 "title" (VStr "Unknown"))) []
  /\ same_title (get v1 "title" (VStr "Unknown")) (VInt 1) remote_v1
  /\ on_write converged (calls new_world ++ [listing]) update = Reply tt
  /\ Labels.create_label converged true "octo/demo" bug new_world
     = (Ok true,
        set_label_manager (inc_skipped (label_manager new_world))
          (Client.record (GET endpoint) new_world))
  /\ Milestones.create_milestone converged false "octo/demo" v1 new_world
     = (Ok true,
        set_milestone_manager (inc_updated (inc_success_count (milestone_manager new_world)))
          (Client.record update (Client.record listing new_world))).
Proof.
  assert (Hsame : same_title (get v1 "title" (VStr "Unknown")) (VInt 1) remote_v1).
  { split; [exists (VStr "v1"); split; reflexivity | reflexivity]. }
  intros endpoint listing copy update.
  do 7 (split; [first [exact Hsame | reflexivity | constructor]|]).
  exact (second_pass_skips_labels_and_updates_milestones converged true "octo/demo"
           bug remote_bug v1 copy remote_v1 [] [] (VInt 1) new_world
           eq_refl eq_refl eq_refl eq_refl (List.Forall_nil _) Hsame eq_refl).
Defined.

(** The remote milestone already has the declared title, description and due
    date, yet the second pass sends it again and counts it as updated. *)
Lemma matching_milestone_is_updated_again :
  let w := snd (Milestones.create_milestone converged false "octo/demo" v1 new_world) in
  on_paginate converged [] "/repos/octo/demo/milestones" {["state" := VStr "all"]}
  = Reply [remote_v1]
  /\ Milestones.convert_due_on v1 = Ok (<["due_on" := VStr "2025-05-04T23:59:59Z"]> v1)
  /\ get remote_v1 "title" VNone = get v1 "title" VNone
  /\ get remote_v1 "description" VNone = get v1 "description" VNone
  /\ get remote_v1 "due_on" VNone = VStr "2025-05-04T23:59:59Z"
  /\ calls w = [PAGINATE "/repos/octo/demo/milestones" {["state" := VStr "all"]};
                PATCH "/repos/octo/demo/milestones/1"
                  (<["due_on" := VStr "2025-05-04T23:59:59Z"]> v1)]
  /\ updated (stats (milestone_manager w)) = 1%nat
  /\ skipped (stats (milestone_manager w)) = 0%nat.
Proof. by_computation. Qed.

(** C3 at the milestone whose due date reads [next spring]: created in the
    repository where it is missing, patched where it is listed, both with
    that text as [due_on]. *)
Lemma unparseable_due_on_is_sent_as_written_witness :
  let listing := PAGINATE "/repos/octo/demo/milestones" {["state" := VStr "all"]} in
  let create := POST "/repos/octo/demo/milestones" someday in
  let update := PATCH "/repos/octo/demo/milestones/2" someday in
  someday !! "due_on" = Some (VStr "next spring")
  /\ "next spring" <> ""
  /\ Forall (fun date_format => Datetime.strptime_str "next spring" date_format = None)
       Milestones.date_formats
  /\ on_paginate appearing (calls new_world) "/repos/octo/demo/milestones"
       {["state" := VStr "all"]} = Reply []
  /\ on_write appearing (calls new_world ++ [listing]) create = Reply tt
  /\ on_paginate appearing (calls after_one_request) "/repos/octo/demo/milestones"
       {["state" := VStr "all"]} = Reply ([] ++ remote_v2 :: [])%list
  /\ same_title (get someday "title" (VStr "Unknown")) (VInt 2) remote_v2
  /\ Milestones.create_milestone appearing false "octo/demo" someday new_world
     = (Ok true,
        set_milestone_manager (inc_created (inc_success_count (milestone_manager new_world)))
          (Client.record create (Client.record listing new_world)))
  /\ calls (snd (Milestones.create_milestone appearing false "octo/demo" someday
                   after_one_request))
     = (calls after_one_request ++ [listing; update])%list.
Proof.
  intros listing create update.
  assert (Hsame : same_title (get someday "title" (VStr "Unknown")) (VInt 2) remote_v2).
  { split; [exists (VStr "v2"); split; reflexivity | reflexivity]. }
  assert (Hnone : Forall (fun date_format =>
                            Datetime.strptime_str "next spring" date_format = None)
                    Milestones.date_formats).
  { repeat constructor. }
  assert (Hs : "next spring" <> "") by discriminate.
  do 7 (split; [first [exact Hsame | exact Hnone | exact Hs | reflexivity]|]).
  exact (unparseable_due_on_is_sent_as_written appearing "octo/demo" someday "next spring"
           [] new_world [] [] remote_v2 (VInt 2) after_one_request
           eq_refl Hs Hnone eq_refl (List.Forall_nil _) eq_refl eq_refl
           (List.Forall_nil _) Hsame).
Defined.

(** C4 at a dry run over a configuration with one secret. *)
Lemma dry_run_still_writes_secrets_witness :
  let key_endpoint := "/repos/octo/demo/actions/secrets/public-key" in
  let upsert :=
    PUT "/repos/octo/demo/actions/secrets/TOKEN"
      (<["encrypted_value" := VStr "c2VhbGVk"]>
         {["key_id" := VStr "568250167242549743"]}) in
  let config :=
    {| repositories := None; milestones := None; labels := None; secrets := Some [token] |} in
  dry_run dry_run_only = true
  /\ token !! "name" = Some (VStr "TOKEN")
  /\ token !! "value" = Some (VStr "s3cret")
  /\ on_get with_key (calls new_world) key_endpoint = Reply public_key
  /\ public_key !! "key" = Some (VStr "2Sg8iYjAxxmI2LvUXpJjkYrMxURPc8r+dB7TJyvvcCU=")
  /\ public_key !! "key_id" = Some (VStr "568250167242549743")
  /\ seal with_key (calls new_world ++ [GET key_endpoint])
       (VStr "2Sg8iYjAxxmI2LvUXpJjkYrMxURPc8r+dB7TJyvvcCU=") (VStr "s3cret")
     = Some "c2VhbGVk"
  /\ calls (snd (apply_config_to_repository with_key dry_run_only "octo/demo" config
                   new_world))
     = (calls new_world ++ [GET key_endpoint; upsert])%list
  /\ is_write upsert = true.
Proof.
  intros key_endpoint upsert config.
  do 7 (split; [reflexivity|]).
  exact (dry_run_still_writes_secrets with_key dry_run_only "octo/demo" token public_key
           (VStr "TOKEN") (VStr "s3cret")
           (VStr "2Sg8iYjAxxmI2LvUXpJjkYrMxURPc8r+dB7TJyvvcCU=")
           (VStr "568250167242549743") "c2VhbGVk" new_world
           eq_refl eq_refl eq_refl eq_refl eq_refl eq_refl eq_refl).
Defined.




(** C7 at the repository whose label is [Bug] when [bug] is declared: the
    POST is answered with 422. *)
Lemma failed_creation_is_never_recovered_witness :
  let endpoint := "/repos/octo/demo/labels/bug" in
  let create := POST "/repos/octo/demo/labels" bug in
  on_get case_variant (calls new_world) endpoint = Failure (Some {| status_code := 404 |})
  /\ on_write case_variant (calls new_world ++ [GET endpoint]) create
     = Failure (Some {| status_code := 422 |})
  /\ Labels.create_label case_variant false "octo/demo" bug new_world
     = (Ok false,
        set_label_manager (inc_failed (inc_error_count (label_manager new_world)))
          (Client.record create (Client.record (GET endpoint) new_world))).
Proof.
  intros endpoint create.
  do 2 (split; [reflexivity|]).
  exact (failed_creation_is_never_recovered case_variant "octo/demo" bug new_world
           (Some {| status_code := 404 |}) (Some {| status_code := 422 |})
           eq_refl eq_refl).
Defined.

(** The spec's scenarios. *)
Example first_application_creates_the_label :
  let w := snd (Labels.create_label empty_repository false "octo/demo" bug new_world) in
  calls w = [GET "/repos/octo/demo/labels/bug"; POST "/repos/octo/demo/labels" bug]
  /\ created (stats (label_manager w)) = 1%nat.
Proof. by_computation. Qed.

Example second_application_skips_the_label :
  let w := snd (Labels.create_label two_labels false "octo/demo" bug new_world) in
  calls w = [GET "/repos/octo/demo/labels/bug"]
  /\ stats (label_manager w)
     = {| created := 0; updated := 0; removed := 0; failed := 0; skipped := 1 |}.
Proof. by_computation. Qed.

Example milestone_created_with_normalized_due_date :
  calls (snd (Milestones.create_milestone empty_repository false "octo/demo" v1 new_world))
  = [PAGINATE "/repos/octo/demo/milestones" {["state" := VStr "all"]};
     POST "/repos/octo/demo/milestones" (<["due_on" := VStr "2025-05-04T23:59:59Z"]> v1)].
Proof. by_computation. Qed.

Example eight_forms_of_one_date :
  map (fun s => Milestones._format_due_date (VStr s))
    ["2025-05-04"; "2025/05/04"; "04-05-2025"; "04/05/2025";
     "May 04, 2025"; "May 04, 2025"; "04 May 2025"; "04 May 2025";
     "Sep 30, 1999"; "September 30, 1999"; "30 Sep 1999"; "30 September 1999"]
  = map (fun s => Ok (VStr s))
      ["2025-05-04T23:59:59Z"; "2025-05-04T23:59:59Z"; "2025-05-04T23:59:59Z";
       "2025-05-04T23:59:59Z"; "2025-05-04T23:59:59Z"; "2025-05-04T23:59:59Z";
       "2025-05-04T23:59:59Z"; "2025-05-04T23:59:59Z";
       "1999-09-30T23:59:59Z"; "1999-09-30T23:59:59Z"; "1999-09-30T23:59:59Z";
       "1999-09-30T23:59:59Z"].
Proof. vm_compute. reflexivity. Qed.

End Instances.

(** * Further reasoning about runs, dates and pages *)

Ltac effect_case b :=
  exists b; eexists; unfold item_effect;
  split; [reflexivity | simpl; split; [tauto | reflexivity]].

Section EffectFacts.
Import Config Configurator.
Variable api : server.

Lemma needs_update_raises a b e :
  Labels.needs_update a b = Raise e -> e = AttributeError.
Proof.
  unfold Labels.needs_update.
  destruct (get b "color" (VStr "")); simpl; try discriminate; intros [= <-]; reflexivity.
Qed.

Lemma create_label_effect dry_run repo label_data w :
  exists ok w',
    Labels.create_label api dry_run repo label_data w = (Ok ok, w')
    /\ item_effect dry_run (label_manager w) ok (label_manager w')
    /\ milestone_manager w' = milestone_manager w.
Proof.
  unfold Labels.create_label, Labels.check_existing. run_monad.
  destruct (on_get api (calls w) _) as [existing|response]; cbv iota beta.
  - destruct (Labels.needs_update existing label_data) as [[]|e] eqn:E; cbv iota beta.
    + destruct dry_run; cbv iota beta.
      * effect_case true.
      * cbn [calls Client.record set_calls].
        destruct (on_write api _ (PATCH _ _)) as [[]|r]; cbv iota beta.
        -- effect_case true.
        -- cbv [negb]. rewrite label_create_new_run.
           destruct (on_write api _ (POST _ _)) as [[]|r2]; cbv iota beta.
           ++ effect_case true.
           ++ effect_case false.
    + effect_case true.
    + rewrite (needs_update_raises _ _ _ E). effect_case false.
  - destruct dry_run; cbv iota beta.
    + effect_case true.
    + cbv [negb]. rewrite label_create_new_run.
      destruct (on_write api _ (POST _ _)) as [[]|r2]; cbv iota beta.
      * effect_case true.
      * effect_case false.
Qed.

Lemma convert_due_on_raises d e :
  Milestones.convert_due_on d = Raise e -> e = TypeError.
Proof.
  unfold Milestones.convert_due_on.
  destruct (_ && _); [|discriminate].
  unfold Milestones._format_due_date.
  destruct (negb _); [discriminate|].
  assert (H : forall fs e',
             Milestones.try_formats (get d "due_on" VNone) fs = Raise e' ->
             e' = ValueError \/ e' = TypeError).
  { induction fs as [|f fs IH]; simpl; intros e'.
    - intros [= <-]. auto.
    - unfold Datetime.strptime.
      destruct (get d "due_on" VNone); try (intros [= <-]; auto).
      destruct (Datetime.strptime_str s f); [discriminate | apply IH]. }
  destruct (Milestones.try_formats _ _) as [v|e'] eqn:E; [discriminate|].
  destruct (H _ _ E) as [-> | ->]; [discriminate|].
  intros [= <-]. reflexivity.
Qed.

Lemma find_existing_cons dry_run repo title copy existing rest w :
  Milestones.find_existing api dry_run repo title copy (existing :: rest) w
  = match existing !! "title" with
    | Some t =>
        if py_eqb t title then
          match existing !! "number" with
          | Some n =>
              (do b <- Milestones.update_existing api dry_run repo n copy; ret (Some b)) w
          | None => (Raise KeyError, w)
          end
        else Milestones.find_existing api dry_run repo title copy rest w
    | None => (Raise KeyError, w)
    end.
Proof.
  simpl. unfold bind at 1, lift, getitem.
  destruct (existing !! "title") as [t|]; [|reflexivity].
  destruct (py_eqb t title); [|reflexivity].
  unfold bind at 1. destruct (existing !! "number"); reflexivity.
Qed.

Lemma find_existing_effect dry_run repo title copy l w :
  let r := Milestones.find_existing api dry_run repo title copy l w in
  (fst r = Ok None /\ snd r = w)
  \/ (fst r = Raise KeyError /\ snd r = w)
  \/ (exists ok,
         fst r = Ok (Some ok)
         /\ item_effect dry_run (milestone_manager w) ok (milestone_manager (snd r))
         /\ label_manager (snd r) = label_manager w).
Proof.
  induction l as [|existing rest IH]; intros r; subst r.
  - left. split; reflexivity.
  - rewrite find_existing_cons.
    destruct (existing !! "title") as [t|]; [|right; left; split; reflexivity].
    destruct (py_eqb t title); [|exact IH].
    destruct (existing !! "number") as [n|]; [|right; left; split; reflexivity].
    right. right. unfold Milestones.update_existing.
    destruct dry_run; run_monad; cbv [negb].
    + exists true. unfold item_effect. simpl. split; [reflexivity | split; [tauto | reflexivity]].
    + destruct (on_write api _ _) as [[]|r]; cbv iota beta.
      * exists true. unfold item_effect. simpl.
        split; [reflexivity | split; [tauto | reflexivity]].
      * exists false. unfold item_effect. simpl.
        split; [reflexivity | split; [tauto | reflexivity]].
Qed.

Lemma create_milestone_effect dry_run repo milestone_data w :
  exists ok w',
    Milestones.create_milestone api dry_run repo milestone_data w = (Ok ok, w')
    /\ item_effect dry_run (milestone_manager w) ok (milestone_manager w')
    /\ label_manager w' = label_manager w.
Proof.
  unfold Milestones.create_milestone.
  unfold try_except at 1, bind at 1, lift.
  destruct (Milestones.convert_due_on milestone_data) as [copy|e] eqn:E.
  2:{ rewrite (convert_due_on_raises _ _ E). run_monad. effect_case false. }
  unfold bind at 1, try_except at 1, bind at 1, Client.paginate.
  destruct (on_paginate api (calls w) _ _) as [items|response];
    unfold raise_for_status at 1; cbv iota beta.
  - destruct (find_existing_effect dry_run repo (get milestone_data "title" (VStr "Unknown"))
                copy items (Client.record
                              (PAGINATE ("/repos/" +:+ repo +:+ "/milestones")
                                 {["state" := VStr "all"]}) w))
      as [[H1 H2] | [[H1 H2] | (ok & H1 & H2 & H3)]];
      destruct (Milestones.find_existing _ _ _ _ _ _ _) as [r w1];
      simpl in H1; subst r.
    + simpl in H2. subst w1.
      destruct dry_run; [run_monad; effect_case true|].
      destruct (Milestones.due_on_is_None copy); [run_monad; effect_case false|].
      rewrite milestone_create_new_run.
      destruct (on_write api _ _) as [[]|r]; run_monad.
      * effect_case true.
      * effect_case false.
    + simpl in H2. subst w1. run_monad. effect_case false.
    + simpl in H2, H3. run_monad. exists ok, w1. auto.
  - unfold is_RequestException, ret.
    destruct dry_run; [run_monad; effect_case true|].
    destruct (Milestones.due_on_is_None copy); [run_monad; effect_case false|].
    rewrite milestone_create_new_run.
    destruct (on_write api _ _) as [[]|r]; run_monad.
    * effect_case true.
    * effect_case false.
Qed.

End EffectFacts.

Section SyncEffects.
Import Config Configurator.
Variable api : server.

Lemma after_sync_none m : after_sync 0 0 m = m.
Proof. destruct m as [[] ? ?]. reflexivity. Qed.

Lemma after_sync_removed r e m :
  after_sync r e (inc_removed m) = after_sync (S r) e m.
Proof. unfold after_sync. simpl. rewrite Nat.add_succ_r. reflexivity. Qed.

Lemma after_sync_error r e m :
  after_sync r e (inc_error_count m) = after_sync r (S e) m.
Proof. unfold after_sync. simpl. rewrite Nat.add_succ_r. reflexivity. Qed.

Lemma label_remove_unconfigured_effect dry_run repo configured l success w :
  exists ok w' removals failures,
    Labels.remove_unconfigured api dry_run repo configured l success w = (Ok ok, w')
    /\ label_manager w' = after_sync removals failures (label_manager w)
    /\ milestone_manager w' = milestone_manager w
    /\ ok = success && (failures =? 0)%nat
    /\ (removals + failures)%nat
       = (if dry_run then 0 else length (undeclared_labels configured l))%nat.
Proof.
  revert success w. induction l as [|label rest IH]; intros success w.
  - exists success, w, 0%nat, 0%nat. simpl. rewrite after_sync_none, andb_true_r.
    destruct dry_run; auto.
  - cbn [Labels.remove_unconfigured undeclared_labels List.filter].
    fold (undeclared_labels configured rest).
    destruct (negb (py_in _ _)); [|apply IH].
    destruct dry_run; [apply IH|].
    unfold bind at 1, try_except at 1. run_monad.
    destruct (on_write api (calls w) _) as [[]|response]; cbv iota beta.
    + match goal with
      | |- context [Labels.remove_unconfigured _ _ _ _ _ ?s ?w1] =>
          destruct (IH s w1) as (ok & w' & r & e & H1 & H2 & H3 & H4 & H5)
      end.
      exists ok, w', (S r), e. rewrite H1. simpl in H2, H3.
      rewrite H2, H3, after_sync_removed.
      repeat split; auto. destruct (undeclared_labels configured rest); simpl in *; lia.
    + match goal with
      | |- context [Labels.remove_unconfigured _ _ _ _ _ ?s ?w1] =>
          destruct (IH s w1) as (ok & w' & r & e & H1 & H2 & H3 & H4 & H5)
      end.
      exists ok, w', r, (S e). rewrite H1. simpl in H2, H3.
      rewrite H2, H3, after_sync_error. simpl in H4. subst ok.
      repeat split; auto.
      * rewrite andb_false_r. reflexivity.
      * simpl in *. lia.
Qed.

Lemma milestone_remove_unconfigured_effect dry_run repo configured l success w :
  exists ok w' removals failures,
    Milestones.remove_unconfigured api dry_run repo configured l success w = (Ok ok, w')
    /\ milestone_manager w' = after_sync removals failures (milestone_manager w)
    /\ label_manager w' = label_manager w
    /\ ok = success && (failures =? 0)%nat
    /\ (removals + failures)%nat
       = (if dry_run then 0 else length (undeclared_milestones configured l))%nat.
Proof.
  revert success w. induction l as [|milestone rest IH]; intros success w.
  - exists success, w, 0%nat, 0%nat. simpl. rewrite after_sync_none, andb_true_r.
    destruct dry_run; auto.
  - cbn [Milestones.remove_unconfigured undeclared_milestones List.filter].
    fold (undeclared_milestones configured rest).
    destruct (negb (py_in _ _)); [|apply IH].
    destruct dry_run; [apply IH|].
    unfold bind at 1, try_except at 1. run_monad.
    destruct (on_write api (calls w) _) as [[]|response]; cbv iota beta.
    + match goal with
      | |- context [Milestones.remove_unconfigured _ _ _ _ _ ?s ?w1] =>
          destruct (IH s w1) as (ok & w' & r & e & H1 & H2 & H3 & H4 & H5)
      end.
      exists ok, w', (S r), e. rewrite H1. simpl in H2, H3.
      rewrite H2, H3, after_sync_removed.
      repeat split; auto. destruct (undeclared_milestones configured rest); simpl in *; lia.
    + match goal with
      | |- context [Milestones.remove_unconfigured _ _ _ _ _ ?s ?w1] =>
          destruct (IH s w1) as (ok & w' & r & e & H1 & H2 & H3 & H4 & H5)
      end.
      exists ok, w', r, (S e). rewrite H1. simpl in H2, H3.
      rewrite H2, H3, after_sync_error. simpl in H4. subst ok.
      repeat split; auto.
      * rewrite andb_false_r. reflexivity.
      * simpl in *. lia.
Qed.


Lemma sync_repository_labels_effect dry_run repo configured w :
  exists ok w' removals failures,
    Labels.sync_repository_labels api dry_run repo configured w = (Ok ok, w')
    /\ label_manager w' = after_sync removals failures (label_manager w)
    /\ milestone_manager w' = milestone_manager w
    /\ ok = (failures =? 0)%nat
    /\ (dry_run = true -> removals = 0%nat)
    /\ (forall all_labels,
          on_paginate api (calls w) ("/repos/" +:+ repo +:+ "/labels") ∅ = Reply all_labels ->
          (removals + failures)%nat
          = (if dry_run then 0 else length (undeclared_labels configured all_labels))%nat).
Proof.
  unfold Labels.sync_repository_labels. run_monad.
  destruct (on_paginate api (calls w) _ _) as [all_labels|response]; cbv iota beta.
  - match goal with
    | |- context [Labels.remove_unconfigured _ _ _ _ ?l ?s ?w1] =>
        destruct (label_remove_unconfigured_effect dry_run repo configured l s w1)
          as (ok & w' & r & e & H1 & H2 & H3 & H4 & H5)
    end.
    rewrite H1. exists ok, w', r, e. simpl in H2, H3.
    split; [reflexivity|]. split; [exact H2|]. split; [exact H3|].
    split; [subst ok; reflexivity|]. split.
    + intros ->. lia.
    + intros l [= <-]. exact H5.
  - exists false. eexists. exists 0%nat, 1%nat.
    split; [reflexivity|]. simpl.
    split; [rewrite <- after_sync_error, after_sync_none; reflexivity|].
    split; [reflexivity|].
    split; [reflexivity|]. split; [reflexivity|]. intros l; discriminate.
Qed.

Lemma sync_repository_milestones_effect dry_run repo configured w :
  exists ok w' removals failures,
    Milestones.sync_repository_milestones api dry_run repo configured w = (Ok ok, w')
    /\ milestone_manager w' = after_sync removals failures (milestone_manager w)
    /\ label_manager w' = label_manager w
    /\ ok = (failures =? 0)%nat
    /\ (dry_run = true -> removals = 0%nat)
    /\ (forall all_milestones,
          on_paginate api (calls w) ("/repos/" +:+ repo +:+ "/milestones")
            {["state" := VStr "all"]} = Reply all_milestones ->
          (removals + failures)%nat
          = (if dry_run then 0
             else length (undeclared_milestones configured all_milestones))%nat).
Proof.
  unfold Milestones.sync_repository_milestones. run_monad.
  destruct (on_paginate api (calls w) _ _) as [all_milestones|response]; cbv iota beta.
  - match goal with
    | |- context [Milestones.remove_unconfigured _ _ _ _ ?l ?s ?w1] =>
        destruct (milestone_remove_unconfigured_effect dry_run repo configured l s w1)
          as (ok & w' & r & e & H1 & H2 & H3 & H4 & H5)
    end.
    rewrite H1. exists ok, w', r, e. simpl in H2, H3.
    split; [reflexivity|]. split; [exact H2|]. split; [exact H3|].
    split; [subst ok; reflexivity|]. split.
    + intros ->. lia.
    + intros l [= <-]. exact H5.
  - exists false. eexists. exists 0%nat, 1%nat.
    split; [reflexivity|]. simpl.
    split; [rewrite <- after_sync_error, after_sync_none; reflexivity|].
    split; [reflexivity|].
    split; [reflexivity|]. split; [reflexivity|]. intros l; discriminate.
Qed.

End SyncEffects.

Section Scores.
Context {A B : Type}.

Lemma scores_ret (a : A) (good : A -> Prop) (before : Prop) :
  (good a -> before) -> scores (ret a) good before.
Proof. intros H w. exists a, w. split; [reflexivity|]. split; [lia|]. auto. Qed.

Lemma scores_bind (m : M A) (k : A -> M B) (mid : A -> Prop) (good : B -> Prop)
    (before : Prop) :
  scores m mid before -> (forall a, scores (k a) good (mid a)) ->
  scores (bind m k) good before.
Proof.
  intros Hm Hk w. unfold bind.
  destruct (Hm w) as (a & w1 & E1 & L1 & G1). rewrite E1.
  destruct (Hk a w1) as (b & w2 & E2 & L2 & G2).
  exists b, w2. split; [exact E2|]. split; [lia|].
  intros Hb. destruct (G2 Hb) as [Ha E]. destruct (G1 Ha) as [Hp E']. split; [exact Hp | lia].
Qed.

Lemma scores_weaken (m : M A) (good good' : A -> Prop) (before before' : Prop) :
  scores m good before -> (forall a, good' a -> good a) -> (before -> before') ->
  scores m good' before'.
Proof.
  intros Hm Hg Hb w. destruct (Hm w) as (a & w1 & E1 & L1 & G1).
  exists a, w1. split; [exact E1|]. split; [exact L1|].
  intros H. destruct (G1 (Hg a H)). auto.
Qed.

Lemma scores_modify (f : world -> world) (good : unit -> Prop) (before : Prop) :
  (forall w, errors (f w) = errors w) -> (good tt -> before) ->
  scores (modify f) good before.
Proof.
  intros Hf Hg w. exists tt, (f w). split; [reflexivity|]. rewrite Hf. split; [lia|]. auto.
Qed.

End Scores.

Section PassFacts.
Import Config Configurator.
Variable api : server.

Lemma scores_for_each {X S} (good : S -> Prop) (l : list X) (body : X -> S -> M S) :
  (forall x s, scores (body x s) good (good s)) ->
  forall s, scores (for_each l s body) good (good s).
Proof.
  intros Hb. induction l as [|x rest IH]; intros s; simpl.
  - apply scores_ret. auto.
  - apply scores_bind with (mid := good); [apply Hb | apply IH].
Qed.

Lemma scores_for_each_from {X S} (good : S -> Prop) (l : list X) (body : X -> S -> M S)
    (s : S) (before : Prop) :
  (good s -> before) ->
  (forall x s, scores (body x s) good (good s)) ->
  scores (for_each l s body) good before.
Proof.
  intros Hs Hb. apply scores_weaken with (good := good) (before := good s); auto.
  apply scores_for_each. exact Hb.
Qed.

Lemma item_effect_errors dry_run m ok m' :
  item_effect dry_run m ok m' ->
  (error_count m + failed (stats m) <= error_count m' + failed (stats m'))%nat
  /\ (ok = true -> (error_count m' + failed (stats m') = error_count m + failed (stats m))%nat).
Proof.
  intros [(_ & _ & ->) | [-> | [(_ & _ & ->) | [(_ & _ & ->) | (-> & ->)]]]];
    simpl; split; try lia; try discriminate; intros _; lia.
Qed.

Lemma create_label_scores dry_run repo label_data :
  scores (Labels.create_label api dry_run repo label_data) (fun ok => ok = true) True.
Proof.
  intros w.
  destruct (create_label_effect api dry_run repo label_data w) as (ok & w' & E & H & F).
  exists ok, w'. split; [exact E|]. unfold errors. rewrite F.
  destruct (item_effect_errors _ _ _ _ H) as [H1 H2].
  split; [lia|]. intros Hok. split; [exact Logic.I|]. specialize (H2 Hok). lia.
Qed.

Lemma create_milestone_scores dry_run repo milestone_data :
  scores (Milestones.create_milestone api dry_run repo milestone_data)
    (fun ok => ok = true) True.
Proof.
  intros w.
  destruct (create_milestone_effect api dry_run repo milestone_data w)
    as (ok & w' & E & H & F).
  exists ok, w'. split; [exact E|]. unfold errors. rewrite F.
  destruct (item_effect_errors _ _ _ _ H) as [H1 H2].
  split; [lia|]. intros Hok. split; [exact Logic.I|]. specialize (H2 Hok). lia.
Qed.

Lemma create_or_update_secret_frame repo secret w :
  exists ok w',
    Secrets.create_or_update_secret api repo secret w = (Ok ok, w')
    /\ label_manager w' = label_manager w
    /\ milestone_manager w' = milestone_manager w
    /\ total_success_count w' = total_success_count w
    /\ total_error_count w' = total_error_count w
    /\ processed_repos w' = processed_repos w.
Proof.
  unfold Secrets.create_or_update_secret, getitem. run_monad.
  assert (Hdone : forall (ok : bool) c,
             exists ok' w',
               (@Ok bool ok, set_calls c w) = (Ok ok', w')
               /\ label_manager w' = label_manager w
               /\ milestone_manager w' = milestone_manager w
               /\ total_success_count w' = total_success_count w
               /\ total_error_count w' = total_error_count w
               /\ processed_repos w' = processed_repos w).
  { intros ok c. exists ok, (set_calls c w). repeat split. }
  destruct (secret !! "name") as [name|]; [|exists false, w; repeat split].
  destruct (secret !! "value") as [v|]; [|exists false, w; repeat split].
  destruct (on_get api (calls w) _) as [response|r]; cbv iota beta; [|apply Hdone].
  destruct (response !! "key") as [key|]; [|apply Hdone].
  destruct (response !! "key_id") as [key_id|]; [|apply Hdone].
  destruct (seal api _ _ _) as [sealed|]; [|apply Hdone].
  destruct (on_write api _ _) as [[]|r]; apply Hdone.
Qed.

Lemma create_or_update_secret_scores repo secret :
  scores (Secrets.create_or_update_secret api repo secret) (fun ok => ok = true) True.
Proof.
  intros w.
  destruct (create_or_update_secret_frame repo secret w) as (ok & w' & E & L & M & _).
  exists ok, w'. split; [exact E|]. unfold errors. rewrite L, M. split; [lia|]. auto.
Qed.

(** One item of a loop of [apply_config_to_repository]: [success] stays
    true only if the manager answered true. *)
Lemma scores_item {S} (op : M bool) (body : M S) (good : S -> Prop) (before : Prop) :
  scores op (fun ok => ok = true) True ->
  (forall w ok w',
      op w = (Ok ok, w') ->
      exists s', body w = (Ok s', w') /\ (good s' -> ok = true /\ before)) ->
  scores body good before.
Proof.
  intros Hop Hbody w. destruct (Hop w) as (ok & w' & E & L & G).
  destruct (Hbody w ok w' E) as (s' & E' & H).
  exists s', w'. split; [exact E'|]. split; [exact L|].
  intros Hs. destruct (H Hs) as [Hok Hb]. destruct (G Hok). auto.
Qed.

Lemma apply_items_scores self repo config :
  scores (apply_items api self repo config) (fun applied => fst (fst applied) = true) True.
Proof.
  unfold apply_items.
  apply scores_bind with (mid := fun p : bool * list value => fst p = true).
  { destruct (milestones config) as [l|]; [|apply scores_ret; auto].
    apply (scores_for_each_from (fun p : bool * list value => fst p = true)); [auto|].
    intros x [success configured].
    apply (scores_item
             (Milestones.create_milestone api (dry_run self) repo x));
      [apply create_milestone_scores|].
    intros w ok w' E. unfold bind. rewrite E. eexists. split; [reflexivity|].
    destruct ok; simpl; auto; discriminate. }
  intros [success1 titles].
  apply scores_bind with (mid := fun p : bool * list value => fst p = true).
  { destruct (labels config) as [l|]; [|apply scores_ret; auto].
    apply (scores_for_each_from (fun p : bool * list value => fst p = true)); [auto|].
    intros x [success configured].
    apply (scores_item (Labels.create_label api (dry_run self) repo x));
      [apply create_label_scores|].
    intros w ok w' E. unfold bind. rewrite E. eexists. split; [reflexivity|].
    destruct ok; simpl; auto; discriminate. }
  intros [success2 names].
  apply scores_bind with (mid := fun b : bool => b = true).
  { destruct (secrets config) as [l|]; [|apply scores_ret; auto].
    apply (scores_for_each_from (fun b : bool => b = true)); [auto|].
    intros x success.
    apply (scores_item (Secrets.create_or_update_secret api repo x));
      [apply create_or_update_secret_scores|].
    intros w ok w' E. unfold bind. rewrite E. eexists. split; [reflexivity|].
    destruct ok; simpl; auto; discriminate. }
  intros success3. apply scores_ret. auto.
Qed.

Lemma sync_repository_labels_scores dry_run repo configured :
  scores (Labels.sync_repository_labels api dry_run repo configured)
    (fun ok => ok = true) True.
Proof.
  intros w.
  destruct (sync_repository_labels_effect api dry_run repo configured w)
    as (ok & w' & r & e & E & L & M & Hok & _).
  exists ok, w'. split; [exact E|]. unfold errors. rewrite L, M. simpl.
  split; [lia|]. intros ->. symmetry in Hok. apply Nat.eqb_eq in Hok. subst e.
  split; [exact Logic.I | lia].
Qed.

Lemma sync_repository_milestones_scores dry_run repo configured :
  scores (Milestones.sync_repository_milestones api dry_run repo configured)
    (fun ok => ok = true) True.
Proof.
  intros w.
  destruct (sync_repository_milestones_effect api dry_run repo configured w)
    as (ok & w' & r & e & E & L & M & Hok & _).
  exists ok, w'. split; [exact E|]. unfold errors. rewrite L, M. simpl.
  split; [lia|]. intros ->. symmetry in Hok. apply Nat.eqb_eq in Hok. subst e.
  split; [exact Logic.I | lia].
Qed.

Lemma sync_items_scores self repo config success titles names :
  scores (sync_items api self repo config success titles names)
    (fun ok => ok = true) (success = true).
Proof.
  unfold sync_items.
  apply scores_bind with (mid := fun b : bool => b = true).
  { destruct (_ && _); [|apply scores_ret; auto].
    apply (scores_item
             (Milestones.sync_repository_milestones api (dry_run self) repo titles));
      [apply sync_repository_milestones_scores|].
    intros w ok w' E. unfold bind. rewrite E. eexists. split; [reflexivity|].
    destruct ok; simpl; auto; discriminate. }
  intros success1.
  apply scores_bind with (mid := fun b : bool => b = true).
  { destruct (_ && _); [|apply scores_ret; auto].
    apply (scores_item
             (Labels.sync_repository_labels api (dry_run self) repo names));
      [apply sync_repository_labels_scores|].
    intros w ok w' E. unfold bind. rewrite E. eexists. split; [reflexivity|].
    destruct ok; simpl; auto; discriminate. }
  intros success2. apply scores_ret. auto.
Qed.

Lemma apply_config_to_repository_scores self repo config :
  scores (apply_config_to_repository api self repo config) (fun ok => ok = true) True.
Proof.
  unfold apply_config_to_repository.
  apply scores_bind
    with (mid := fun applied : bool * list value * list value => fst (fst applied) = true).
  - apply apply_items_scores.
  - intros [[success titles] names]. apply sync_items_scores.
Qed.

(** The loop of [apply_config] and what follows it. *)
Lemma apply_config_loop_scores self config repositories :
  scores
    (do success <-
       for_each repositories true
         (fun repo success =>
            do _ <- modify (add_processed_repo repo);
            do ok <- apply_config_to_repository api self repo config;
            ret (if negb ok then false else success));
     do _ <- modify update_totals;
     ret (if success then 0 else 1))
    (fun code => code = 0) True.
Proof.
  apply scores_bind with (mid := fun b : bool => b = true).
  - apply (scores_for_each_from (fun b : bool => b = true)); [auto|].
    intros repo success.
    apply scores_bind with (mid := fun _ : unit => success = true).
    { apply scores_modify; auto. }
    intros _.
    apply (scores_item (apply_config_to_repository api self repo config));
      [apply apply_config_to_repository_scores|].
    intros w ok w' E. unfold bind. rewrite E. eexists. split; [reflexivity|].
    destruct ok; simpl; auto; discriminate.
  - intros success.
    apply scores_bind with (mid := fun _ : unit => success = true).
    { apply scores_modify; auto. }
    intros _. apply scores_ret. destruct success; [auto | discriminate].
Qed.

End PassFacts.

Section RunFacts.
Import Config Configurator.
Variable api : server.

(** *** The counters stay consistent *)

Lemma item_effect_consistent dry_run m ok m' :
  item_effect dry_run m ok m' -> consistent m -> consistent m'.
Proof.
  unfold consistent.
  intros [(_ & _ & ->) | [-> | [(_ & _ & ->) | [(_ & _ & ->) | (_ & ->)]]]];
    simpl; lia.
Qed.

Lemma after_sync_consistent r e m : consistent m -> consistent (after_sync r e m).
Proof. unfold consistent. simpl. lia. Qed.

Lemma create_label_consistent dry_run repo label_data :
  preserves consistent_managers (Labels.create_label api dry_run repo label_data).
Proof.
  intros w [Hl Hm].
  destruct (create_label_effect api dry_run repo label_data w) as (ok & w' & E & H & F).
  rewrite E. simpl. split; [|rewrite F; exact Hm].
  exact (item_effect_consistent _ _ _ _ H Hl).
Qed.

Lemma create_milestone_consistent dry_run repo milestone_data :
  preserves consistent_managers (Milestones.create_milestone api dry_run repo milestone_data).
Proof.
  intros w [Hl Hm].
  destruct (create_milestone_effect api dry_run repo milestone_data w)
    as (ok & w' & E & H & F).
  rewrite E. simpl. split; [rewrite F; exact Hl|].
  exact (item_effect_consistent _ _ _ _ H Hm).
Qed.

Lemma create_or_update_secret_consistent repo secret :
  preserves consistent_managers (Secrets.create_or_update_secret api repo secret).
Proof.
  intros w [Hl Hm].
  destruct (create_or_update_secret_frame api repo secret w) as (ok & w' & E & L & M & _).
  rewrite E. simpl. split; [rewrite L; exact Hl | rewrite M; exact Hm].
Qed.

Lemma sync_repository_labels_consistent dry_run repo configured :
  preserves consistent_managers (Labels.sync_repository_labels api dry_run repo configured).
Proof.
  intros w [Hl Hm].
  destruct (sync_repository_labels_effect api dry_run repo configured w)
    as (ok & w' & r & e & E & L & M & _).
  rewrite E. simpl. split; [rewrite L; apply after_sync_consistent, Hl | rewrite M; exact Hm].
Qed.

Lemma sync_repository_milestones_consistent dry_run repo configured :
  preserves consistent_managers
    (Milestones.sync_repository_milestones api dry_run repo configured).
Proof.
  intros w [Hl Hm].
  destruct (sync_repository_milestones_effect api dry_run repo configured w)
    as (ok & w' & r & e & E & L & M & _).
  rewrite E. simpl. split; [rewrite M; exact Hl | rewrite L; apply after_sync_consistent, Hm].
Qed.

Lemma consistent_ignores_calls : ignores_calls consistent_managers.
Proof. intros c w H. exact H. Qed.

Lemma apply_config_to_repository_consistent self repo config :
  preserves consistent_managers (apply_config_to_repository api self repo config).
Proof.
  unfold apply_config_to_repository, apply_items, sync_items.
  repeat first
    [ apply preserves_for_each; intros ? ?
    | apply create_milestone_consistent
    | apply create_label_consistent
    | apply create_or_update_secret_consistent
    | apply sync_repository_milestones_consistent
    | apply sync_repository_labels_consistent
    | preserves_step ].
Qed.

Lemma main_consistent self parsed :
  preserves consistent_managers (main api self parsed).
Proof.
  pose proof consistent_ignores_calls.
  unfold main, apply_config, get_repositories.
  repeat first
    [ apply preserves_for_each; intros ? ?
    | apply apply_config_to_repository_consistent
    | preserves_step ]; assumption.
Qed.

Lemma apply_config_to_repository_returns self repo config :
  returns (apply_config_to_repository api self repo config).
Proof.
  intros w.
  destruct (apply_config_to_repository_scores api self repo config w) as (ok & w' & E & _).
  exists ok. rewrite E. reflexivity.
Qed.

(** The loop of [apply_config] returns. *)
Lemma apply_config_loop_returns self config repositories (success : bool) :
  returns
    (for_each repositories success
       (fun repo success =>
          do _ <- modify (add_processed_repo repo);
          do ok <- apply_config_to_repository api self repo config;
          ret (if negb ok then false else success))).
Proof.
  apply returns_for_each. intros repo s.
  apply returns_bind; [apply returns_modify | intros _].
  apply returns_bind; [apply apply_config_to_repository_returns | intros ok].
  apply returns_ret.
Qed.

(** [main] up to the loop of [apply_config]: the run ends with the exit of
    a failed validation or of a failed listing of the repositories, or goes
    on to the loop with the requests made so far. *)
Lemma main_runs self parsed w :
  (exists c, main api self parsed w = (Raise (SystemExit 1), set_calls c w))
  \/ (exists config repos c,
         load_config parsed = Ok config
         /\ get_repositories api self config w = (Ok repos, set_calls c w)
         /\ main api self parsed w
            = (do success <-
                 for_each repos true
                   (fun repo success =>
                      do _ <- modify (add_processed_repo repo);
                      do ok <- apply_config_to_repository api self repo config;
                      ret (if negb ok then false else success));
               do _ <- modify update_totals;
               ret (if success then 0 else 1)) (set_calls c w)).
Proof.
  assert (Hload : load_config parsed = Raise (SystemExit 1)
                  \/ exists config, load_config parsed = Ok config).
  { unfold load_config. destruct (validate_config parsed); eauto. }
  destruct Hload as [E | (config & E)].
  { left. exists (calls w). unfold main, bind, lift. rewrite E. destruct w; reflexivity. }
  assert (G : (exists c, get_repositories api self config w
                         = (Raise (SystemExit 1), set_calls c w))
              \/ (exists repos c, get_repositories api self config w
                                  = (Ok repos, set_calls c w))).
  { unfold get_repositories.
    assert (R : forall repos : list string,
               exists repos' c,
                 ret repos w = (@Ok (list string) repos', set_calls c w)).
    { intros repos. exists repos, (calls w). destruct w; reflexivity. }
    assert (L : (exists c, Client.get_repositories api (organization self) w
                           = (Raise (SystemExit 1), set_calls c w))
                \/ (exists repos c, Client.get_repositories api (organization self) w
                                    = (Ok repos, set_calls c w))).
    { unfold Client.get_repositories, Client.record.
      destruct (on_list_repos api _ _); simpl; eauto. }
    destruct (repositories config) as [[|r rs]|]; try exact L.
    destruct (organization self) as [[|]|]; right; apply R. }
  destruct G as [(c & G) | (repos & c & G)].
  - left. exists c. unfold main, apply_config. run_monad. rewrite E, G. reflexivity.
  - right. exists config, repos, c. split; [exact E|]. split; [exact G|].
    unfold main, apply_config. unfold bind at 1, lift. rewrite E.
    unfold bind at 1. rewrite G. reflexivity.
Qed.

(** How [main] ends: with an exit of status 1 that leaves the counters
    alone, or with the value of [apply_config] once the totals are set. *)
Lemma main_ends self parsed w :
  (exists c, main api self parsed w = (Raise (SystemExit 1), set_calls c w))
  \/ (exists (success : bool) w2,
         main api self parsed w = (Ok (if success then 0 else 1), update_totals w2)).
Proof.
  destruct (main_runs self parsed w) as [H | (config & repos & c & _ & _ & H)]; [left; exact H|].
  right. rewrite H.
  destruct (apply_config_loop_returns self config repos true (set_calls c w))
    as (success & Hs).
  unfold bind at 1.
  destruct (for_each repos true _ (set_calls c w)) as [r w2] eqn:F.
  simpl in Hs. subst r. exists success, w2. reflexivity.
Qed.

End RunFacts.

Section Outcomes.
Import Config Configurator.
Variable api : server.












End Outcomes.

Section RequestFacts.
Import Config Configurator.
Variable api : server.

Lemma not_write_no_write_but_put r : not_write r -> no_write_but_put r.
Proof. destruct r; simpl; intros H; try exact Logic.I; discriminate H. Qed.

Lemma create_or_update_secret_emits_put repo secret :
  emits no_write_but_put (Secrets.create_or_update_secret api repo secret).
Proof.
  unfold Secrets.create_or_update_secret.
  repeat emits_step; exact Logic.I.
Qed.

Lemma apply_config_to_repository_dry_run_emits self repo config :
  dry_run self = true ->
  emits no_write_but_put (apply_config_to_repository api self repo config).
Proof.
  destruct self as [org dry sl sm]. simpl. intros ->.
  unfold apply_config_to_repository, apply_items, sync_items. simpl.
  repeat first
    [ apply emits_for_each; intros ? ?
    | apply (emits_weaken _ not_write); [exact not_write_no_write_but_put|];
      first [ apply create_milestone_dry_run_emits
            | apply create_label_dry_run_emits
            | apply sync_milestones_dry_run_emits
            | apply sync_labels_dry_run_emits ]
    | apply create_or_update_secret_emits_put
    | emits_step ].
Qed.

Lemma main_dry_run_emits self parsed :
  dry_run self = true -> emits no_write_but_put (main api self parsed).
Proof.
  intros Hdry. unfold main, apply_config, get_repositories.
  repeat first
    [ apply emits_for_each; intros ? ?
    | apply apply_config_to_repository_dry_run_emits; exact Hdry
    | emits_step ]; exact Logic.I.
Qed.

Lemma main_without_sync_emits self parsed :
  sync_labels self = false -> sync_milestones self = false ->
  emits not_delete (main api self parsed).
Proof.
  destruct self as [org dry sl sm]. simpl. intros -> ->.
  unfold main, apply_config, get_repositories, apply_config_to_repository, sync_items.
  simpl.
  repeat first
    [ apply emits_for_each; intros ? ?
    | apply apply_items_emits_no_delete
    | emits_step ]; reflexivity.
Qed.

(** *** The repositories of a run *)

Section KeepsRepos.
Variable X : gset string.












End KeepsRepos.



Lemma has_slash_app (org repo : string) : has_slash (org +:+ "/" +:+ repo) = true.
Proof.
  induction org as [|a org IH]; simpl.
  - reflexivity.
  - rewrite IH. apply orb_true_r.
Qed.

End RequestFacts.

Section MoreRuns.
Import Config Configurator.
Variable api : server.

(** A listing of the milestones that fails, without dry-run: the milestone
    is created all the same, unless its [due_on] is [None]. *)
Lemma create_milestone_unlisted_run repo milestone_data copy response w :
  let listing := PAGINATE ("/repos/" +:+ repo +:+ "/milestones") {["state" := VStr "all"]} in
  Milestones.convert_due_on milestone_data = Ok copy ->
  on_paginate api (calls w) ("/repos/" +:+ repo +:+ "/milestones") {["state" := VStr "all"]}
  = Failure response ->
  Milestones.create_milestone api false repo milestone_data w
  = if Milestones.due_on_is_None copy
    then (Ok false,
          set_milestone_manager (inc_skipped (milestone_manager w)) (Client.record listing w))
    else
      match on_write api (calls w ++ [listing])
              (POST ("/repos/" +:+ repo +:+ "/milestones") copy) with
      | Reply _ =>
          (Ok true,
           set_milestone_manager
             (inc_created (inc_success_count (milestone_manager w)))
             (Client.record (POST ("/repos/" +:+ repo +:+ "/milestones") copy)
                (Client.record listing w)))
      | Failure _ =>
          (Ok false,
           set_milestone_manager
             (inc_failed (inc_error_count (milestone_manager w)))
             (Client.record (POST ("/repos/" +:+ repo +:+ "/milestones") copy)
                (Client.record listing w)))
      end.
Proof.
  intros listing Hcopy Hlist.
  unfold Milestones.create_milestone.
  unfold try_except at 1, bind at 1, lift. rewrite Hcopy.
  unfold bind at 1, try_except at 1, bind at 1, Client.paginate.
  rewrite Hlist. unfold raise_for_status at 1. cbv iota beta.
  unfold is_RequestException, ret.
  destruct (Milestones.due_on_is_None copy); [reflexivity|].
  rewrite milestone_create_new_run.
  subst listing. cbn [calls Client.record set_calls].
  destruct (on_write api _ _) as [[]|r]; reflexivity.
Qed.

(** A listed milestone without a title, before any of the declared title:
    the lookup ends with a [KeyError]. *)
Lemma find_existing_untitled dry_run repo title copy before existing after w :
  Forall (other_title title) before ->
  existing !! "title" = None ->
  Milestones.find_existing api dry_run repo title copy (before ++ existing :: after) w
  = (Raise KeyError, w).
Proof.
  intros Hb Ht. rewrite find_existing_other by exact Hb.
  rewrite find_existing_cons, Ht. reflexivity.
Qed.

Lemma create_milestone_untitled_run dry_run repo milestone_data copy before existing after w :
  let listing := PAGINATE ("/repos/" +:+ repo +:+ "/milestones") {["state" := VStr "all"]} in
  Milestones.convert_due_on milestone_data = Ok copy ->
  on_paginate api (calls w) ("/repos/" +:+ repo +:+ "/milestones") {["state" := VStr "all"]}
  = Reply (before ++ existing :: after)%list ->
  Forall (other_title (get milestone_data "title" (VStr "Unknown"))) before ->
  existing !! "title" = None ->
  Milestones.create_milestone api dry_run repo milestone_data w
  = (Ok false,
     set_milestone_manager (inc_failed (inc_error_count (milestone_manager w)))
       (Client.record listing w)).
Proof.
  intros listing Hcopy Hlist Hbefore Ht.
  unfold Milestones.create_milestone.
  unfold try_except at 1, bind at 1, lift. rewrite Hcopy.
  unfold bind at 1, try_except at 1, bind at 1, Client.paginate.
  rewrite Hlist. unfold raise_for_status at 1. cbv iota beta.
  rewrite (find_existing_untitled _ _ _ _ _ _ _ _ Hbefore Ht).
  reflexivity.
Qed.

(** A label found by name whose PATCH fails, without dry-run: the handler
    of line 100 takes the failure for a missing label and the label is
    posted. *)
Lemma create_label_patch_failed_run repo label_data existing response w :
  let endpoint :=
    "/repos/" +:+ repo +:+ "/labels/" +:+ py_str (get label_data "name" (VStr "Unknown")) in
  let create := POST ("/repos/" +:+ repo +:+ "/labels") label_data in
  on_get api (calls w) endpoint = Reply existing ->
  Labels.needs_update existing label_data = Ok true ->
  on_write api (calls w ++ [GET endpoint]) (PATCH endpoint label_data) = Failure response ->
  Labels.create_label api false repo label_data w
  = match on_write api (calls w ++ [GET endpoint; PATCH endpoint label_data]) create with
    | Reply _ =>
        (Ok true,
         set_label_manager (inc_created (inc_success_count (label_manager w)))
           (Client.record create
              (Client.record (PATCH endpoint label_data) (Client.record (GET endpoint) w))))
    | Failure _ =>
        (Ok false,
         set_label_manager (inc_failed (inc_error_count (label_manager w)))
           (Client.record create
              (Client.record (PATCH endpoint label_data) (Client.record (GET endpoint) w))))
    end.
Proof.
  intros endpoint create Hget Hneeds Hpatch.
  unfold Labels.create_label, Labels.check_existing. fold endpoint.
  run_monad. rewrite Hget. cbv iota beta. rewrite Hneeds. cbv iota beta.
  cbn [calls Client.record set_calls]. rewrite Hpatch. cbv iota beta. cbv [negb].
  rewrite label_create_new_run. fold create.
  cbn [calls Client.record set_calls]. rewrite <- app_assoc. simpl app.
  destruct (on_write api _ create) as [[]|r]; reflexivity.
Qed.

End MoreRuns.

Section EndFacts.
Import Datetime Milestones.











End EndFacts.

Section IsoFacts.
Import Datetime Milestones.







End IsoFacts.

Section PageFacts.
Import Pages.
Variable srv : http_server.

Lemma page_params_again (p : dict) (j k : Z) :
  <["per_page" := VInt 100]> (<["page" := VInt j]>
     (<["per_page" := VInt 100]> (<["page" := VInt k]> p)))
  = <["per_page" := VInt 100]> (<["page" := VInt j]> p).
Proof.
  apply map_eq. intros i.
  destruct (decide (i = "per_page")) as [->|Hpp].
  { rewrite !lookup_insert_eq. reflexivity. }
  destruct (decide (i = "page")) as [->|Hp].
  { rewrite !(lookup_insert_ne _ "per_page" "page") by discriminate.
    rewrite !lookup_insert_eq. reflexivity. }
  rewrite !lookup_insert_ne by congruence. reflexivity.
Qed.

Lemma page_requests_cons endpoint p k n :
  page_requests endpoint p k (S n)
  = page_request endpoint p (Z.of_nat (S k)) :: page_requests endpoint p (S k) n.
Proof. reflexivity. Qed.

(** The loop from the page [k + 1] on. *)
Lemma paginate_loop_collect endpoint (p0 : dict) (rest : list (list dict)) :
  forall (fuel k : nat) (p : dict) (results : list dict) (h : list http_get)
         (last : reply (list dict)),
    (forall j, <["per_page" := VInt 100]> (<["page" := VInt j]> p)
               = <["per_page" := VInt 100]> (<["page" := VInt j]> p0)) ->
    (forall i batch,
        rest !! i = Some batch ->
        batch <> []
        /\ srv (h ++ page_requests endpoint p0 k i)%list
               (page_request endpoint p0 (Z.of_nat (S (k + i)))) = Reply batch) ->
    srv (h ++ page_requests endpoint p0 k (length rest))%list
        (page_request endpoint p0 (Z.of_nat (S (k + length rest)))) = last ->
    ends_a_listing last ->
    (length rest < fuel)%nat ->
    paginate_loop srv fuel endpoint p (Z.of_nat (S k)) results h
    = (Some (outcome last (results ++ concat rest)%list),
       (h ++ page_requests endpoint p0 k (S (length rest)))%list).
Proof.
  induction rest as [|batch rest IH]; intros fuel k p results h last Hp Hrest Hlast Hend Hfuel.
  - destruct fuel as [|fuel]; [simpl in Hfuel; lia|].
    cbn [paginate_loop]. rewrite Hp.
    simpl in Hlast. rewrite app_nil_r, Nat.add_0_r in Hlast.
    change {| url := endpoint;
              params := <["per_page" := VInt 100]> (<["page" := VInt (Z.of_nat (S k))]> p0) |}
      with (page_request endpoint p0 (Z.of_nat (S k))).
    rewrite Hlast. simpl concat. rewrite app_nil_r.
    destruct last as [b|r]; [|reflexivity].
    rewrite (Hend b eq_refl). reflexivity.
  - destruct fuel as [|fuel]; [simpl in Hfuel; lia|].
    cbn [paginate_loop]. rewrite Hp.
    change {| url := endpoint;
              params := <["per_page" := VInt 100]> (<["page" := VInt (Z.of_nat (S k))]> p0) |}
      with (page_request endpoint p0 (Z.of_nat (S k))).
    destruct (Hrest 0%nat batch eq_refl) as [Hne H0].
    simpl in H0. rewrite app_nil_r, Nat.add_0_r in H0. rewrite H0.
    destruct batch as [|x batch]; [contradiction|].
    replace (Z.of_nat (S k) + 1) with (Z.of_nat (S (S k))) by lia.
    rewrite (IH fuel (S k) _ (results ++ x :: batch)%list
               (h ++ [page_request endpoint p0 (Z.of_nat (S k))])%list last).
    + simpl concat. rewrite <- !app_assoc. rewrite (page_requests_cons endpoint p0 k).
      reflexivity.
    + intros j. apply page_params_again.
    + intros i b Hi. destruct (Hrest (S i) b Hi) as [Hb Hs]. split; [exact Hb|].
      rewrite page_requests_cons in Hs. rewrite <- app_assoc. simpl app.
      replace (S k + i)%nat with (k + S i)%nat by lia. exact Hs.
    + rewrite <- Hlast. rewrite <- app_assoc. simpl app. simpl length.
      rewrite page_requests_cons.
      replace (S k + length rest)%nat with (k + S (length rest))%nat by lia. reflexivity.
    + exact Hend.
    + simpl in Hfuel. lia.
Qed.

(** A server that always has something more to list: the loop does not
    end. *)
Lemma paginate_loop_endless (fuel : nat) endpoint (p : dict) (page : Z)
    (results : list dict) (h : list http_get) :
  (forall h request, exists x batch, srv h request = Reply (x :: batch)) ->
  fst (paginate_loop srv fuel endpoint p page results h) = None
  /\ length (snd (paginate_loop srv fuel endpoint p page results h)) = (length h + fuel)%nat.
Proof.
  intros Hsrv. revert p page results h.
  induction fuel as [|fuel IH]; intros p page results h.
  - simpl. split; [reflexivity | lia].
  - cbn [paginate_loop].
    destruct (Hsrv h {| url := endpoint;
                        params := <["per_page" := VInt 100]> (<["page" := VInt page]> p) |})
      as (x & batch & ->).
    destruct (IH (<["per_page" := VInt 100]> (<["page" := VInt page]> p)) (page + 1)
                (results ++ x :: batch)%list
                (h ++ [{| url := endpoint;
                          params := <["per_page" := VInt 100]> (<["page" := VInt page]> p) |}])%list)
      as [H1 H2].
    split; [exact H1|]. rewrite H2, length_app. simpl. lia.
Qed.

Lemma full_names_named (batch : list dict) (repos : list value) :
  Forall (fun repo : dict => repo !! "full_name" <> None) batch ->
  full_names batch repos
  = Ok (repos ++ map (fun repo => get repo "full_name" VNone) batch)%list.
Proof.
  intros H. revert repos. induction H as [|repo batch Hr _ IH]; intros repos.
  - simpl. rewrite app_nil_r. reflexivity.
  - simpl. unfold getitem, get. destruct (repo !! "full_name") as [v|]; [|contradiction].
    rewrite IH, <- app_assoc. reflexivity.
Qed.

(** The first entry without [full_name] ends the loop over a batch with a
    [KeyError]. *)
Lemma full_names_unnamed (before after : list dict) (repo : dict) (repos : list value) :
  Forall (fun repo : dict => repo !! "full_name" <> None) before ->
  repo !! "full_name" = None ->
  full_names (before ++ repo :: after) repos = Raise KeyError.
Proof.
  intros H Hr. revert repos. induction H as [|x before Hx _ IH]; intros repos.
  - simpl. unfold getitem. rewrite Hr. reflexivity.
  - simpl. unfold getitem. destruct (x !! "full_name") as [v|]; [|contradiction].
    apply IH.
Qed.

Lemma list_requests_cons url k n :
  list_requests url k (S n)
  = list_request url (Z.of_nat (S k)) :: list_requests url (S k) n.
Proof. reflexivity. Qed.

(** The loop of [get_repositories] from the page [k + 1] on. *)
Lemma list_loop_collect url (rest : list (list dict)) :
  forall (fuel k : nat) (repos : list value) (h : list http_get)
         (last : reply (list dict)),
    (forall i batch,
        rest !! i = Some batch ->
        batch <> []
        /\ Forall (fun repo : dict => repo !! "full_name" <> None) batch
        /\ srv (h ++ list_requests url k i)%list
               (list_request url (Z.of_nat (S (k + i)))) = Reply batch) ->
    srv (h ++ list_requests url k (length rest))%list
        (list_request url (Z.of_nat (S (k + length rest)))) = last ->
    ends_a_listing last ->
    (length rest < fuel)%nat ->
    list_loop srv fuel url (Z.of_nat (S k)) repos h
    = (Some (outcome last
               (repos ++ concat (map (map (fun repo => get repo "full_name" VNone)) rest))%list),
       (h ++ list_requests url k (S (length rest)))%list).
Proof.
  induction rest as [|batch rest IH]; intros fuel k repos h last Hrest Hlast Hend Hfuel.
  - destruct fuel as [|fuel]; [simpl in Hfuel; lia|].
    cbn [list_loop].
    simpl in Hlast. rewrite app_nil_r, Nat.add_0_r in Hlast.
    change {| url := url +:+ "?per_page=100&page=" +:+ py_str (VInt (Z.of_nat (S k)));
              params := ∅ |}
      with (list_request url (Z.of_nat (S k))).
    rewrite Hlast. simpl concat. rewrite app_nil_r.
    destruct last as [b|r]; [|reflexivity].
    rewrite (Hend b eq_refl). reflexivity.
  - destruct fuel as [|fuel]; [simpl in Hfuel; lia|].
    cbn [list_loop].
    change {| url := url +:+ "?per_page=100&page=" +:+ py_str (VInt (Z.of_nat (S k)));
              params := ∅ |}
      with (list_request url (Z.of_nat (S k))).
    destruct (Hrest 0%nat batch eq_refl) as (Hne & Hnamed & H0).
    simpl in H0. rewrite app_nil_r, Nat.add_0_r in H0. rewrite H0.
    rewrite (full_names_named batch repos Hnamed).
    destruct batch as [|x batch]; [contradiction|].
    replace (Z.of_nat (S k) + 1) with (Z.of_nat (S (S k))) by lia.
    rewrite (IH fuel (S k) _ (h ++ [list_request url (Z.of_nat (S k))])%list last).
    + cbn [map concat]. rewrite <- !app_assoc. rewrite (list_requests_cons url k).
      reflexivity.
    + intros i b Hi. destruct (Hrest (S i) b Hi) as (Hb & Hn & Hs).
      split; [exact Hb|]. split; [exact Hn|].
      rewrite list_requests_cons in Hs. rewrite <- app_assoc. simpl app.
      replace (S k + i)%nat with (k + S i)%nat by lia. exact Hs.
    + rewrite <- Hlast. rewrite <- app_assoc. simpl app. simpl length.
      rewrite list_requests_cons.
      replace (S k + length rest)%nat with (k + S (length rest))%nat by lia. reflexivity.
    + exact Hend.
    + simpl in Hfuel. lia.
Qed.

End PageFacts.

(** * Further properties of the code *)

Section RunProperties.
Import Config Configurator Demo.


(** X2.  A run that ends with status 0 has counted no error: the error counts
    and the [failed] counters of both managers are what they were. *)
Theorem clean_exit_counts_no_error (api : server) (self : GitHubConfigurator)
    (parsed : config) (w : world) :
  fst (main api self parsed w) = Ok 0 ->
  errors (snd (main api self parsed w)) = errors w.
Proof.
  destruct (main_runs api self parsed w) as [(c & H) | (config & repos & c & _ & _ & H)];
    rewrite H.
  - discriminate.
  - destruct (apply_config_loop_scores api self config repos (set_calls c w))
      as (code & w' & E & _ & G).
    rewrite E. simpl. intros [= ->]. destruct (G eq_refl) as [_ ->]. reflexivity.
Qed.

Lemma clean_exit_counts_no_error_witness :
  fst (main empty_repository sync_labels_only (only_labels [bug]) new_world) = Ok 0
  /\ errors (snd (main empty_repository sync_labels_only (only_labels [bug]) new_world))
     = errors new_world.
Proof.
  split; [reflexivity|].
  apply (clean_exit_counts_no_error empty_repository sync_labels_only (only_labels [bug])
           new_world).
  reflexivity.
Defined.

(** X3.  At the end of a run, for each manager the success count is the number
    of items created and updated (removals are not counted), the error
    count is at least the number of failed items, and the totals of the
    summary are the sums of the counts of the two managers. *)
Theorem summary_counts_are_consistent (api : server) (self : GitHubConfigurator)
    (parsed : config) :
  let w := snd (main api self parsed new_world) in
  let l := label_manager w in
  let m := milestone_manager w in
  success_count l = (created (stats l) + updated (stats l))%nat
  /\ (failed (stats l) <= error_count l)%nat
  /\ success_count m = (created (stats m) + updated (stats m))%nat
  /\ (failed (stats m) <= error_count m)%nat
  /\ total_success_count w = (success_count l + success_count m)%nat
  /\ total_error_count w = (error_count l + error_count m)%nat.
Proof.
  intros w l m.
  assert (C : consistent_managers w).
  { apply main_consistent. split; split; simpl; lia. }
  destruct C as [[L1 L2] [M1 M2]].
  do 4 (split; [assumption|]).
  subst l m w.
  destruct (main_ends api self parsed new_world) as [(c & H) | (success & w2 & H)];
    rewrite H; split; reflexivity.
Qed.

End RunProperties.

Section PassProperties.
Import Config Configurator Demo Cases.



(** X5.  Under dry-run the only requests of a run that write are the PUT
    requests of the secret manager: no POST, no PATCH and no DELETE is
    made, whatever the configuration and the server. *)
Theorem dry_run_writes_nothing_but_secrets (api : server) (self : GitHubConfigurator)
    (parsed : config) :
  dry_run self = true -> emits no_write_but_put (main api self parsed).
Proof. apply main_dry_run_emits. Qed.

Lemma dry_run_writes_nothing_but_secrets_witness :
  dry_run dry_run_sync_all = true
  /\ emits no_write_but_put (main two_labels dry_run_sync_all (only_labels [bug])).
Proof.
  split; [reflexivity|].
  apply (dry_run_writes_nothing_but_secrets two_labels dry_run_sync_all (only_labels [bug])).
  reflexivity.
Defined.

(** X6.  With neither sync flag set, a run makes no DELETE request. *)
Theorem nothing_is_deleted_without_sync (api : server) (self : GitHubConfigurator)
    (parsed : config) :
  sync_labels self = false -> sync_milestones self = false ->
  emits not_delete (main api self parsed).
Proof. apply main_without_sync_emits. Qed.

Lemma nothing_is_deleted_without_sync_witness :
  sync_labels dry_run_only = false
  /\ sync_milestones dry_run_only = false
  /\ emits not_delete (main two_labels dry_run_only (only_labels [bug])).
Proof.
  split; [reflexivity|]. split; [reflexivity|].
  apply (nothing_is_deleted_without_sync two_labels dry_run_only (only_labels [bug]));
    reflexivity.
Defined.



(** X8.  With an organization and a list of repositories in the configuration,
    no request is made for the list: a name without [/] gets the
    organization in front, a name with [/] is kept, so that every name handed
    on has an owner part. *)
Theorem organization_prefixes_bare_names (api : server) (self : GitHubConfigurator)
    (config : config) (w : world) (org : string) (repos : list string) :
  organization self = Some org -> org <> "" ->
  repositories config = Some repos -> repos <> [] ->
  exists names,
    get_repositories api self config w = (Ok names, w)
    /\ length names = length repos
    /\ Forall (fun name => has_slash name = true) names
    /\ (forall i repo,
           repos !! i = Some repo ->
           names !! i = Some (if has_slash repo then repo else org +:+ "/" +:+ repo)).
Proof.
  intros Horg Hne Hrepos Hnil.
  exists (map (fun repo => if negb (has_slash repo) then org +:+ "/" +:+ repo else repo)
              repos).
  split.
  { unfold get_repositories. rewrite Hrepos, Horg.
    destruct repos as [|r rs]; [contradiction|].
    destruct org; [contradiction|]. reflexivity. }
  split; [apply length_map|]. split.
  - clear Hrepos Hnil. induction repos as [|repo rest IH]; constructor; [|exact IH].
    destruct (has_slash repo) eqn:E; simpl; [exact E | apply has_slash_app].
  - intros i repo Hi. rewrite list_lookup_fmap, Hi. simpl.
    destruct (has_slash repo); reflexivity.
Qed.

Lemma organization_prefixes_bare_names_witness :
  organization for_octo = Some "octo"
  /\ "octo" <> ""
  /\ repositories mixed_names = Some ["demo"; "other/tools"]
  /\ ["demo"; "other/tools"] <> []
  /\ exists names,
      get_repositories unreachable for_octo mixed_names new_world = (Ok names, new_world)
      /\ length names = length ["demo"; "other/tools"]
      /\ Forall (fun name => has_slash name = true) names
      /\ (forall i repo,
             ["demo"; "other/tools"] !! i = Some repo ->
             names !! i = Some (if has_slash repo then repo else "octo" +:+ "/" +:+ repo)).
Proof.
  assert (H1 : "octo" <> "") by discriminate.
  assert (H2 : ["demo"; "other/tools"] <> []) by discriminate.
  split; [reflexivity|]. split; [exact H1|]. split; [reflexivity|]. split; [exact H2|].
  exact (organization_prefixes_bare_names unreachable for_octo mixed_names new_world "octo"
           ["demo"; "other/tools"] eq_refl H1 eq_refl H2).
Defined.

End PassProperties.

Section ItemProperties.
Import Config Configurator Demo Cases.

(** X9.  A POST of a milestone that fails counts the milestone as failed,
    whatever the response, 422 included: the branch of lines 202-211 that
    would count it as skipped is never taken. *)
Theorem failed_milestone_creation_counts_as_failed (api : server) (repo : string)
    (milestone_data copy : dict) (items : list dict) (w : world)
    (creation : option Response) :
  let listing := PAGINATE ("/repos/" +:+ repo +:+ "/milestones") {["state" := VStr "all"]} in
  let create := POST ("/repos/" +:+ repo +:+ "/milestones") copy in
  Milestones.convert_due_on milestone_data = Ok copy ->
  Milestones.due_on_is_None copy = false ->
  on_paginate api (calls w) ("/repos/" +:+ repo +:+ "/milestones") {["state" := VStr "all"]}
  = Reply items ->
  Forall (other_title (get milestone_data "title" (VStr "Unknown"))) items ->
  on_write api (calls w ++ [listing]) create = Failure creation ->
  Milestones.create_milestone api false repo milestone_data w
  = (Ok false,
     set_milestone_manager (inc_failed (inc_error_count (milestone_manager w)))
       (Client.record create (Client.record listing w))).
Proof.
  intros listing create Hcopy Hnone Hlist Hitems Hpost.
  rewrite (create_milestone_absent_run api repo milestone_data copy items w Hcopy Hlist Hitems).
  rewrite Hnone. fold listing create. rewrite Hpost. reflexivity.
Qed.

Lemma failed_milestone_creation_counts_as_failed_witness :
  let copy := <["due_on" := VStr "2025-05-04T23:59:59Z"]> v1 in
  let listing := PAGINATE "/repos/octo/demo/milestones" {["state" := VStr "all"]} in
  let create := POST "/repos/octo/demo/milestones" copy in
  Milestones.convert_due_on v1 = Ok copy
  /\ Milestones.due_on_is_None copy = false
  /\ on_paginate case_variant (calls new_world) "/repos/octo/demo/milestones"
       {["state" := VStr "all"]} = Reply []
  /\ on_write case_variant (calls new_world ++ [listing]) create
     = Failure (Some {| status_code := 422 |})
  /\ Milestones.create_milestone case_variant false "octo/demo" v1 new_world
     = (Ok false,
        set_milestone_manager (inc_failed (inc_error_count (milestone_manager new_world)))
          (Client.record create (Client.record listing new_world))).
Proof.
  intros copy listing create.
  do 4 (split; [reflexivity|]).
  exact (failed_milestone_creation_counts_as_failed case_variant "octo/demo" v1 copy []
           new_world (Some {| status_code := 422 |})
           eq_refl eq_refl eq_refl (List.Forall_nil _) eq_refl).
Defined.

(** X10.  A milestone declared with a null due date is never created: without
    dry-run, when no listed milestone has its title it is counted as skipped
    with the value False and no write is made; when one has, the PATCH is
    sent without [due_on]. *)
Theorem null_due_date_skips_creation (api : server) (repo : string)
    (milestone_data : dict) (items : list dict) (w : world)
    (before after : list dict) (existing : dict) (number : value) (w' : world) :
  let milestone_title := get milestone_data "title" (VStr "Unknown") in
  let listing := PAGINATE ("/repos/" +:+ repo +:+ "/milestones") {["state" := VStr "all"]} in
  let update :=
    PATCH ("/repos/" +:+ repo +:+ "/milestones/" +:+ py_str number)
      (delete "due_on" milestone_data) in
  milestone_data !! "due_on" = Some VNone ->
  on_paginate api (calls w) ("/repos/" +:+ repo +:+ "/milestones") {["state" := VStr "all"]}
  = Reply items ->
  Forall (other_title milestone_title) items ->
  on_paginate api (calls w') ("/repos/" +:+ repo +:+ "/milestones") {["state" := VStr "all"]}
  = Reply (before ++ existing :: after)%list ->
  Forall (other_title milestone_title) before ->
  same_title milestone_title number existing ->
  Milestones.create_milestone api false repo milestone_data w
  = (Ok false,
     set_milestone_manager (inc_skipped (milestone_manager w)) (Client.record listing w))
  /\ calls (snd (Milestones.create_milestone api false repo milestone_data w'))
     = (calls w' ++ [listing; update])%list.
Proof.
  intros milestone_title listing update Hdue Hlist Hitems Hlist' Hbefore Hsame.
  assert (Hcopy : Milestones.convert_due_on milestone_data = Ok milestone_data).
  { unfold Milestones.convert_due_on, contains, get. rewrite Hdue. reflexivity. }
  assert (Hnone : Milestones.due_on_is_None milestone_data = true).
  { unfold Milestones.due_on_is_None. rewrite Hdue. reflexivity. }
  split.
  - rewrite (create_milestone_absent_run api repo milestone_data milestone_data items w
               Hcopy Hlist Hitems).
    rewrite Hnone. reflexivity.
  - rewrite (create_milestone_found_run api repo milestone_data milestone_data before
               existing after number w' Hcopy Hlist' Hbefore Hsame).
    unfold update_payload. rewrite Hnone. fold listing update.
    destruct (on_write api _ update);
      cbn [snd calls Client.record set_calls set_milestone_manager];
      rewrite <- app_assoc; reflexivity.
Qed.

Lemma null_due_date_skips_creation_witness :
  let listing := PAGINATE "/repos/octo/demo/milestones" {["state" := VStr "all"]} in
  let update := PATCH "/repos/octo/demo/milestones/2" (delete "due_on" undated) in
  undated !! "due_on" = Some VNone
  /\ on_paginate appearing (calls new_world) "/repos/octo/demo/milestones"
       {["state" := VStr "all"]} = Reply []
  /\ on_paginate appearing (calls after_one_request) "/repos/octo/demo/milestones"
       {["state" := VStr "all"]} = Reply ([] ++ remote_v2 :: [])%list
  /\ same_title (get undated "title" (VStr "Unknown")) (VInt 2) remote_v2
  /\ Milestones.create_milestone appearing false "octo/demo" undated new_world
     = (Ok false,
        set_milestone_manager (inc_skipped (milestone_manager new_world))
          (Client.record listing new_world))
  /\ calls (snd (Milestones.create_milestone appearing false "octo/demo" undated
                   after_one_request))
     = (calls after_one_request ++ [listing; update])%list.
Proof.
  intros listing update.
  assert (Hsame : same_title (get undated "title" (VStr "Unknown")) (VInt 2) remote_v2).
  { split; [exists (VStr "v2"); split; reflexivity | reflexivity]. }
  do 3 (split; [reflexivity|]). split; [exact Hsame|].
  exact (null_due_date_skips_creation appearing "octo/demo" undated [] new_world [] []
           remote_v2 (VInt 2) after_one_request
           eq_refl eq_refl (List.Forall_nil _) eq_refl (List.Forall_nil _) Hsame).
Defined.

(** X11.  When the listing of the milestones fails, without dry-run, the
    milestone is posted all the same: a milestone that exists on the remote
    side is then posted a second time. *)
Theorem failed_listing_still_creates (api : server) (repo : string)
    (milestone_data copy : dict) (response : option Response) (w : world) :
  let listing := PAGINATE ("/repos/" +:+ repo +:+ "/milestones") {["state" := VStr "all"]} in
  let create := POST ("/repos/" +:+ repo +:+ "/milestones") copy in
  Milestones.convert_due_on milestone_data = Ok copy ->
  Milestones.due_on_is_None copy = false ->
  on_paginate api (calls w) ("/repos/" +:+ repo +:+ "/milestones") {["state" := VStr "all"]}
  = Failure response ->
  Milestones.create_milestone api false repo milestone_data w
  = match on_write api (calls w ++ [listing]) create with
    | Reply _ =>
        (Ok true,
         set_milestone_manager (inc_created (inc_success_count (milestone_manager w)))
           (Client.record create (Client.record listing w)))
    | Failure _ =>
        (Ok false,
         set_milestone_manager (inc_failed (inc_error_count (milestone_manager w)))
           (Client.record create (Client.record listing w)))
    end.
Proof.
  intros listing create Hcopy Hnone Hlist.
  rewrite (create_milestone_unlisted_run api repo milestone_data copy response w Hcopy Hlist).
  rewrite Hnone. reflexivity.
Qed.

Lemma failed_listing_still_creates_witness :
  let copy := <["due_on" := VStr "2025-05-04T23:59:59Z"]> v1 in
  let listing := PAGINATE "/repos/octo/demo/milestones" {["state" := VStr "all"]} in
  let create := POST "/repos/octo/demo/milestones" copy in
  Milestones.convert_due_on v1 = Ok copy
  /\ Milestones.due_on_is_None copy = false
  /\ on_paginate no_listing (calls new_world) "/repos/octo/demo/milestones"
       {["state" := VStr "all"]} = Failure (Some {| status_code := 500 |})
  /\ Milestones.create_milestone no_listing false "octo/demo" v1 new_world
     = match on_write no_listing (calls new_world ++ [listing]) create with
       | Reply _ =>
           (Ok true,
            set_milestone_manager
              (inc_created (inc_success_count (milestone_manager new_world)))
              (Client.record create (Client.record listing new_world)))
       | Failure _ =>
           (Ok false,
            set_milestone_manager
              (inc_failed (inc_error_count (milestone_manager new_world)))
              (Client.record create (Client.record listing new_world)))
       end.
Proof.
  intros copy listing create.
  do 3 (split; [reflexivity|]).
  exact (failed_listing_still_creates no_listing "octo/demo" v1 copy
           (Some {| status_code := 500 |}) new_world eq_refl eq_refl eq_refl).
Defined.

(** X12.  A listed milestone without a title, met before one of the declared
    title, fails the declared milestone, under dry-run or not: the lookup
    reads [existing["title"]], the [KeyError] is caught at the end of
    [create_milestone], and no write is made. *)
Theorem untitled_listed_milestone_fails_the_item (api : server) (dry_run : bool)
    (repo : string) (milestone_data copy : dict) (before after : list dict)
    (existing : dict) (w : world) :
  let listing := PAGINATE ("/repos/" +:+ repo +:+ "/milestones") {["state" := VStr "all"]} in
  Milestones.convert_due_on milestone_data = Ok copy ->
  on_paginate api (calls w) ("/repos/" +:+ repo +:+ "/milestones") {["state" := VStr "all"]}
  = Reply (before ++ existing :: after)%list ->
  Forall (other_title (get milestone_data "title" (VStr "Unknown"))) before ->
  existing !! "title" = None ->
  Milestones.create_milestone api dry_run repo milestone_data w
  = (Ok false,
     set_milestone_manager (inc_failed (inc_error_count (milestone_manager w)))
       (Client.record listing w)).
Proof.
  intros listing Hcopy Hlist Hbefore Ht.
  exact (create_milestone_untitled_run api dry_run repo milestone_data copy before existing
           after w Hcopy Hlist Hbefore Ht).
Qed.

Lemma untitled_listed_milestone_fails_the_item_witness :
  let listing := PAGINATE "/repos/octo/demo/milestones" {["state" := VStr "all"]} in
  Milestones.convert_due_on v1 = Ok (<["due_on" := VStr "2025-05-04T23:59:59Z"]> v1)
  /\ on_paginate with_untitled (calls new_world) "/repos/octo/demo/milestones"
       {["state" := VStr "all"]} = Reply ([] ++ untitled :: [remote_v1])%list
  /\ untitled !! "title" = None
  /\ Milestones.create_milestone with_untitled true "octo/demo" v1 new_world
     = (Ok false,
        set_milestone_manager (inc_failed (inc_error_count (milestone_manager new_world)))
          (Client.record listing new_world)).
Proof.
  intros listing.
  do 3 (split; [reflexivity|]).
  exact (untitled_listed_milestone_fails_the_item with_untitled true "octo/demo" v1
           (<["due_on" := VStr "2025-05-04T23:59:59Z"]> v1) [] [remote_v1] untitled new_world
           eq_refl eq_refl (List.Forall_nil _) eq_refl).
Defined.

(** X13.  When the PATCH of a label that needs an update fails, without dry-run,
    the failure is taken for a missing label: a POST of the label follows,
    and the label counts as created or as failed after the reply to the
    POST. *)
Theorem failed_label_update_is_posted (api : server) (repo : string)
    (label_data existing : dict) (response : option Response) (w : world) :
  let endpoint :=
    "/repos/" +:+ repo +:+ "/labels/" +:+ py_str (get label_data "name" (VStr "Unknown")) in
  let create := POST ("/repos/" +:+ repo +:+ "/labels") label_data in
  on_get api (calls w) endpoint = Reply existing ->
  Labels.needs_update existing label_data = Ok true ->
  on_write api (calls w ++ [GET endpoint]) (PATCH endpoint label_data) = Failure response ->
  Labels.create_label api false repo label_data w
  = match on_write api (calls w ++ [GET endpoint; PATCH endpoint label_data]) create with
    | Reply _ =>
        (Ok true,
         set_label_manager (inc_created (inc_success_count (label_manager w)))
           (Client.record create
              (Client.record (PATCH endpoint label_data) (Client.record (GET endpoint) w))))
    | Failure _ =>
        (Ok false,
         set_label_manager (inc_failed (inc_error_count (label_manager w)))
           (Client.record create
              (Client.record (PATCH endpoint label_data) (Client.record (GET endpoint) w))))
    end.
Proof.
  intros endpoint create Hget Hneeds Hpatch.
  exact (create_label_patch_failed_run api repo label_data existing response w
           Hget Hneeds Hpatch).
Qed.

Lemma failed_label_update_is_posted_witness :
  let endpoint := "/repos/octo/demo/labels/bug" in
  let create := POST "/repos/octo/demo/labels" red_bug in
  on_get read_only (calls new_world) endpoint = Reply remote_bug
  /\ Labels.needs_update remote_bug red_bug = Ok true
  /\ on_write read_only (calls new_world ++ [GET endpoint]) (PATCH endpoint red_bug)
     = Failure (Some {| status_code := 403 |})
  /\ Labels.create_label read_only false "octo/demo" red_bug new_world
     = match on_write read_only
               (calls new_world ++ [GET endpoint; PATCH endpoint red_bug]) create with
       | Reply _ =>
           (Ok true,
            set_label_manager (inc_created (inc_success_count (label_manager new_world)))
              (Client.record create
                 (Client.record (PATCH endpoint red_bug)
                    (Client.record (GET endpoint) new_world))))
       | Failure _ =>
           (Ok false,
            set_label_manager (inc_failed (inc_error_count (label_manager new_world)))
              (Client.record create
                 (Client.record (PATCH endpoint red_bug)
                    (Client.record (GET endpoint) new_world))))
       end.
Proof.
  intros endpoint create.
  do 3 (split; [reflexivity|]).
  exact (failed_label_update_is_posted read_only "octo/demo" red_bug remote_bug
           (Some {| status_code := 403 |}) new_world eq_refl eq_refl eq_refl).
Defined.

End ItemProperties.

Section SyncProperties.
Import Config Configurator Demo Cases.

(** X14.  Without dry-run, when the listing succeeds, the sync of the labels
    accounts for every listed label that is not configured: each one adds 1
    to [removed] or, when its DELETE fails, 1 to the error count; the other
    counters stay as they are, the milestone manager is not touched, and the
    value is True exactly when no DELETE failed. *)
Theorem label_sync_accounts_for_every_removal (api : server) (repo : string)
    (configured : list value) (all_labels : list dict) (w : world) :
  on_paginate api (calls w) ("/repos/" +:+ repo +:+ "/labels") ∅ = Reply all_labels ->
  exists removals failures w',
    Labels.sync_repository_labels api false repo configured w
    = (Ok (failures =? 0)%nat, w')
    /\ label_manager w' = after_sync removals failures (label_manager w)
    /\ milestone_manager w' = milestone_manager w
    /\ (removals + failures)%nat = length (undeclared_labels configured all_labels).
Proof.
  intros Hlist.
  destruct (sync_repository_labels_effect api false repo configured w)
    as (ok & w' & r & e & E & L & M & Hok & _ & H).
  exists r, e, w'. subst ok. split; [exact E|]. split; [exact L|]. split; [exact M|].
  exact (H all_labels Hlist).
Qed.

Lemma label_sync_accounts_for_every_removal_witness :
  on_paginate read_only (calls new_world) "/repos/octo/demo/labels" ∅
  = Reply [remote_bug; remote_wontfix]
  /\ exists removals failures w',
      Labels.sync_repository_labels read_only false "octo/demo" [VStr "bug"] new_world
      = (Ok (failures =? 0)%nat, w')
      /\ label_manager w' = after_sync removals failures (label_manager new_world)
      /\ milestone_manager w' = milestone_manager new_world
      /\ (removals + failures)%nat
         = length (undeclared_labels [VStr "bug"] [remote_bug; remote_wontfix]).
Proof.
  split; [reflexivity|].
  exact (label_sync_accounts_for_every_removal read_only "octo/demo" [VStr "bug"]
           [remote_bug; remote_wontfix] new_world eq_refl).
Defined.

(** X15.  Without dry-run, when the listing succeeds, the sync of the milestones
    accounts for every listed milestone whose title is not configured: each
    one adds 1 to [removed] or, when its DELETE fails, 1 to the error count;
    the label manager is not touched, and the value is True exactly when no
    DELETE failed. *)
Theorem milestone_sync_accounts_for_every_removal (api : server) (repo : string)
    (configured : list value) (all_milestones : list dict) (w : world) :
  on_paginate api (calls w) ("/repos/" +:+ repo +:+ "/milestones") {["state" := VStr "all"]}
  = Reply all_milestones ->
  exists removals failures w',
    Milestones.sync_repository_milestones api false repo configured w
    = (Ok (failures =? 0)%nat, w')
    /\ milestone_manager w' = after_sync removals failures (milestone_manager w)
    /\ label_manager w' = label_manager w
    /\ (removals + failures)%nat = length (undeclared_milestones configured all_milestones).
Proof.
  intros Hlist.
  destruct (sync_repository_milestones_effect api false repo configured w)
    as (ok & w' & r & e & E & L & M & Hok & _ & H).
  exists r, e, w'. subst ok. split; [exact E|]. split; [exact L|]. split; [exact M|].
  exact (H all_milestones Hlist).
Qed.

Lemma milestone_sync_accounts_for_every_removal_witness :
  on_paginate converged (calls new_world) "/repos/octo/demo/milestones"
    {["state" := VStr "all"]} = Reply [remote_v1]
  /\ exists removals failures w',
      Milestones.sync_repository_milestones converged false "octo/demo" [] new_world
      = (Ok (failures =? 0)%nat, w')
      /\ milestone_manager w' = after_sync removals failures (milestone_manager new_world)
      /\ label_manager w' = label_manager new_world
      /\ (removals + failures)%nat = length (undeclared_milestones [] [remote_v1]).
Proof.
  split; [reflexivity|].
  exact (milestone_sync_accounts_for_every_removal converged "octo/demo" [] [remote_v1]
           new_world eq_refl).
Defined.

End SyncProperties.

Section ValidationFacts.
Import Config.




End ValidationFacts.

Section ItemProperties2.
Import Config Configurator Demo Cases.



End ItemProperties2.

Section DateProperties.
Import Datetime Milestones.





End DateProperties.

Section PageProperties.
Import Pages Demo.

(** X20.  [paginate] asks for the pages 1, 2, ... with [per_page] 100 and the
    parameters of the caller, until a page is empty or a request fails.
    When the pages 1 to n hold the batches and the page n + 1 ends the
    listing, it makes exactly n + 1 requests and returns the batches in
    order, or raises the failure of the last request and drops what it
    had. *)
Theorem paginate_collects_every_page (srv : http_server) (fuel : nat) (endpoint : string)
    (params : option dict) (h : list http_get) (batches : list (list dict))
    (last : reply (list dict)) :
  let p := match params with Some p => p | None => ∅ end in
  (forall i batch,
      batches !! i = Some batch ->
      batch <> []
      /\ srv (h ++ page_requests endpoint p 0 i)%list
             (page_request endpoint p (Z.of_nat (S i))) = Reply batch) ->
  srv (h ++ page_requests endpoint p 0 (length batches))%list
      (page_request endpoint p (Z.of_nat (S (length batches)))) = last ->
  ends_a_listing last ->
  (length batches < fuel)%nat ->
  paginate srv fuel endpoint params h
  = (Some (outcome last (concat batches)),
     (h ++ page_requests endpoint p 0 (S (length batches)))%list).
Proof.
  intros p Hb Hlast Hend Hfuel. unfold paginate. fold p.
  exact (paginate_loop_collect srv endpoint p batches fuel 0 p [] h last
           (fun j => eq_refl) Hb Hlast Hend Hfuel).
Qed.

Lemma paginate_collects_every_page_witness :
  let batches := [[remote_bug; remote_wontfix]; [remote_Bug]] in
  ends_a_listing (@Reply (list dict) [])
  /\ (length batches < 5)%nat
  /\ paginate (serving batches) 5 "/repos/octo/demo/labels" None []
     = (Some (Ok [remote_bug; remote_wontfix; remote_Bug]),
        page_requests "/repos/octo/demo/labels" ∅ 0 3).
Proof.
  intros batches.
  assert (Hend : ends_a_listing (@Reply (list dict) [])).
  { intros batch [= <-]. reflexivity. }
  assert (Hfuel : (length batches < 5)%nat) by (simpl; lia).
  split; [exact Hend|]. split; [exact Hfuel|].
  refine (paginate_collects_every_page (serving batches) 5 "/repos/octo/demo/labels" None []
            batches (Reply []) _ eq_refl Hend Hfuel).
  intros i batch Hi.
  destruct i as [|[|i]]; simpl in Hi; [| |discriminate Hi];
    injection Hi as <-; (split; [discriminate | reflexivity]).
Defined.

(** X21.  [paginate] has no bound of its own: against a server that answers
    every request with a batch that is not empty, for instance one that
    does not look at [page], the loop makes one request after the other and
    does not return. *)
Theorem paginate_does_not_stop_by_itself (srv : http_server) (fuel : nat)
    (endpoint : string) (params : option dict) (h : list http_get) :
  (forall h request, exists x batch, srv h request = Reply (x :: batch)) ->
  fst (paginate srv fuel endpoint params h) = None
  /\ length (snd (paginate srv fuel endpoint params h)) = (length h + fuel)%nat.
Proof.
  intros Hsrv. unfold paginate. apply paginate_loop_endless. exact Hsrv.
Qed.

Lemma paginate_does_not_stop_by_itself_witness :
  fst (paginate (fun _ _ => Reply [remote_bug]) 7 "/repos/octo/demo/labels" None []) = None
  /\ length (snd (paginate (fun _ _ => Reply [remote_bug]) 7 "/repos/octo/demo/labels"
                    None []))
     = (length (@nil http_get) + 7)%nat.
Proof.
  apply (paginate_does_not_stop_by_itself (fun _ _ => Reply [remote_bug]) 7
           "/repos/octo/demo/labels" None []).
  intros h request. exists remote_bug, []. reflexivity.
Defined.

(** X22.  [get_repositories] of the client asks for the pages of the
    organization, or of the user when no organization is given, and
    returns the [full_name] of every entry in order; a request that fails
    ends the process with status 1, whatever was listed before. *)
Theorem listing_collects_the_full_names (srv : http_server) (fuel : nat)
    (organization : option string) (h : list http_get) (batches : list (list dict))
    (last : reply (list dict)) :
  let url :=
    match organization with
    | Some ((String _ _) as org) => "/orgs/" +:+ org +:+ "/repos"
    | _ => "/user/repos"
    end in
  (forall i batch,
      batches !! i = Some batch ->
      batch <> []
      /\ Forall (fun repo : dict => repo !! "full_name" <> None) batch
      /\ srv (h ++ list_requests url 0 i)%list (list_request url (Z.of_nat (S i)))
         = Reply batch) ->
  srv (h ++ list_requests url 0 (length batches))%list
      (list_request url (Z.of_nat (S (length batches)))) = last ->
  ends_a_listing last ->
  (length batches < fuel)%nat ->
  get_repositories srv fuel organization h
  = (Some match last with
          | Reply _ =>
              Ok (concat (map (map (fun repo => get repo "full_name" VNone)) batches))
          | Failure _ => Raise (SystemExit 1)
          end,
     (h ++ list_requests url 0 (S (length batches)))%list).
Proof.
  intros url Hb Hlast Hend Hfuel. unfold get_repositories. fold url.
  pose proof (list_loop_collect srv url batches fuel 0 [] h last Hb Hlast Hend Hfuel) as H.
  change (Z.of_nat 1) with 1 in H. rewrite H.
  destruct last; reflexivity.
Qed.

Lemma listing_collects_the_full_names_witness :
  let pages :=
    [("/orgs/octo/repos?per_page=100&page=1",
      [{["full_name" := VStr "octo/demo"]}; {["full_name" := VStr "octo/tools"]}]);
     ("/orgs/octo/repos?per_page=100&page=2", [{["full_name" := VStr "octo/site"]}])] in
  get_repositories (serving_urls pages) 4 (Some "octo") []
  = (Some (Ok [VStr "octo/demo"; VStr "octo/tools"; VStr "octo/site"]),
     list_requests "/orgs/octo/repos" 0 3).
Proof.
  intros pages.
  refine (listing_collects_the_full_names (serving_urls pages) 4 (Some "octo") []
            (map snd pages) (Reply []) _ eq_refl _ _).
  - intros i batch Hi.
    destruct i as [|[|i]]; simpl in Hi; [| |discriminate Hi];
      injection Hi as <-;
      (split; [discriminate | split; [repeat constructor; discriminate | reflexivity]]).
  - intros batch [= <-]. reflexivity.
  - simpl. lia.
Defined.

(** X23.  An entry of a page without [full_name] ends the listing with a
    [KeyError]: this is no [RequestException], so the process does not exit
    there and the exception goes on to the caller. *)
Theorem unnamed_repository_raises_key_error (srv : http_server) (fuel : nat)
    (organization : option string) (h : list http_get) (before after : list dict)
    (repo : dict) :
  let url :=
    match organization with
    | Some ((String _ _) as org) => "/orgs/" +:+ org +:+ "/repos"
    | _ => "/user/repos"
    end in
  srv h (list_request url 1) = Reply (before ++ repo :: after)%list ->
  Forall (fun repo : dict => repo !! "full_name" <> None) before ->
  repo !! "full_name" = None ->
  get_repositories srv (S fuel) organization h
  = (Some (Raise KeyError), (h ++ [list_request url 1])%list).
Proof.
  intros url Hs Hb Hr. unfold get_repositories. fold url. cbn [list_loop].
  change {| Pages.url := url +:+ "?per_page=100&page=" +:+ py_str (VInt 1); params := ∅ |}
    with (list_request url 1).
  rewrite Hs, (full_names_unnamed before after repo [] Hb Hr).
  destruct before; reflexivity.
Qed.

Lemma unnamed_repository_raises_key_error_witness :
  let pages := [("/user/repos?per_page=100&page=1", [{["name" := VStr "demo"]}])] in
  get_repositories (serving_urls pages) 1 None []
  = (Some (Raise KeyError), ([] ++ [list_request "/user/repos" 1])%list).
Proof.
  intros pages.
  exact (unnamed_repository_raises_key_error (serving_urls pages) 0 None [] [] []
           {["name" := VStr "demo"]} eq_refl (List.Forall_nil _) eq_refl).
Defined.

End PageProperties.

Section TypeProperties.
Import Config Configurator Demo Cases.

(** X24.  A declared colour that is not a string, such as the number that
    YAML makes of [123456], fails the label whenever the label exists:
    [lstrip] raises [AttributeError], so [create_label] returns False and
    counts the label as failed after the GET alone, under dry-run or not. *)
Theorem colour_that_is_no_string_fails_the_update (api : server) (dry_run : bool)
    (repo : string) (label_data existing : dict) (w : world) :
  let endpoint :=
    "/repos/" +:+ repo +:+ "/labels/" +:+ py_str (get label_data "name" (VStr "Unknown")) in
  on_get api (calls w) endpoint = Reply existing ->
  (forall s, get label_data "color" (VStr "") <> VStr s) ->
  Labels.create_label api dry_run repo label_data w
  = (Ok false,
     set_label_manager (inc_failed (inc_error_count (label_manager w)))
       (Client.record (GET endpoint) w)).
Proof.
  intros endpoint Hget Hcolor.
  assert (Hneeds : Labels.needs_update existing label_data = Raise AttributeError).
  { unfold Labels.needs_update, Labels.str_lstrip.
    destruct (get label_data "color" (VStr "")) as [| | |s]; try reflexivity.
    destruct (Hcolor s eq_refl). }
  unfold Labels.create_label, Labels.check_existing. fold endpoint.
  run_monad. rewrite Hget. cbv iota beta. rewrite Hneeds. reflexivity.
Qed.

Lemma colour_that_is_no_string_fails_the_update_witness :
  let numbered : dict := {["name" := VStr "bug"; "color" := VInt 123456]} in
  let endpoint := "/repos/octo/demo/labels/bug" in
  on_get two_labels (calls new_world) endpoint = Reply remote_bug
  /\ Labels.create_label two_labels true "octo/demo" numbered new_world
     = (Ok false,
        set_label_manager (inc_failed (inc_error_count (label_manager new_world)))
          (Client.record (GET endpoint) new_world)).
Proof.
  intros numbered endpoint. split; [reflexivity|].
  refine (colour_that_is_no_string_fails_the_update two_labels true "octo/demo" numbered
            remote_bug new_world eq_refl _).
  intros s. discriminate.
Defined.

(** X25.  A declared due date that is not a string and not false as a
    truth value, such as a number, fails the milestone before any request:
    [strptime] raises [TypeError], which the handler of [ValueError] lets
    through, so [create_milestone] returns False and counts the milestone as
    failed, under dry-run or not. *)
Theorem due_date_that_is_no_string_fails_the_milestone (api : server) (dry_run : bool)
    (repo : string) (milestone_data : dict) (due_on : value) (w : world) :
  milestone_data !! "due_on" = Some due_on ->
  truthy due_on = true ->
  (forall s, due_on <> VStr s) ->
  Milestones.create_milestone api dry_run repo milestone_data w
  = (Ok false,
     set_milestone_manager (inc_failed (inc_error_count (milestone_manager w))) w).
Proof.
  intros Hdue Htrue Hstr.
  assert (Hcopy : Milestones.convert_due_on milestone_data = Raise TypeError).
  { unfold Milestones.convert_due_on, contains, get. rewrite Hdue, Htrue. simpl andb.
    cbv iota. unfold Milestones._format_due_date. rewrite Htrue. simpl negb. cbv iota.
    cbn [Milestones.try_formats Milestones.date_formats]. unfold Datetime.strptime.
    destruct due_on as [| | |s]; try reflexivity. destruct (Hstr s eq_refl). }
  unfold Milestones.create_milestone.
  unfold try_except at 1, bind at 1, lift. rewrite Hcopy. reflexivity.
Qed.

Lemma due_date_that_is_no_string_fails_the_milestone_witness :
  let numbered : dict := {["title" := VStr "v3"; "due_on" := VInt 20250504]} in
  numbered !! "due_on" = Some (VInt 20250504)
  /\ truthy (VInt 20250504) = true
  /\ Milestones.create_milestone unreachable false "octo/demo" numbered new_world
     = (Ok false,
        set_milestone_manager (inc_failed (inc_error_count (milestone_manager new_world)))
          new_world).
Proof.
  intros numbered. split; [reflexivity|]. split; [reflexivity|].
  refine (due_date_that_is_no_string_fails_the_milestone unreachable false "octo/demo"
            numbered (VInt 20250504) new_world eq_refl eq_refl _).
  intros s. discriminate.
Defined.

End TypeProperties.
